(** * Partition lifecycle and index selection (sfeos_helpers.search_engine)

    A shallow embedding of the blocking ("sync") half of the package
    [stac_fastapi.sfeos_helpers.search_engine]:

    - [selection/cache_manager.py]   : [IndexCacheManager], [SyncIndexAliasLoader]
    - [selection/sync_selectors.py]  : [SyncDatetimeBasedIndexSelector]
    - [selection/unfiltered_selector.py] : [UnfilteredIndexSelector]
    - [adapters.py]                  : [SearchEngineAdapter] and its two variants
    - [managers.py]                  : [IndexSizeManager], [DatetimeIndexManager]
    - [sync_inserters.py]            : [SyncDatetimeIndexInserter]
    - [database/document.py]         : [mk_item_id]

    Python code that mutates objects and talks to the search engine is written
    in an exception-and-state monad over an explicit [State]: the engine's
    index/alias table, the alias cache of the selector, the wall clock and the
    log of engine calls. *)

From Stdlib Require Import ZArith QArith List String Ascii Bool Arith Lia.
Import ListNotations.
Open Scope string_scope.
Open Scope list_scope.
Open Scope nat_scope.

(** String concatenation, kept apart from the [++] of lists. *)
Infix "+++" := String.append (right associativity, at level 60).

(** ** Python exceptions and results *)

Inductive exn : Type :=
| KeyError (key : string)
| IndexError
| ValueError
| AttributeError
| OverflowError
| NotFoundError
| HTTPException (status_code : Z) (detail : string).

Inductive result (A : Type) : Type :=
| Ok (a : A)
| Raise (e : exn).
Arguments Ok {A} a.
Arguments Raise {A} e.

Definition HTTP_400_BAD_REQUEST : Z := 400.

(** ** [datetime.date]

    A calendar date as the triple Python's [date] holds.  [date_str] is
    [str(d)] (ISO format), [add_one_day] is [d + timedelta(days=1)] and
    [sub_one_day] is [d - timedelta(days=1)]; both raise [OverflowError]
    ([None] here) outside [date.min .. date.max]. *)

Record date : Type := mkdate { year : Z; month : Z; day : Z }.

Section Dates.
Local Open Scope Z_scope.

Definition date_eqb (a b : date) : bool :=
  (year a =? year b) && (month a =? month b) && (day a =? day b).

Definition date_ltb (a b : date) : bool :=
  (year a <? year b)
  || ((year a =? year b)
      && ((month a <? month b)
          || ((month a =? month b) && (day a <? day b)))).

Definition is_leap (y : Z) : bool :=
  (y mod 4 =? 0) && (negb (y mod 100 =? 0) || (y mod 400 =? 0)).

Definition days_in_month (y m : Z) : Z :=
  match m with
  | 2 => if is_leap y then 29 else 28
  | 4 | 6 | 9 | 11 => 30
  | _ => 31
  end.

Definition MAXYEAR : Z := 9999.

Definition add_one_day (d : date) : option date :=
  if day d <? days_in_month (year d) (month d)
  then Some (mkdate (year d) (month d) (day d + 1))
  else if month d <? 12
       then Some (mkdate (year d) (month d + 1) 1)
       else if year d <? MAXYEAR
            then Some (mkdate (year d + 1) 1 1)
            else None.

Definition sub_one_day (d : date) : option date :=
  if 1 <? day d
  then Some (mkdate (year d) (month d) (day d - 1))
  else if 1 <? month d
       then Some (mkdate (year d) (month d - 1)
                         (days_in_month (year d) (month d - 1)))
       else if 1 <? year d
            then Some (mkdate (year d - 1) 12 31)
            else None.

Definition digit (n : Z) : ascii := ascii_of_N (Z.to_N (48 + n mod 10)).

Definition pad2 (n : Z) : string :=
  String (digit (n / 10)) (String (digit n) EmptyString).

Definition pad4 (n : Z) : string :=
  String (digit (n / 1000)) (String (digit (n / 100)) (pad2 n)).

Definition date_str (d : date) : string :=
  pad4 (year d) +++ "-" +++ pad2 (month d) +++ "-" +++ pad2 (day d).

End Dates.

(** ** [str] methods used by the code *)

(** [s.startswith(p)] *)
Definition startswith (s p : string) : bool := String.prefix p s.

(** [s.removeprefix(p)] *)
Fixpoint drop (n : nat) (s : string) : string :=
  match n, s with
  | O, _ => s
  | S n', String _ s' => drop n' s'
  | S _, EmptyString => EmptyString
  end.

Definition removeprefix (s p : string) : string :=
  if startswith s p then drop (String.length p) s else s.

(** [s.lower()], on the ASCII letters. *)
Definition lower_ascii (c : ascii) : ascii :=
  let n := nat_of_ascii c in
  if (65 <=? n) && (n <=? 90) then ascii_of_nat (n + 32) else c.

Fixpoint lower (s : string) : string :=
  match s with
  | EmptyString => EmptyString
  | String c s' => String (lower_ascii c) (lower s')
  end.

(** [s.translate(table)] for a table that only deletes characters. *)
Fixpoint translate (del : ascii -> bool) (s : string) : string :=
  match s with
  | EmptyString => EmptyString
  | String c s' => if del c then translate del s' else String c (translate del s')
  end.

(** [sep.join(l)] *)
Definition join (sep : string) (l : list string) : string := String.concat sep l.

(** [l.sort()] on a list of strings: ascending in the code-point order. *)
Fixpoint insert_sorted (x : string) (l : list string) : list string :=
  match l with
  | [] => [x]
  | y :: l' => if String.leb x y then x :: l else y :: insert_sorted x l'
  end.

Fixpoint sort (l : list string) : list string :=
  match l with
  | [] => []
  | x :: l' => insert_sorted x (sort l')
  end.

(** ** [dict] with string keys, in insertion order *)

Definition dict (V : Type) : Type := list (string * V).

Fixpoint dict_get {V} (d : dict V) (k : string) : option V :=
  match d with
  | [] => None
  | (k', v) :: d' => if String.eqb k' k then Some v else dict_get d' k
  end.

Fixpoint dict_set {V} (d : dict V) (k : string) (v : V) : dict V :=
  match d with
  | [] => [(k, v)]
  | (k', v') :: d' =>
      if String.eqb k' k then (k', v) :: d' else (k', v') :: dict_set d' k v
  end.

(** [d.setdefault(k, []).extend(xs)] *)
Definition setdefault_extend (d : dict (list string)) (k : string)
           (xs : list string) : dict (list string) :=
  match dict_get d k with
  | Some old => dict_set d k (old ++ xs)
  | None => d ++ [(k, xs)]
  end.

(** ** Items and bulk actions

    An item is a [Dict[str, Any]]; the code reads its entries ["id"] and
    ["collection"] (strings, by the signature of [mk_item_id]) and
    ["properties"], a dict whose ["datetime"] entry is a string or [None]
    (by the return type of [_validate_product_datetime]). *)

Record Item : Type := mkItem {
  item_id : string;
  item_collection : string;
  properties : dict (option string)
}.

Record BulkAction : Type := mkAction {
  _index : string;
  _id : string;
  _source : Item
}.

(** [database/document.py] *)
Definition mk_item_id (item_id collection_id : string) : string :=
  item_id +++ "|" +++ collection_id.

(** ** [search_engine/types.py] *)

Inductive SearchEngineType : Type := ELASTICSEARCH | OPENSEARCH.

(** ** Helpers imported from sibling packages

    The modules import a few constants and functions from
    [stac_fastapi.sfeos_helpers.database] and
    [stac_fastapi.sfeos_helpers.mappings].  The embedding of the code is
    generic in them; where a helper can raise, it returns [option]. *)

Class Helpers : Type := {
  ITEMS_INDEX_PREFIX : string;
  ITEM_INDICES : string;
  (** the characters [_ES_INDEX_NAME_UNSUPPORTED_CHARS_TABLE] deletes *)
  unsupported_char : ascii -> bool;
  index_by_collection_id : string -> string;
  index_alias_by_collection_id : string -> string;
  indices : option (list string) -> string;
  extract_date : string -> option date;
  extract_first_date_from_index : string -> option date;
  filter_indexes_by_datetime :
    list string -> option string -> option string -> option (list string)
}.

(** ** The search engine, the clock and the state of a process *)

Inductive AliasAction : Type :=
| Remove (index alias : string)
| Add (index alias : string).

(** The verbs of the engine client that the code calls.  [CreateIndex]
    records whether the body carries mappings and settings. *)
Inductive EngineCall : Type :=
| CreateIndex (index : string) (aliases : list string) (with_mappings : bool)
| UpdateAliases (actions : list AliasAction)
| GetAlias (index : string)
| Stats (index : string).

(** [selection/cache_manager.py], class [IndexCacheManager]: the methods take
    the reading of [time.time()] as an argument. *)
Record IndexCacheManager : Type := mkCache {
  _cache : option (dict (list string));
  _timestamp : Q;
  _ttl : Q
}.

Definition IndexCacheManager_init (cache_ttl_seconds : Q) : IndexCacheManager :=
  mkCache None 0 cache_ttl_seconds.

Definition is_expired (self : IndexCacheManager) (now : Q) : bool :=
  negb (Qle_bool (now - _timestamp self) (_ttl self)).

Definition get_cache (self : IndexCacheManager) (now : Q)
  : option (dict (list string)) :=
  if is_expired self now then None else _cache self.

Definition set_cache (self : IndexCacheManager) (data : dict (list string))
           (now : Q) : IndexCacheManager :=
  mkCache (Some data) now (_ttl self).

Definition clear_cache (self : IndexCacheManager) : IndexCacheManager :=
  mkCache None 0 (_ttl self).

(** The state a call runs in.  [engine] maps each physical index to its
    aliases; [size_in_bytes] is what the stats verb reports for a name;
    [clock] gives the successive readings of [time.time()], [ticks] counts
    the readings taken; [calls] logs the engine calls in the order issued. *)
Record State : Type := mkState {
  engine : dict (list string);
  size_in_bytes : string -> Z;
  cache_manager : IndexCacheManager;
  clock : nat -> Q;
  ticks : nat;
  calls : list EngineCall
}.

Definition with_engine (st : State) (e : dict (list string)) : State :=
  mkState e (size_in_bytes st) (cache_manager st) (clock st) (ticks st) (calls st).

Definition with_cache_manager (st : State) (c : IndexCacheManager) : State :=
  mkState (engine st) (size_in_bytes st) c (clock st) (ticks st) (calls st).

Definition with_ticks (st : State) (n : nat) : State :=
  mkState (engine st) (size_in_bytes st) (cache_manager st) (clock st) n (calls st).

Definition with_calls (st : State) (l : list EngineCall) : State :=
  mkState (engine st) (size_in_bytes st) (cache_manager st) (clock st) (ticks st) l.

(** ** The monad of exceptions over state *)

Definition M (A : Type) : Type := State -> result A * State.

Definition ret {A} (a : A) : M A := fun st => (Ok a, st).

Definition raise {A} (e : exn) : M A := fun st => (Raise e, st).

Definition bind {A B} (m : M A) (k : A -> M B) : M B :=
  fun st =>
    match m st with
    | (Ok a, st') => k a st'
    | (Raise e, st') => (Raise e, st')
    end.

Notation "x <- m ;; k" := (bind m (fun x => k))
  (at level 100, m at next level, right associativity).
Notation "m ;;; k" := (bind m (fun _ => k))
  (at level 100, right associativity).

(** An optional value whose absence is the exception [e]. *)
Definition or_raise {A} (o : option A) (e : exn) : M A :=
  match o with
  | Some a => ret a
  | None => raise e
  end.

(** [time.time()] *)
Definition time_time : M Q :=
  fun st => (Ok (clock st (ticks st)), with_ticks st (S (ticks st))).

Definition log_call (c : EngineCall) : M unit :=
  fun st => (Ok tt, with_calls st (calls st ++ [c])).

(** *** The engine's verbs

    Index patterns are matched against index names, [*] standing for any run
    of characters. *)
Fixpoint glob (pattern name : string) : bool :=
  match pattern with
  | EmptyString => match name with EmptyString => true | _ => false end
  | String c pattern' =>
      if Ascii.eqb c "*"
      then (fix skip (s : string) : bool :=
              glob pattern' s
              || match s with
                 | EmptyString => false
                 | String _ s' => skip s'
                 end) name
      else match name with
           | EmptyString => false
           | String d name' => Ascii.eqb c d && glob pattern' name'
           end
  end.

(** [client.indices.get_alias(index=pattern)] *)
Definition indices_get_alias (pattern : string) : M (dict (list string)) :=
  log_call (GetAlias pattern) ;;;
  fun st => (Ok (filter (fun entry => glob pattern (fst entry)) (engine st)), st).

(** [client.indices.create(index, body)] with status 400 ignored: an index
    that exists already is left as it is. *)
Definition indices_create (index : string) (aliases : list string)
           (with_mappings : bool) : M unit :=
  log_call (CreateIndex index aliases with_mappings) ;;;
  fun st =>
    match dict_get (engine st) index with
    | Some _ => (Ok tt, st)
    | None => (Ok tt, with_engine st (engine st ++ [(index, aliases)]))
    end.

Definition remove_alias (alias : string) (aliases : list string) : list string :=
  filter (fun a => negb (String.eqb a alias)) aliases.

Definition add_alias (alias : string) (aliases : list string) : list string :=
  if existsb (String.eqb alias) aliases then aliases else aliases ++ [alias].

Definition apply_action (e : dict (list string)) (a : AliasAction)
  : option (dict (list string)) :=
  match a with
  | Remove index alias =>
      match dict_get e index with
      | Some aliases => Some (dict_set e index (remove_alias alias aliases))
      | None => None
      end
  | Add index alias =>
      match dict_get e index with
      | Some aliases => Some (dict_set e index (add_alias alias aliases))
      | None => None
      end
  end.

Fixpoint apply_actions (e : dict (list string)) (l : list AliasAction)
  : option (dict (list string)) :=
  match l with
  | [] => Some e
  | a :: l' =>
      match apply_action e a with
      | Some e' => apply_actions e' l'
      | None => None
      end
  end.

(** [client.indices.update_aliases(body={"actions": actions})]: all actions
    or none; an action on an index that does not exist fails the request. *)
Definition indices_update_aliases (actions : list AliasAction) : M unit :=
  log_call (UpdateAliases actions) ;;;
  fun st =>
    match apply_actions (engine st) actions with
    | Some e => (Ok tt, with_engine st e)
    | None => (Raise NotFoundError, st)
    end.

(** [client.indices.stats(index=name)["_all"]["primaries"]["store"]["size_in_bytes"]] *)
Definition indices_stats (index : string) : M Z :=
  log_call (Stats index) ;;;
  fun st => (Ok (size_in_bytes st index), st).

Section Code.

Context {H : Helpers}.

(** ** [selection/cache_manager.py], class [SyncIndexAliasLoader] *)

(** The inner loop of [load_aliases] over the alias names of one index. *)
Definition scan_aliases (aliases : list string) : option string * list string :=
  fold_left
    (fun (acc : option string * list string) alias_name =>
       let (base_alias, items_aliases) := acc in
       if negb (startswith alias_name ITEMS_INDEX_PREFIX)
       then (base_alias, items_aliases ++ [alias_name])
       else (Some alias_name, items_aliases))
    aliases (None, []).

(** The outer loop of [load_aliases] over [response.values()]. *)
Definition collect_aliases (response : dict (list string)) : dict (list string) :=
  fold_left
    (fun result (index_info : string * list string) =>
       match scan_aliases (snd index_info) with
       | (Some base_alias, (_ :: _) as items_aliases) =>
           if String.eqb base_alias "" then result
           else setdefault_extend result base_alias items_aliases
       | _ => result
       end)
    response [].

Definition cache_manager_set_cache (data : dict (list string)) : M unit :=
  now <- time_time ;;
  fun st => (Ok tt, with_cache_manager st (set_cache (cache_manager st) data now)).

Definition cache_manager_get_cache : M (option (dict (list string))) :=
  now <- time_time ;;
  fun st => (Ok (get_cache (cache_manager st) now), st).

Definition load_aliases : M (dict (list string)) :=
  response <- indices_get_alias (ITEMS_INDEX_PREFIX +++ "*") ;;
  let result := collect_aliases response in
  cache_manager_set_cache result ;;;
  ret result.

Definition get_aliases : M (dict (list string)) :=
  cached <- cache_manager_get_cache ;;
  match cached with
  | Some cached => ret cached
  | None => load_aliases
  end.

Definition refresh_aliases : M (dict (list string)) := load_aliases.

Definition loader_get_collection_indexes (collection_id : string)
  : M (list string) :=
  aliases <- get_aliases ;;
  ret (match dict_get aliases (index_alias_by_collection_id collection_id) with
       | Some l => l
       | None => []
       end).

(** ** [selection/sync_selectors.py], class [SyncDatetimeBasedIndexSelector]

    The selector is the one instance of the process; its [cache_manager] is
    the one of the state. *)

Definition refresh_cache : M (dict (list string)) := refresh_aliases.

Definition get_collection_indexes (collection_id : string) : M (list string) :=
  loader_get_collection_indexes collection_id.

(** [d.get(k)] on a [Dict[str, Optional[str]]] *)
Definition search_get (datetime_search : dict (option string)) (k : string)
  : option string :=
  match dict_get datetime_search k with
  | Some v => v
  | None => None
  end.

(** The loop of [select_indexes] over [collection_ids]. *)
Fixpoint select_loop (collection_ids : list string)
         (datetime_search : dict (option string))
         (selected_indexes : list string) : M (list string) :=
  match collection_ids with
  | [] => ret selected_indexes
  | collection_id :: rest =>
      collection_indexes <- get_collection_indexes collection_id ;;
      filtered_indexes <-
        or_raise (filter_indexes_by_datetime collection_indexes
                    (search_get datetime_search "gte")
                    (search_get datetime_search "lte")) ValueError ;;
      select_loop rest datetime_search (selected_indexes ++ filtered_indexes)
  end.

Definition select_indexes (collection_ids : option (list string))
           (datetime_search : dict (option string)) : M string :=
  match collection_ids with
  | Some ((_ :: _) as collection_ids) =>
      selected_indexes <- select_loop collection_ids datetime_search [] ;;
      ret (match selected_indexes with
           | [] => ""
           | _ :: _ => join "," selected_indexes
           end)
  | _ => ret ITEM_INDICES
  end.

(** [all_indexes.sort()], where [all_indexes] is the list that
    [get_collection_indexes] returned: when the collection has an entry in the
    cached dict, the list is that entry itself and the sort rewrites it there;
    otherwise it is the fresh [[]] of [aliases.get(key, [])]. *)
Definition sort_collection_indexes (collection_id : string)
           (all_indexes : list string) : M (list string) :=
  fun st =>
    let sorted := sort all_indexes in
    let cm := cache_manager st in
    let key := index_alias_by_collection_id collection_id in
    let cache' :=
      match _cache cm with
      | Some d =>
          match dict_get d key with
          | Some _ => Some (dict_set d key sorted)
          | None => Some d
          end
      | None => None
      end in
    (Ok sorted, with_cache_manager st (mkCache cache' (_timestamp cm) (_ttl cm))).

(** ** [selection/unfiltered_selector.py], class [UnfilteredIndexSelector] *)

Definition unfiltered_select_indexes (collection_ids : option (list string))
           (datetime_search : dict (option string)) : string :=
  indices collection_ids.

(** ** [adapters.py] *)

Definition update_index_alias_sync (end_date old_alias : string) : M string :=
  let index := ITEMS_INDEX_PREFIX +++ old_alias in
  let new_alias := old_alias +++ "-" +++ end_date in
  indices_update_aliases [Remove index old_alias; Add index new_alias] ;;;
  ret new_alias.

Definition create_index_name (collection_id start_date : string) : string :=
  let cleaned := translate unsupported_char collection_id in
  ITEMS_INDEX_PREFIX +++ lower cleaned +++ "_" +++ start_date.

(** [ElasticsearchAdapter] sends the aliases alone, [OpenSearchAdapter] adds
    the mappings and the settings of [_create_index_body]. *)
Definition sends_mappings (adapter : SearchEngineType) : bool :=
  match adapter with
  | ELASTICSEARCH => false
  | OPENSEARCH => true
  end.

Definition create_simple_index_sync (adapter : SearchEngineType)
           (collection_id : string) : M string :=
  let index_name := index_by_collection_id collection_id +++ "-000001" in
  let alias_name := index_alias_by_collection_id collection_id in
  indices_create index_name [alias_name] (sends_mappings adapter) ;;;
  ret index_name.

Definition create_datetime_index_sync (adapter : SearchEngineType)
           (collection_id start_date : string) : M string :=
  let index_name := create_index_name collection_id start_date in
  let alias_name := removeprefix index_name ITEMS_INDEX_PREFIX in
  let collection_alias := index_alias_by_collection_id collection_id in
  indices_create index_name [collection_alias; alias_name]
                 (sends_mappings adapter) ;;;
  ret alias_name.

(** ** [managers.py] *)

(** [SyncDatetimeIndexInserter] with its [search_adapter] and the
    [max_size_gb] of its [datetime_manager.size_manager]. *)
Record SyncDatetimeIndexInserter : Type := mkInserter {
  search_adapter : SearchEngineType;
  max_size_gb : Q
}.

Variable self : SyncDatetimeIndexInserter.

Definition get_index_size_in_gb_sync (index_name : string) : M Q :=
  size <- indices_stats index_name ;;
  ret (inject_Z size / inject_Z 1000000000)%Q.

Definition is_index_oversized_sync (index_name : string) : M bool :=
  size_gb <- get_index_size_in_gb_sync index_name ;;
  ret (negb (Qle_bool size_gb (max_size_gb self))).

Definition _validate_product_datetime (product : Item) : result string :=
  match dict_get (properties product) "datetime" with
  | None => Raise (KeyError "datetime")
  | Some None => Raise (HTTPException HTTP_400_BAD_REQUEST
                          "Product datetime is required for indexing")
  | Some (Some product_datetime) =>
      if String.eqb product_datetime ""
      then Raise (HTTPException HTTP_400_BAD_REQUEST
                    "Product datetime is required for indexing")
      else Ok product_datetime
  end.

Definition lift {A} (r : result A) : M A := fun st => (r, st).

Definition handle_new_collection_sync (collection_id product_datetime : string)
  : M string :=
  start <- or_raise (extract_date product_datetime) ValueError ;;
  create_datetime_index_sync (search_adapter self) collection_id (date_str start).

Definition handle_early_date_sync (collection_id : string)
           (start_date end_date : date) : M string :=
  target_index <- create_datetime_index_sync (search_adapter self) collection_id
                    (date_str start_date) ;;
  day_before <- or_raise (sub_one_day end_date) OverflowError ;;
  update_index_alias_sync (date_str day_before) target_index.

Definition handle_oversized_index_sync (collection_id target_index
                                         product_datetime : string) : M string :=
  end_date <- or_raise (extract_date product_datetime) ValueError ;;
  latest_index_start <-
    or_raise (extract_first_date_from_index target_index) ValueError ;;
  if negb (date_eqb end_date latest_index_start)
  then
    update_index_alias_sync (date_str end_date) target_index ;;;
    next_day <- or_raise (add_one_day end_date) OverflowError ;;
    create_datetime_index_sync (search_adapter self) collection_id
                               (date_str next_day)
  else ret target_index.

(** ** [sync_inserters.py], class [SyncDatetimeIndexInserter] *)

Definition should_create_collection_index : bool := false.

Definition last_index (l : list string) : string := List.last l "".

Definition first_index (l : list string) : string := List.hd "" l.

Definition _get_target_index_internal (collection_id : string) (product : Item)
           (check_size : bool) : M string :=
  product_datetime <- lift (_validate_product_datetime product) ;;
  let datetime_range :=
    [("gte", Some product_datetime); ("lte", Some product_datetime)] in
  target_index <- select_indexes (Some [collection_id]) datetime_range ;;
  all_indexes <- get_collection_indexes collection_id ;;
  match all_indexes with
  | [] =>
      target_index <- handle_new_collection_sync collection_id product_datetime ;;
      refresh_cache ;;;
      ret target_index
  | _ :: _ =>
      all_indexes <- sort_collection_indexes collection_id all_indexes ;;
      start_date <- or_raise (extract_date product_datetime) ValueError ;;
      end_date <-
        or_raise (extract_first_date_from_index (first_index all_indexes))
                 ValueError ;;
      if date_ltb start_date end_date
      then
        alias <- handle_early_date_sync collection_id start_date end_date ;;
        refresh_cache ;;;
        ret alias
      else if negb (String.eqb target_index (last_index all_indexes))
      then ret target_index
      else if check_size
      then
        oversized <- is_index_oversized_sync target_index ;;
        if oversized
        then
          target_index <- handle_oversized_index_sync collection_id target_index
                            product_datetime ;;
          refresh_cache ;;;
          ret target_index
        else ret target_index
      else ret target_index
  end.

Definition get_target_index (collection_id : string) (product : Item) : M string :=
  _get_target_index_internal collection_id product true.

(** [extract_date(item["properties"]["datetime"])] *)
Definition item_date (item : Item) : M date :=
  match dict_get (properties item) "datetime" with
  | None => raise (KeyError "datetime")
  | Some None => raise AttributeError
  | Some (Some s) => or_raise (extract_date s) ValueError
  end.

Definition _ensure_indexes_exist (collection_id : string) (items : list Item)
  : M unit :=
  all_indexes <- get_collection_indexes collection_id ;;
  match all_indexes with
  | [] =>
      first_item <- or_raise (List.hd_error items) IndexError ;;
      start <- item_date first_item ;;
      create_datetime_index_sync (search_adapter self) collection_id
                                 (date_str start) ;;;
      refresh_cache ;;;
      ret tt
  | _ :: _ => ret tt
  end.

Record SplitInfo : Type := mkSplit {
  split_date : date;
  new_index : string
}.

Definition _create_new_index_for_split (collection_id latest_index : string)
           (first_item : Item) : M (option SplitInfo) :=
  current_index_end_date <-
    or_raise (extract_first_date_from_index latest_index) ValueError ;;
  first_item_date <- item_date first_item ;;
  if negb (date_eqb first_item_date current_index_end_date)
  then
    update_index_alias_sync (date_str current_index_end_date) latest_index ;;;
    next_day_start <- or_raise (add_one_day current_index_end_date) OverflowError ;;
    new_index <- create_datetime_index_sync (search_adapter self) collection_id
                   (date_str next_day_start) ;;
    ret (Some (mkSplit current_index_end_date new_index))
  else ret None.

Definition _handle_index_splitting (collection_id : string) (items : list Item)
  : M (option SplitInfo) :=
  all_indexes <- get_collection_indexes collection_id ;;
  all_indexes <- sort_collection_indexes collection_id all_indexes ;;
  latest_index <- or_raise (match all_indexes with
                            | [] => None
                            | _ :: _ => Some (last_index all_indexes)
                            end) IndexError ;;
  first_item <- or_raise (List.hd_error items) IndexError ;;
  first_item_index <-
    _get_target_index_internal collection_id first_item false ;;
  if negb (String.eqb first_item_index latest_index)
  then ret None
  else
    oversized <- is_index_oversized_sync first_item_index ;;
    if oversized
    then _create_new_index_for_split collection_id first_item_index first_item
    else ret None.

(** The target of one item inside the loop of [_create_bulk_actions]. *)
Definition bulk_target_index (collection_id : string) (item : Item)
           (split_info : option SplitInfo) : M string :=
  match split_info with
  | Some info =>
      item_date <- item_date item ;;
      if date_ltb (split_date info) item_date
      then ret (new_index info)
      else _get_target_index_internal collection_id item false
  | None => _get_target_index_internal collection_id item false
  end.

Fixpoint bulk_loop (collection_id : string) (items : list Item)
         (split_info : option SplitInfo) (actions : list BulkAction)
  : M (list BulkAction) :=
  match items with
  | [] => ret actions
  | item :: rest =>
      target_index <- bulk_target_index collection_id item split_info ;;
      bulk_loop collection_id rest split_info
        (actions ++ [mkAction target_index
                       (mk_item_id (item_id item) (item_collection item))
                       item])
  end.

Definition _create_bulk_actions (collection_id : string) (items : list Item)
           (split_info : option SplitInfo) : M (list BulkAction) :=
  bulk_loop collection_id items split_info [].

Definition prepare_bulk_actions (collection_id : string) (items : list Item)
  : M (list BulkAction) :=
  _ensure_indexes_exist collection_id items ;;;
  split_info <- _handle_index_splitting collection_id items ;;
  _create_bulk_actions collection_id items split_info.

End Code.

(** ** The imported helpers, modelled

    The definitions of the imported helpers are not part of the modules
    embedded above.  [SpecHelpers] gives them the behaviour the design
    document states, so that the code can be run on concrete inputs. *)

Module SpecHelpers.

Section Parsing.
Local Open Scope Z_scope.

Definition digit_val (c : ascii) : option Z :=
  let n := Z.of_N (N_of_ascii c) in
  if (48 <=? n) && (n <=? 57) then Some (n - 48) else None.

(** One digit, then the rest of the text. *)
Definition take_digit (s : string) : option (Z * string) :=
  match s with
  | String c rest =>
      match digit_val c with
      | Some v => Some (v, rest)
      | None => None
      end
  | EmptyString => None
  end.

(** One dash, then the rest of the text. *)
Definition take_dash (s : string) : option string :=
  match s with
  | String c rest => if Ascii.eqb c "-" then Some rest else None
  | EmptyString => None
  end.

(** A number of two digits, then the rest of the text. *)
Definition take_num2 (s : string) : option (Z * string) :=
  match take_digit s with
  | Some (a, s1) =>
      match take_digit s1 with
      | Some (b, s2) => Some (10 * a + b, s2)
      | None => None
      end
  | None => None
  end.

Definition valid_date (d : date) : bool :=
  (1 <=? year d) && (year d <=? MAXYEAR)
  && (1 <=? month d) && (month d <=? 12)
  && (1 <=? day d) && (day d <=? days_in_month (year d) (month d)).

(** The text [s] begins with four digits, a dash, two digits, a dash and two
    digits: the three numbers and the rest of the text. *)
Definition match_date (s : string) : option (Z * Z * Z * string) :=
  match take_num2 s with
  | Some (yh, s1) =>
      match take_num2 s1 with
      | Some (yl, s2) =>
          match take_dash s2 with
          | Some s3 =>
              match take_num2 s3 with
              | Some (m, s4) =>
                  match take_dash s4 with
                  | Some s5 =>
                      match take_num2 s5 with
                      | Some (d, rest) => Some (100 * yh + yl, m, d, rest)
                      | None => None
                      end
                  | None => None
                  end
              | None => None
              end
          | None => None
          end
      | None => None
      end
  | None => None
  end.

End Parsing.

(** Modelled from the spec: [extract_date] of [sfeos_helpers.database], which
    takes the calendar date of an item's ISO-8601 [datetime]; [None] stands
    for the [ValueError] of a text that is not one. *)
Definition extract_date (date_str : string) : option date :=
  match match_date date_str with
  | Some (y, m, d, rest) =>
      let dt := mkdate y m d in
      if valid_date dt
         && match rest with
            | EmptyString => true
            | String c _ => Ascii.eqb c "T" || Ascii.eqb c " "
            end
      then Some dt
      else None
  | None => None
  end.

(** Modelled from the spec: [extract_first_date_from_index] of
    [sfeos_helpers.database], "the start date encoded in each partition's
    name": the first run [YYYY-MM-DD] in the name, read as a date; [None]
    stands for the error raised when there is none or it is no date. *)
Fixpoint extract_first_date_from_index (index_name : string) : option date :=
  match match_date index_name with
  | Some (y, m, d, _) =>
      let dt := mkdate y m d in
      if valid_date dt then Some dt else None
  | None =>
      match index_name with
      | EmptyString => None
      | String _ rest => extract_first_date_from_index rest
      end
  end.

Definition date_leb (a b : date) : bool := negb (date_ltb b a).

(** The start of the next partition: the least start date among [starts]
    that is greater than [s]. *)
Fixpoint next_start (starts : list date) (s : date) : option date :=
  match starts with
  | [] => None
  | t :: starts' =>
      let r := next_start starts' s in
      if date_ltb s t
      then match r with
           | Some u => if date_ltb u t then Some u else Some t
           | None => Some t
           end
      else r
  end.

Fixpoint all_some {A} (l : list (option A)) : option (list A) :=
  match l with
  | [] => Some []
  | Some a :: l' =>
      match all_some l' with
      | Some r => Some (a :: r)
      | None => None
      end
  | None :: _ => None
  end.

(** An absent bound parses to [Some None], a bound that is no datetime to
    [None]. *)
Definition parse_bound (b : option string) : option (option date) :=
  match b with
  | None => Some None
  | Some s => if String.eqb s "" then Some None
              else match extract_date s with
                   | Some d => Some (Some d)
                   | None => None
                   end
  end.

(** Modelled from the spec: [filter_indexes_by_datetime] of
    [sfeos_helpers.database].  "Partitions are filtered by comparing the start
    date encoded in each partition's name against the query range ... a
    partition's implicit end is the next partition's start, so intersection
    test must be: partition.start <= range.lte AND (next_partition.start is
    None OR next_partition.start > range.gte)". *)
Definition filter_indexes_by_datetime (indexes : list string)
           (gte lte : option string) : option (list string) :=
  match all_some (map extract_first_date_from_index indexes),
        parse_bound gte, parse_bound lte with
  | Some starts, Some gte_date, Some lte_date =>
      Some (filter
              (fun index =>
                 match extract_first_date_from_index index with
                 | Some start =>
                     match lte_date with
                     | Some l => date_leb start l
                     | None => true
                     end
                     && match next_start starts start, gte_date with
                        | Some next, Some g => date_ltb g next
                        | _, _ => true
                        end
                 | None => false
                 end)
              indexes)
  | _, _, _ => None
  end.

(** Modelled from the spec: the items prefix of [sfeos_helpers.mappings]
    ("prefix + sanitize(collectionId) + _ + startDate"). *)
Definition ITEMS_INDEX_PREFIX : string := "items_".

(** Modelled from the spec: [ITEM_INDICES] of [sfeos_helpers.mappings], the
    "catalog-wide wildcard pattern". *)
Definition ITEM_INDICES : string := ITEMS_INDEX_PREFIX +++ "*".

(** Modelled from the spec: the characters
    [_ES_INDEX_NAME_UNSUPPORTED_CHARS_TABLE] strips from a collection id,
    those an engine refuses in an index name. *)
Definition unsupported_char (c : ascii) : bool :=
  existsb (Ascii.eqb c)
          (list_ascii_of_string "\/*?<>| ,#:" ++ [ascii_of_nat 34]).

(** Modelled from the spec: the collection alias, the prefix before the
    sanitized collection id. *)
Definition index_alias_by_collection_id (collection_id : string) : string :=
  ITEMS_INDEX_PREFIX +++ lower (translate unsupported_char collection_id).

(** Modelled from the spec: the name of the single index of a collection in
    simple mode. *)
Definition index_by_collection_id (collection_id : string) : string :=
  ITEMS_INDEX_PREFIX +++ lower (translate unsupported_char collection_id).

(** Modelled from the spec: [indices] of [sfeos_helpers.database], "every
    known partition for the given collections (or a catalog-wide wildcard
    pattern if no collections given)". *)
Definition indices (collection_ids : option (list string)) : string :=
  match collection_ids with
  | Some ((_ :: _) as l) => join "," (map index_alias_by_collection_id l)
  | _ => ITEM_INDICES
  end.

Definition helpers : Helpers :=
  Build_Helpers ITEMS_INDEX_PREFIX ITEM_INDICES unsupported_char
                index_by_collection_id index_alias_by_collection_id indices
                extract_date extract_first_date_from_index
                filter_indexes_by_datetime.

End SpecHelpers.

(** ** Construction of the selector: [__new__] and [__init__]

    [sync_selectors.py], lines 15-40.  Objects live on a heap and are known
    by their address; [_instance] is the class attribute.  An object made by
    [super().__new__(cls)] has no attribute yet; [__init__] sets
    [cache_manager], [alias_loader] (which holds the client and the same
    cache manager) and [_initialized] unless [_initialized] is there. *)

Module Singleton.

Definition Client : Type := nat.

Record Instance : Type := mkInstance {
  _initialized : bool;
  cache_manager : option IndexCacheManager;
  alias_loader_client : option Client
}.

Record Process : Type := mkProcess {
  heap : list Instance;
  _instance : option nat
}.

Definition blank : Instance := mkInstance false None None.

Fixpoint heap_set (h : list Instance) (a : nat) (o : Instance) : list Instance :=
  match h, a with
  | [], _ => []
  | _ :: h', O => o :: h'
  | x :: h', S a' => x :: heap_set h' a' o
  end.

Definition __new__ (p : Process) : nat * Process :=
  match _instance p with
  | None =>
      let a := List.length (heap p) in
      (a, mkProcess (heap p ++ [blank]) (Some a))
  | Some a => (a, p)
  end.

Definition __init__ (self : nat) (sync_client : Client) (p : Process) : Process :=
  match nth_error (heap p) self with
  | Some o =>
      if _initialized o then p
      else mkProcess
             (heap_set (heap p) self
                (mkInstance true (Some (IndexCacheManager_init 3600))
                            (Some sync_client)))
             (_instance p)
  | None => p
  end.

(** The call [SyncDatetimeBasedIndexSelector(client)]: the address of the
    selector and the process after the call. *)
Definition SyncDatetimeBasedIndexSelector (client : Client) (p : Process)
  : nat * Process :=
  let (self, p1) := __new__ p in
  (self, __init__ self client p1).

(** [selector.cache_manager.set_cache(data)] through a reference. *)
Definition selector_set_cache (self : nat) (data : dict (list string)) (now : Q)
           (p : Process) : Process :=
  match nth_error (heap p) self with
  | Some o =>
      match cache_manager o with
      | Some cm =>
          mkProcess
            (heap_set (heap p) self
               (mkInstance (_initialized o) (Some (set_cache cm data now))
                           (alias_loader_client o)))
            (_instance p)
      | None => p
      end
  | None => p
  end.

(** [selector.cache_manager.get_cache()] through a reference. *)
Definition selector_get_cache (self : nat) (now : Q) (p : Process)
  : option (dict (list string)) :=
  match nth_error (heap p) self with
  | Some o =>
      match cache_manager o with
      | Some cm => get_cache cm now
      | None => None
      end
  | None => None
  end.

(** The selector at address [self] is the instance of the process, it was
    initialised with [client], and its cache manager is [cm]. *)
Definition constructed (self : nat) (client : Client) (cm : IndexCacheManager)
           (p : Process) : Prop :=
  _instance p = Some self
  /\ nth_error (heap p) self = Some (mkInstance true (Some cm) (Some client)).

End Singleton.

(** ** Vocabulary of the properties *)

(** The selectors that a run of constructions returns, and the process after
    the run. *)
Fixpoint construct_all (clients : list Singleton.Client) (p : Singleton.Process)
  : list nat * Singleton.Process :=
  match clients with
  | [] => ([], p)
  | client :: rest =>
      let (self, p1) := Singleton.SyncDatetimeBasedIndexSelector client p in
      let (others, p2) := construct_all rest p1 in
      (self :: others, p2)
  end.

(** The item carries no datetime: its ["datetime"] property is [None] or the
    empty string, the values the guard [if not product_datetime] catches. *)
Definition datetime_missing (product : Item) : Prop :=
  dict_get (properties product) "datetime" = Some None
  \/ dict_get (properties product) "datetime" = Some (Some "").

Definition bad_request : exn :=
  HTTPException 400 "Product datetime is required for indexing".

(** What [load_aliases] stores for an engine table [e]. *)
Definition aliases_on_engine {H : Helpers} (e : dict (list string))
  : dict (list string) :=
  collect_aliases
    (filter (fun entry => glob (ITEMS_INDEX_PREFIX +++ "*") (fst entry)) e).

(** The partitions of a collection in an alias mapping. *)
Definition collection_indexes_in {H : Helpers} (m : dict (list string))
           (collection_id : string) : list string :=
  match dict_get m (index_alias_by_collection_id collection_id) with
  | Some l => l
  | None => []
  end.

(** In the mapping [m], no partition of any of the collections matches the
    range. *)
Definition no_partition_matches {H : Helpers} (m : dict (list string))
           (collection_ids : list string)
           (datetime_search : dict (option string)) : Prop :=
  forall collection_id,
    In collection_id collection_ids ->
    filter_indexes_by_datetime (collection_indexes_in m collection_id)
      (search_get datetime_search "gte") (search_get datetime_search "lte")
    = Some [].

(** The number of size checks (stats calls) in a log of engine calls. *)
Fixpoint stats_calls (l : list EngineCall) : nat :=
  match l with
  | [] => 0
  | Stats _ :: l' => S (stats_calls l')
  | _ :: l' => stats_calls l'
  end.

(** Every mapping the selector can read in the state, the cached one and the
    one the engine would load, has no match. *)
Definition nothing_matches {H : Helpers} (collection_ids : list string)
           (datetime_search : dict (option string)) (st : State) : Prop :=
  (forall m, _cache (cache_manager st) = Some m ->
             no_partition_matches m collection_ids datetime_search)
  /\ no_partition_matches (aliases_on_engine (engine st)) collection_ids
                          datetime_search.

(** A computation that leaves the engine as it is and checks no size: it may
    read aliases, the clock and the cache. *)
Definition reads_only {A} (m : M A) : Prop :=
  forall st,
    engine (snd (m st)) = engine st
    /\ size_in_bytes (snd (m st)) = size_in_bytes st
    /\ stats_calls (calls (snd (m st))) = stats_calls (calls st).

(** The alias of the partition of a collection that starts at [start_date]:
    what [create_datetime_index_sync] returns. *)
Definition partition_alias {H : Helpers} (collection_id start_date : string)
  : string :=
  lower (translate unsupported_char collection_id) +++ "_" +++ start_date.

(** The table after [indices_create]. *)
Definition created (e : dict (list string)) (index : string)
           (aliases : list string) : dict (list string) :=
  match dict_get e index with
  | Some _ => e
  | None => e ++ [(index, aliases)]
  end.

(** The table after the rename [Remove index old; Add index new] of
    [update_index_alias_sync], when the index exists with [aliases]. *)
Definition renamed (e : dict (list string)) (index old_alias new_alias : string)
           (aliases : list string) : dict (list string) :=
  dict_set (dict_set e index (remove_alias old_alias aliases)) index
           (add_alias new_alias (remove_alias old_alias aliases)).

(** A computation that performs at most [n] size checks, whatever its
    outcome. *)
Definition stats_bound {A} (n : nat) (m : M A) : Prop :=
  forall st, stats_calls (calls (snd (m st))) <= stats_calls (calls st) + n.

(** The verdict of the size monitor on a name in a state. *)
Definition oversized (self : SyncDatetimeIndexInserter) (st : State)
           (index_name : string) : bool :=
  negb (Qle_bool (inject_Z (size_in_bytes st index_name)
                  / inject_Z 1000000000)%Q
                 (max_size_gb self)).

(** The date of an item, when it has one. *)
Definition item_date_of {H : Helpers} (item : Item) : option date :=
  match dict_get (properties item) "datetime" with
  | Some (Some s) => extract_date s
  | _ => None
  end.

(** How the actions of a batch with the split point [info] stand to its
    items, from the state [st] in which the loop meets the first of them to
    the state [st'] in which it ends.  Each action carries its item; an item
    dated after the split date goes to the new partition and leaves the state
    as it is; any other item goes where target-index resolution without size
    check sends it from the state the batch has reached, and the batch goes
    on from the state that resolution leaves. *)
Fixpoint routed_from {H : Helpers} (self : SyncDatetimeIndexInserter)
         (collection_id : string) (info : SplitInfo)
         (items : list Item) (actions : list BulkAction) (st st' : State)
         {struct items} : Prop :=
  match items, actions with
  | [], [] => st' = st
  | item :: items', action :: actions' =>
      _source action = item
      /\ _id action = mk_item_id (item_id item) (item_collection item)
      /\ exists d,
           item_date_of item = Some d
           /\ if date_ltb (split_date info) d
              then _index action = new_index info
                   /\ routed_from self collection_id info items' actions' st st'
              else exists st1,
                     _get_target_index_internal self collection_id item false st
                     = (Ok (_index action), st1)
                     /\ routed_from self collection_id info items' actions'
                                    st1 st'
  | _, _ => False
  end.

(** ** Concrete scenes

    Collection ["c1"] on an Elasticsearch engine with the default budget of
    25 GB, a fresh selector, a clock that advances one second per reading and
    an engine that reports 30 GB for every name it is asked about. *)

Module Demo.

Definition inserter : SyncDatetimeIndexInserter := mkInserter ELASTICSEARCH 25.

Definition item (id datetime : string) : Item :=
  mkItem id "c1" [("datetime", Some datetime)].

Definition clock (n : nat) : Q := inject_Z (Z.of_nat n + 1700000000).

Definition thirty_gb (name : string) : Z := 30000000000.

(** The table of an engine whose only index is the open partition of ["c1"]
    that starts at [start]. *)
Definition one_partition (start : string) : dict (list string) :=
  [("items_c1_" +++ start, ["items_c1"; "c1_" +++ start])].

Definition state (e : dict (list string)) : State :=
  mkState e thirty_gb (IndexCacheManager_init 3600) clock 0 [].

Definition index_names (r : result (list BulkAction)) : result (list string) :=
  match r with
  | Ok actions => Ok (map _index actions)
  | Raise e => Raise e
  end.

End Demo.

(** The cache, when it holds a mapping, holds the one of the engine: what
    every operation that changes the partitions re-establishes by its
    [refresh_cache]. *)
Definition coherent {H : Helpers} (st : State) : Prop :=
  forall m, _cache (cache_manager st) = Some m ->
            m = aliases_on_engine (engine st).

(** The string [select_indexes] makes of the selected indexes. *)
Definition selected_name (selected_indexes : list string) : string :=
  match selected_indexes with
  | [] => ""
  | _ :: _ => join "," selected_indexes
  end.

(** A collection whose id lets its partition aliases be told from collection
    aliases and adds no date of its own to them. *)
Definition plain_collection {H : Helpers} (collection_id : string) : Prop :=
  (forall x, startswith (partition_alias collection_id x) ITEMS_INDEX_PREFIX
             = false)
  /\ (forall x, extract_first_date_from_index (partition_alias collection_id x)
                = extract_first_date_from_index x).

(** ** The partitions of a collection, in date order

    The closed partitions, each with its start date and the end date of its
    alias, then the open partition; [others] are the indices the engine holds
    besides. *)

Definition closed_alias {H : Helpers} (collection_id : string)
           (p : date * date) : string :=
  partition_alias collection_id (date_str (fst p)) +++ "-" +++ date_str (snd p).

Definition partition_index {H : Helpers} (collection_id : string)
           (start : date) : string :=
  ITEMS_INDEX_PREFIX +++ partition_alias collection_id (date_str start).

(** Each partition as the pair of its index name and its alias. *)
Definition partition_pairs {H : Helpers} (collection_id : string)
           (closed : list (date * date)) (open_start : date)
  : list (string * string) :=
  map (fun p => (partition_index collection_id (fst p),
                 closed_alias collection_id p)) closed
  ++ [(partition_index collection_id open_start,
       partition_alias collection_id (date_str open_start))].

Definition partition_table {H : Helpers} (collection_id : string)
           (others : dict (list string)) (closed : list (date * date))
           (open_start : date) : dict (list string) :=
  others
  ++ map (fun ia => (fst ia, [index_alias_by_collection_id collection_id; snd ia]))
         (partition_pairs collection_id closed open_start).

Definition partition_aliases {H : Helpers} (collection_id : string)
           (closed : list (date * date)) (open_start : date) : list string :=
  map snd (partition_pairs collection_id closed open_start).

Definition partition_starts (closed : list (date * date)) (open_start : date)
  : list date :=
  map fst closed ++ [open_start].

(** The start dates are dates and grow strictly along the partitions. *)
Fixpoint chronological (closed : list (date * date)) (open_start : date) : Prop :=
  match closed with
  | [] => True
  | p :: rest =>
      SpecHelpers.valid_date (fst p) = true
      /\ date_ltb (fst p) (hd open_start (map fst rest)) = true
      /\ chronological rest open_start
  end.

(** The other indices of the engine have nothing of the collection: none
    contributes to its entry in the alias mapping and none bears the name of
    one of its partitions. *)
Definition foreign {H : Helpers} (collection_id : string)
           (others : dict (list string)) : Prop :=
  dict_get (aliases_on_engine others) (index_alias_by_collection_id collection_id)
  = None
  /\ forall x, dict_get others
                 (ITEMS_INDEX_PREFIX +++ partition_alias collection_id x) = None.

(** The state of the process after the rollover of the open partition that
    started at [start]: the engine holds the table in which that partition is
    closed at [closing] and a partition is open from [next], and the cache,
    when it holds a mapping, holds the one of that table. *)
Definition rolled_over {H : Helpers} (collection_id : string)
           (others : dict (list string)) (earlier : list (date * date))
           (start closing next : date) (st : State) : Prop :=
  engine st
  = partition_table collection_id others (earlier ++ [(start, closing)]) next
  /\ coherent st.

(** The test of the modelled filter on a partition that starts at [start],
    among partitions that start at [starts], for the one-day range of [day]. *)
Definition keeps (starts : list date) (day start : date) : bool :=
  SpecHelpers.date_leb start day
  && match SpecHelpers.next_start starts start with
     | Some next => date_ltb day next
     | None => true
     end.

(** ** [sync_inserters.py], class [SyncSimpleIndexInserter]

    The strategy without partitions: every item goes to the alias of its
    collection. *)

Module SyncSimpleIndexInserter.

Section Methods.

Context {H : Helpers}.
Variable search_adapter : SearchEngineType.

Definition should_create_collection_index : bool := true.

Definition create_simple_index (collection_id : string) : M string :=
  create_simple_index_sync search_adapter collection_id.

Definition get_target_index (collection_id : string) (product : Item) : string :=
  index_alias_by_collection_id collection_id.

Definition prepare_bulk_actions (collection_id : string) (items : list Item)
  : list BulkAction :=
  let target_index := index_alias_by_collection_id collection_id in
  map (fun item =>
         mkAction target_index
                  (mk_item_id (item_id item) (item_collection item))
                  item)
      items.

End Methods.

End SyncSimpleIndexInserter.

(** ** [adapters.py], class [SearchEngineAdapterFactory] *)

(** [sub in s] on strings. *)
Fixpoint contains (s sub : string) : bool :=
  String.prefix sub s
  || match s with
     | EmptyString => false
     | String _ s' => contains s' sub
     end.

(** [detect_engine_type], on the text [str(client.__class__)]. *)
Definition detect_engine_type (client_class : string) : SearchEngineType :=
  if contains (lower client_class) "opensearch"
  then OPENSEARCH
  else ELASTICSEARCH.

(** ** Further vocabulary *)

(** The text holds no ["|"]. *)
Fixpoint no_bar (s : string) : bool :=
  match s with
  | EmptyString => true
  | String c s' => negb (Ascii.eqb c "|") && no_bar s'
  end.

(** An entry of an alias mapping as [load_aliases] builds them: the key is a
    non-empty collection alias, and it lists at least one alias, none of
    which bears the prefix of the collection aliases. *)
Definition loaded_entry {H : Helpers} (entry : string * list string) : Prop :=
  startswith (fst entry) ITEMS_INDEX_PREFIX = true
  /\ fst entry <> ""
  /\ snd entry <> []
  /\ Forall (fun alias => startswith alias ITEMS_INDEX_PREFIX = false)
            (snd entry).

(** The engine call that [load_aliases] issues. *)
Definition alias_lookup {H : Helpers} : EngineCall :=
  GetAlias (ITEMS_INDEX_PREFIX +++ "*").

(** A computation that keeps every index of the engine, in place, and adds
    at most [n] indices after them, whatever its outcome. *)
Definition adds_indexes {A} (n : nat) (m : M A) : Prop :=
  forall st,
    exists added,
      map fst (engine (snd (m st))) = map fst (engine st) ++ added
      /\ List.length added <= n.

(** The table of a collection all of whose partitions are closed. *)
Definition closed_partitions_table {H : Helpers} (collection_id : string)
           (others : dict (list string)) (closed : list (date * date))
  : dict (list string) :=
  others
  ++ map (fun p => (partition_index collection_id (fst p),
                    [index_alias_by_collection_id collection_id;
                     closed_alias collection_id p]))
         closed.

(** The last day of the calendar, [date.max]. *)
Definition last_day : date := mkdate MAXYEAR 12 31.

(** The bulk action that sends an item to [target_index]. *)
Definition action_to (target_index : string) (item : Item) : BulkAction :=
  mkAction target_index (mk_item_id (item_id item) (item_collection item)) item.

(** The item has a date, and it is not before [start]. *)
Definition dated_from {H : Helpers} (start : date) (item : Item) : Prop :=
  exists d, item_date_of item = Some d /\ date_ltb d start = false.

(** A computation that leaves the selector's cache and the clock as they
    are, whatever its outcome. *)
Definition keeps_cache {A} (m : M A) : Prop :=
  forall st,
    cache_manager (snd (m st)) = cache_manager st
    /\ ticks (snd (m st)) = ticks st.

(** * Properties *)

(** ** The alias cache *)

Lemma is_expired_false (self : IndexCacheManager) (now : Q) :
  (now - _timestamp self <= _ttl self)%Q -> is_expired self now = false.
Proof.
  intros Hfresh. unfold is_expired.
  apply negb_false_iff. apply Qle_bool_iff. exact Hfresh.
Qed.

Lemma is_expired_true (self : IndexCacheManager) (now : Q) :
  (_ttl self < now - _timestamp self)%Q -> is_expired self now = true.
Proof.
  intros Hold. unfold is_expired.
  apply negb_true_iff. apply not_true_is_false.
  intros Hle. apply Qle_bool_iff in Hle.
  exact (Qlt_not_le _ _ Hold Hle).
Qed.

(** C6: after [set_cache data] at time [t], [get_cache] at time [now] returns
    [data] itself while [now - t <= TTL], and [None] once more than [TTL]
    seconds have passed since the set. *)
Theorem get_cache_after_set_cache (self : IndexCacheManager)
        (data : dict (list string)) (t now : Q) :
  ((now - t <= _ttl self)%Q ->
   get_cache (set_cache self data t) now = Some data)
  /\ ((_ttl self < now - t)%Q ->
      get_cache (set_cache self data t) now = None).
Proof.
  split; intros Hage; unfold get_cache.
  - rewrite is_expired_false; [reflexivity | exact Hage].
  - rewrite is_expired_true; [reflexivity | exact Hage].
Qed.

(** A cache with the default TTL, set at second 100: read at second 200 it is
    fresh, read at second 3701 it has expired. *)
Lemma get_cache_after_set_cache_witness :
  get_cache (set_cache (IndexCacheManager_init 3600)
                       [("items_c1", ["c1_2024-01-01"])] 100) 200
  = Some [("items_c1", ["c1_2024-01-01"])]
  /\ get_cache (set_cache (IndexCacheManager_init 3600)
                          [("items_c1", ["c1_2024-01-01"])] 100) 3701
     = None.
Proof.
  split.
  - apply (get_cache_after_set_cache (IndexCacheManager_init 3600)
             [("items_c1", ["c1_2024-01-01"])] 100 200).
    vm_compute. discriminate.
  - apply (get_cache_after_set_cache (IndexCacheManager_init 3600)
             [("items_c1", ["c1_2024-01-01"])] 100 3701).
    vm_compute. reflexivity.
Defined.

(** ** The unfiltered selector *)

(** C7: the unfiltered selector returns the same index string whatever the
    datetime range: for all collection ids and any two ranges the results
    agree. *)
Theorem unfiltered_select_indexes_ignores_datetime
        {H : Helpers} (collection_ids : option (list string))
        (datetime_search1 datetime_search2 : dict (option string)) :
  unfiltered_select_indexes collection_ids datetime_search1
  = unfiltered_select_indexes collection_ids datetime_search2.
Proof. reflexivity. Qed.

(** ** The selector is a singleton *)

Lemma heap_set_same (h : list Singleton.Instance) (a : nat) (o : Singleton.Instance) :
  a < List.length h -> nth_error (Singleton.heap_set h a o) a = Some o.
Proof.
  revert a. induction h as [| x h IH]; intros a Hlt; simpl in *.
  - lia.
  - destruct a as [| a]; simpl.
    + reflexivity.
    + apply IH. lia.
Qed.

Lemma nth_error_snoc {A} (h : list A) (x : A) :
  nth_error (h ++ [x]) (List.length h) = Some x.
Proof.
  induction h as [| y h IH]; simpl; [reflexivity | exact IH].
Qed.

Lemma first_construction (p : Singleton.Process) (client : Singleton.Client) :
  Singleton._instance p = None ->
  Singleton.constructed
    (fst (Singleton.SyncDatetimeBasedIndexSelector client p)) client
    (IndexCacheManager_init 3600)
    (snd (Singleton.SyncDatetimeBasedIndexSelector client p)).
Proof.
  intros Hnone.
  unfold Singleton.SyncDatetimeBasedIndexSelector, Singleton.__new__.
  rewrite Hnone. unfold Singleton.__init__. simpl.
  rewrite nth_error_snoc. simpl.
  split; simpl.
  - reflexivity.
  - apply heap_set_same. rewrite length_app. simpl. lia.
Qed.

Lemma later_construction (self : nat) (client client' : Singleton.Client)
      (cm : IndexCacheManager) (p : Singleton.Process) :
  Singleton.constructed self client cm p ->
  Singleton.SyncDatetimeBasedIndexSelector client' p = (self, p).
Proof.
  intros [Hinst Hobj].
  unfold Singleton.SyncDatetimeBasedIndexSelector, Singleton.__new__.
  rewrite Hinst. unfold Singleton.__init__. rewrite Hobj. reflexivity.
Qed.

Lemma set_cache_keeps_constructed (self : nat) (client : Singleton.Client)
      (cm : IndexCacheManager) (p : Singleton.Process)
      (data : dict (list string)) (now : Q) :
  Singleton.constructed self client cm p ->
  Singleton.constructed self client (set_cache cm data now)
                        (Singleton.selector_set_cache self data now p).
Proof.
  intros [Hinst Hobj].
  unfold Singleton.selector_set_cache. rewrite Hobj. simpl.
  split; simpl.
  - exact Hinst.
  - apply heap_set_same. apply nth_error_Some. rewrite Hobj. discriminate.
Qed.

Lemma construct_all_constructed (clients : list Singleton.Client) (self : nat)
      (client : Singleton.Client) (cm : IndexCacheManager)
      (p : Singleton.Process) :
  Singleton.constructed self client cm p ->
  construct_all clients p = (map (fun _ => self) clients, p).
Proof.
  intros Hc. induction clients as [| c rest IH]; simpl.
  - reflexivity.
  - rewrite (later_construction self client c cm p Hc). rewrite IH. reflexivity.
Qed.

(** C10: in a process where no selector exists yet, the first construction
    yields a selector initialised with its client and a fresh cache manager;
    every later construction, with whatever client, returns that same selector
    and leaves the process as it was, so client and cache manager stay those
    of the first construction; and what one caller stores in the cache is what
    a caller constructing the selector afterwards reads. *)
Theorem selector_is_process_wide_singleton
        (p : Singleton.Process) (first : Singleton.Client)
        (later : list Singleton.Client) :
  Singleton._instance p = None ->
  let (self, p1) := Singleton.SyncDatetimeBasedIndexSelector first p in
  Singleton.constructed self first (IndexCacheManager_init 3600) p1
  /\ construct_all later p1 = (map (fun _ => self) later, p1)
  /\ forall (data : dict (list string)) (t now : Q) (client : Singleton.Client),
       let p2 := Singleton.selector_set_cache self data t p1 in
       let (self', p3) := Singleton.SyncDatetimeBasedIndexSelector client p2 in
       self' = self
       /\ Singleton.constructed self first
            (set_cache (IndexCacheManager_init 3600) data t) p3
       /\ Singleton.selector_get_cache self' now p3
          = get_cache (set_cache (IndexCacheManager_init 3600) data t) now.
Proof.
  intros Hnone.
  pose proof (first_construction p first Hnone) as Hfirst.
  destruct (Singleton.SyncDatetimeBasedIndexSelector first p) as [self p1].
  simpl in Hfirst.
  split; [exact Hfirst |].
  split; [exact (construct_all_constructed later self first _ p1 Hfirst) |].
  intros data t now client.
  pose proof (set_cache_keeps_constructed self first _ p1 data t Hfirst) as Hset.
  cbv zeta.
  rewrite (later_construction self first client _ _ Hset).
  split; [reflexivity |].
  split; [exact Hset |].
  destruct Hset as [_ Hobj].
  unfold Singleton.selector_get_cache. rewrite Hobj. reflexivity.
Qed.

(** A fresh process, a first construction with client 1, then constructions
    with clients 2 and 3. *)
Lemma selector_is_process_wide_singleton_witness :
  construct_all [2; 3]
    (snd (Singleton.SyncDatetimeBasedIndexSelector 1 (Singleton.mkProcess [] None)))
  = ([0; 0],
     Singleton.mkProcess
       [Singleton.mkInstance true (Some (IndexCacheManager_init 3600)) (Some 1)]
       (Some 0)).
Proof.
  pose proof (selector_is_process_wide_singleton
                (Singleton.mkProcess [] None) 1 [2; 3] eq_refl) as Hs.
  simpl in Hs. destruct Hs as [_ [Hall _]]. exact Hall.
Defined.

(** ** Items without a datetime *)

Lemma validate_missing_datetime (product : Item) :
  datetime_missing product ->
  _validate_product_datetime product = Raise bad_request.
Proof.
  intros [Hnone | Hempty]; unfold _validate_product_datetime.
  - rewrite Hnone. reflexivity.
  - rewrite Hempty. reflexivity.
Qed.

(** An item whose properties have no ["datetime"] key at all does not reach
    the guard: the subscript raises [KeyError]. *)
Lemma validate_absent_datetime_key (product : Item) :
  dict_get (properties product) "datetime" = None ->
  _validate_product_datetime product = Raise (KeyError "datetime").
Proof.
  intros Habsent. unfold _validate_product_datetime. rewrite Habsent. reflexivity.
Qed.

(** X24: resolving the target partition of an item whose ["datetime"]
    property is present and holds [None] or the empty string raises the HTTP
    400 exception of the guard, with the size check on or off, and leaves the
    state as it was: no engine call is issued (nothing is created, selected
    or retried), the cache is not touched and the clock is not read. *)
Theorem target_index_of_item_without_datetime
        {H : Helpers} (self : SyncDatetimeIndexInserter)
        (collection_id : string) (product : Item) (check_size : bool)
        (st : State) :
  datetime_missing product ->
  _get_target_index_internal self collection_id product check_size st
  = (Raise (HTTPException HTTP_400_BAD_REQUEST
              "Product datetime is required for indexing"), st)
  /\ get_target_index self collection_id product st
     = (Raise (HTTPException HTTP_400_BAD_REQUEST
                 "Product datetime is required for indexing"), st).
Proof.
  intros Hmissing.
  unfold get_target_index, _get_target_index_internal, bind, lift.
  rewrite (validate_missing_datetime product Hmissing).
  split; reflexivity.
Qed.

Lemma target_index_of_item_without_datetime_witness :
  get_target_index (H := SpecHelpers.helpers) (mkInserter ELASTICSEARCH 25)
    "c1" (mkItem "a" "c1" [("datetime", None)])
    (mkState [] (fun _ => 0%Z) (IndexCacheManager_init 3600) (fun _ => 0%Q) 0 [])
  = (Raise (HTTPException 400 "Product datetime is required for indexing"),
     mkState [] (fun _ => 0%Z) (IndexCacheManager_init 3600) (fun _ => 0%Q) 0 []).
Proof.
  apply (target_index_of_item_without_datetime (H := SpecHelpers.helpers)
           (mkInserter ELASTICSEARCH 25) "c1"
           (mkItem "a" "c1" [("datetime", None)]) true).
  left. reflexivity.
Defined.

(** ** Reading the alias mapping *)

Section Loader.

Context {H : Helpers}.

(** [get_aliases] never raises and never changes the engine; the mapping it
    returns is the cached one or the one loaded from the engine, and it is
    what the cache holds afterwards. *)
Lemma get_aliases_spec (st : State) :
  exists m st',
    get_aliases st = (Ok m, st')
    /\ engine st' = engine st
    /\ size_in_bytes st' = size_in_bytes st
    /\ _cache (cache_manager st') = Some m
    /\ (_cache (cache_manager st) = Some m
        \/ m = aliases_on_engine (engine st))
    /\ stats_calls (calls st') = stats_calls (calls st).
Proof.
  unfold get_aliases, cache_manager_get_cache, bind, time_time. simpl.
  destruct (get_cache (cache_manager st) (clock st (ticks st))) as [m |] eqn:Hget.
  - exists m. eexists. split; [reflexivity |]. simpl.
    unfold get_cache in Hget.
    destruct (is_expired _ _); [discriminate |].
    repeat split; auto.
  - eexists. eexists. split.
    + unfold load_aliases, indices_get_alias, cache_manager_set_cache,
        bind, log_call, time_time, ret. simpl. reflexivity.
    + simpl. repeat split; auto.
      induction (calls st) as [| c l IH]; simpl; [reflexivity |].
      destruct c; simpl; rewrite ?IH; reflexivity.
Qed.

Lemma get_collection_indexes_spec (collection_id : string) (st : State) :
  exists m st',
    get_collection_indexes collection_id st
    = (Ok (collection_indexes_in m collection_id), st')
    /\ engine st' = engine st
    /\ size_in_bytes st' = size_in_bytes st
    /\ _cache (cache_manager st') = Some m
    /\ (_cache (cache_manager st) = Some m
        \/ m = aliases_on_engine (engine st))
    /\ stats_calls (calls st') = stats_calls (calls st).
Proof.
  destruct (get_aliases_spec st) as (m & st' & Hrun & Hrest).
  exists m, st'. split; [| exact Hrest].
  unfold get_collection_indexes, loader_get_collection_indexes, bind.
  rewrite Hrun. reflexivity.
Qed.

End Loader.

(** ** Datetime-filtered selection without a match *)

Section NoMatch.

Context {H : Helpers}.

Lemma select_loop_no_match (collection_ids : list string)
      (datetime_search : dict (option string)) (l : list string) :
  incl l collection_ids ->
  forall (selected : list string) (st : State),
    nothing_matches collection_ids datetime_search st ->
    exists st',
      select_loop l datetime_search selected st = (Ok selected, st')
      /\ nothing_matches collection_ids datetime_search st'.
Proof.
  induction l as [| c rest IH]; intros Hincl selected st Hnm; simpl.
  - exists st. split; [reflexivity | exact Hnm].
  - destruct (get_collection_indexes_spec c st)
      as (m & st1 & Hrun & Heng & _ & Hcache & Hfrom & _).
    assert (Hm : no_partition_matches m collection_ids datetime_search).
    { destruct Hnm as [Hc He]. destruct Hfrom as [Hold | Hload].
      - apply Hc. exact Hold.
      - rewrite Hload. exact He. }
    assert (Hnm1 : nothing_matches collection_ids datetime_search st1).
    { split.
      - intros m' Hm'. rewrite Hcache in Hm'. injection Hm' as <-. exact Hm.
      - rewrite Heng. apply Hnm. }
    unfold bind. rewrite Hrun.
    rewrite (Hm c (Hincl c (or_introl eq_refl))). simpl.
    rewrite app_nil_r.
    apply IH; [| exact Hnm1].
    intros x Hx. apply Hincl. right. exact Hx.
Qed.

(** C9: with a non-empty list of collection ids, when no partition of any
    named collection matches the range (in the cached mapping and in the one
    the engine would load), [select_indexes] returns the empty string and not
    the wildcard pattern; the wildcard pattern is what it returns when no
    collection ids are given ([None] or the empty list). *)
Theorem select_indexes_without_match (collection_ids : list string)
        (datetime_search : dict (option string)) (st : State) :
  collection_ids <> [] ->
  ITEM_INDICES <> "" ->
  nothing_matches collection_ids datetime_search st ->
  fst (select_indexes (Some collection_ids) datetime_search st) = Ok ""
  /\ fst (select_indexes (Some collection_ids) datetime_search st)
     <> Ok ITEM_INDICES
  /\ select_indexes None datetime_search st = (Ok ITEM_INDICES, st)
  /\ select_indexes (Some []) datetime_search st = (Ok ITEM_INDICES, st).
Proof.
  intros Hne Hwild Hnm.
  assert (Hrun : fst (select_indexes (Some collection_ids) datetime_search st)
                 = Ok "").
  { destruct (select_loop_no_match collection_ids datetime_search
                collection_ids (incl_refl _) [] st Hnm) as (st' & Hloop & _).
    unfold select_indexes.
    destruct collection_ids as [| c rest]; [contradiction |].
    unfold bind. rewrite Hloop. reflexivity. }
  split; [exact Hrun |].
  split.
  - rewrite Hrun. intros Heq. injection Heq as Heq. apply Hwild.
    symmetry. exact Heq.
  - split; reflexivity.
Qed.

End NoMatch.

(** ** The engine table under index creation and alias updates *)

Lemma dict_get_set_same {V} (d : dict V) (k : string) (v : V) :
  dict_get (dict_set d k v) k = Some v.
Proof.
  induction d as [| [k' v'] d IH]; simpl.
  - rewrite String.eqb_refl. reflexivity.
  - destruct (String.eqb k' k) eqn:Hk; simpl; rewrite Hk; [reflexivity | exact IH].
Qed.

Lemma dict_get_set_other {V} (d : dict V) (k k' : string) (v : V) :
  k' <> k -> dict_get (dict_set d k v) k' = dict_get d k'.
Proof.
  intros Hne. induction d as [| [k0 v0] d IH]; simpl.
  - destruct (String.eqb k k') eqn:Hk; [| reflexivity].
    apply String.eqb_eq in Hk. congruence.
  - destruct (String.eqb k0 k) eqn:Hk; simpl.
    + apply String.eqb_eq in Hk. subst k0.
      destruct (String.eqb k k') eqn:Hk'; [| reflexivity].
      apply String.eqb_eq in Hk'. congruence.
    + rewrite IH. reflexivity.
Qed.

Lemma dict_get_app {V} (d1 d2 : dict V) (k : string) :
  dict_get (d1 ++ d2) k
  = match dict_get d1 k with
    | Some v => Some v
    | None => dict_get d2 k
    end.
Proof.
  induction d1 as [| [k' v'] d1 IH]; simpl; [reflexivity |].
  destruct (String.eqb k' k); [reflexivity | exact IH].
Qed.

Lemma created_other (e : dict (list string)) (index index' : string)
      (aliases : list string) :
  index' <> index ->
  dict_get (created e index aliases) index' = dict_get e index'.
Proof.
  intros Hne. unfold created.
  destruct (dict_get e index); [reflexivity |].
  rewrite dict_get_app. destruct (dict_get e index'); [reflexivity |].
  simpl. destruct (String.eqb index index') eqn:Hk; [| reflexivity].
  apply String.eqb_eq in Hk. congruence.
Qed.

Lemma created_same (e : dict (list string)) (index : string)
      (aliases : list string) :
  dict_get (created e index aliases) index
  = match dict_get e index with
    | Some old => Some old
    | None => Some aliases
    end.
Proof.
  unfold created. destruct (dict_get e index) eqn:Hg.
  - exact Hg.
  - rewrite dict_get_app, Hg. simpl. rewrite String.eqb_refl. reflexivity.
Qed.

Lemma apply_rename (e : dict (list string)) (index old_alias new_alias : string)
      (aliases : list string) :
  dict_get e index = Some aliases ->
  apply_actions e [Remove index old_alias; Add index new_alias]
  = Some (renamed e index old_alias new_alias aliases).
Proof.
  intros Hg. simpl. rewrite Hg. rewrite dict_get_set_same. reflexivity.
Qed.

Lemma length_append (s t : string) :
  String.length (s +++ t) = String.length s + String.length t.
Proof. induction s as [| c s IH]; simpl; [reflexivity | rewrite IH; reflexivity]. Qed.

Lemma append_nonempty_neq (s t : string) (c : ascii) : s +++ String c t <> s.
Proof.
  intros Heq. apply (f_equal String.length) in Heq.
  rewrite length_append in Heq. simpl in Heq. lia.
Qed.

Lemma in_add_alias (x alias : string) (aliases : list string) :
  In x (add_alias alias aliases) -> x = alias \/ In x aliases.
Proof.
  unfold add_alias. destruct (existsb _ _); intros Hin.
  - right. exact Hin.
  - apply in_app_or in Hin. destruct Hin as [Hin | [Heq | []]]; auto.
Qed.

Lemma not_in_remove_alias (alias : string) (aliases : list string) :
  ~ In alias (remove_alias alias aliases).
Proof.
  unfold remove_alias. intros Hin. apply filter_In in Hin.
  destruct Hin as [_ Hneq]. rewrite String.eqb_refl in Hneq. discriminate.
Qed.

Lemma in_remove_alias (x alias : string) (aliases : list string) :
  In x aliases -> x <> alias -> In x (remove_alias alias aliases).
Proof.
  intros Hin Hne. unfold remove_alias. apply filter_In. split; [exact Hin |].
  apply negb_true_iff. apply String.eqb_neq. exact Hne.
Qed.

Lemma renamed_other (e : dict (list string))
      (index old_alias new_alias index' : string) (aliases : list string) :
  index' <> index ->
  dict_get (renamed e index old_alias new_alias aliases) index'
  = dict_get e index'.
Proof.
  intros Hne. unfold renamed.
  rewrite !dict_get_set_other by exact Hne. reflexivity.
Qed.

(** ** Computations that only read *)

Lemma stats_calls_app (l1 l2 : list EngineCall) :
  stats_calls (l1 ++ l2) = stats_calls l1 + stats_calls l2.
Proof.
  induction l1 as [| c l1 IH]; simpl; [reflexivity |].
  destruct c; simpl; rewrite IH; reflexivity.
Qed.

Lemma reads_only_ret {A} (a : A) : reads_only (ret a).
Proof. intros st. simpl. auto. Qed.

Lemma reads_only_raise {A} (e : exn) : reads_only (@raise A e).
Proof. intros st. simpl. auto. Qed.

Lemma reads_only_or_raise {A} (o : option A) (e : exn) :
  reads_only (or_raise o e).
Proof. destruct o; [apply reads_only_ret | apply reads_only_raise]. Qed.

Lemma reads_only_bind {A B} (m : M A) (k : A -> M B) :
  reads_only m -> (forall a, reads_only (k a)) -> reads_only (bind m k).
Proof.
  intros Hm Hk st. unfold bind.
  specialize (Hm st). destruct (m st) as [[a | e] st1]; simpl in *.
  - specialize (Hk a st1).
    destruct Hm as (E1 & E2 & E3). destruct Hk as (K1 & K2 & K3).
    repeat split; congruence.
  - exact Hm.
Qed.

Section ReadsOnly.

Context {H : Helpers}.

Lemma reads_only_get_collection_indexes (collection_id : string) :
  reads_only (get_collection_indexes collection_id).
Proof.
  intros st.
  destruct (get_collection_indexes_spec collection_id st)
    as (m & st' & Hrun & Heng & Hsize & _ & _ & Hstats).
  rewrite Hrun. simpl. auto.
Qed.

Lemma reads_only_select_loop (collection_ids : list string)
      (datetime_search : dict (option string)) :
  forall selected, reads_only (select_loop collection_ids datetime_search selected).
Proof.
  induction collection_ids as [| c rest IH]; intros selected; simpl.
  - apply reads_only_ret.
  - apply reads_only_bind; [apply reads_only_get_collection_indexes |].
    intros l. apply reads_only_bind; [apply reads_only_or_raise |].
    intros f. apply IH.
Qed.

Lemma reads_only_select_indexes (collection_ids : option (list string))
      (datetime_search : dict (option string)) :
  reads_only (select_indexes collection_ids datetime_search).
Proof.
  unfold select_indexes.
  destruct collection_ids as [[| c rest] |]; try apply reads_only_ret.
  apply reads_only_bind; [apply reads_only_select_loop |].
  intros l. apply reads_only_ret.
Qed.

Lemma reads_only_sort_collection_indexes (collection_id : string)
      (all_indexes : list string) :
  reads_only (sort_collection_indexes collection_id all_indexes).
Proof. intros st. simpl. auto. Qed.

Lemma reads_only_refresh_cache : reads_only refresh_cache.
Proof.
  intros st. simpl. repeat split; auto.
  rewrite stats_calls_app. simpl. lia.
Qed.

End ReadsOnly.

(** ** The adapter *)

Section Adapter.

Context {H : Helpers}.

Lemma drop_append (p x : string) : drop (String.length p) (p +++ x) = x.
Proof. induction p as [| c p IH]; simpl; [reflexivity | exact IH]. Qed.

Lemma prefix_append (p x : string) : String.prefix p (p +++ x) = true.
Proof.
  induction p as [| c p IH]; simpl.
  - destruct x; reflexivity.
  - destruct (ascii_dec c c) as [_ | Hne]; [exact IH | congruence].
Qed.

Lemma removeprefix_append (p x : string) : removeprefix (p +++ x) p = x.
Proof.
  unfold removeprefix, startswith. rewrite prefix_append. apply drop_append.
Qed.

Lemma create_index_name_alias (collection_id start_date : string) :
  create_index_name collection_id start_date
  = ITEMS_INDEX_PREFIX +++ partition_alias collection_id start_date.
Proof. reflexivity. Qed.

Lemma create_datetime_index_sync_run (adapter : SearchEngineType)
      (collection_id start_date : string) (st : State) :
  let alias := partition_alias collection_id start_date in
  let index := ITEMS_INDEX_PREFIX +++ alias in
  let collection_alias := index_alias_by_collection_id collection_id in
  create_datetime_index_sync adapter collection_id start_date st
  = (Ok alias,
     mkState (created (engine st) index [collection_alias; alias])
             (size_in_bytes st) (cache_manager st) (clock st) (ticks st)
             (calls st
              ++ [CreateIndex index [collection_alias; alias]
                              (sends_mappings adapter)])).
Proof.
  cbv zeta.
  unfold create_datetime_index_sync, indices_create, bind, log_call, ret, created.
  rewrite create_index_name_alias, removeprefix_append. simpl.
  destruct (dict_get (engine st) _); reflexivity.
Qed.

Lemma update_index_alias_sync_run (end_date old_alias : string)
      (aliases : list string) (st : State) :
  let index := ITEMS_INDEX_PREFIX +++ old_alias in
  let new_alias := old_alias +++ "-" +++ end_date in
  dict_get (engine st) index = Some aliases ->
  update_index_alias_sync end_date old_alias st
  = (Ok new_alias,
     mkState (renamed (engine st) index old_alias new_alias aliases)
             (size_in_bytes st) (cache_manager st) (clock st) (ticks st)
             (calls st
              ++ [UpdateAliases [Remove index old_alias; Add index new_alias]])).
Proof.
  cbv zeta. intros Hg.
  unfold update_index_alias_sync, indices_update_aliases, bind, log_call, ret.
  cbn [with_calls engine].
  rewrite (apply_rename _ _ _ _ _ Hg). reflexivity.
Qed.

Lemma load_aliases_run (st : State) :
  load_aliases st
  = (Ok (aliases_on_engine (engine st)),
     mkState (engine st) (size_in_bytes st)
             (set_cache (cache_manager st) (aliases_on_engine (engine st))
                        (clock st (ticks st)))
             (clock st) (S (ticks st))
             (calls st ++ [GetAlias (ITEMS_INDEX_PREFIX +++ "*")])).
Proof. reflexivity. Qed.

End Adapter.

(** ** An item dated before the earliest partition *)

Section EarlyDate.

Context {H : Helpers}.
Variable self : SyncDatetimeIndexInserter.

(** C4 (amended): when the item's date strictly precedes the start date of
    the earliest known partition, target-index resolution creates a partition
    starting at the item's date and renames the alias of that new partition
    so that it ends one day before the previous earliest partition's start;
    the item is routed to the renamed alias, and every other index, the
    previous earliest partition included, keeps its aliases. *)
Theorem early_item_opens_and_closes_new_partition
        (collection_id : string) (product : Item) (check_size : bool)
        (st st1 st2 : State) (product_datetime target_index : string)
        (all_indexes : list string) (start_date end_date day_before : date) :
  _validate_product_datetime product = Ok product_datetime ->
  select_indexes (Some [collection_id])
    [("gte", Some product_datetime); ("lte", Some product_datetime)] st
  = (Ok target_index, st1) ->
  get_collection_indexes collection_id st1 = (Ok all_indexes, st2) ->
  all_indexes <> [] ->
  extract_date product_datetime = Some start_date ->
  extract_first_date_from_index (first_index (sort all_indexes))
  = Some end_date ->
  date_ltb start_date end_date = true ->
  sub_one_day end_date = Some day_before ->
  let new_alias := partition_alias collection_id (date_str start_date) in
  let new_index := ITEMS_INDEX_PREFIX +++ new_alias in
  let closed_alias := new_alias +++ "-" +++ date_str day_before in
  let collection_alias := index_alias_by_collection_id collection_id in
  exists st',
    _get_target_index_internal self collection_id product check_size st
    = (Ok closed_alias, st')
    /\ calls st'
       = calls st2
         ++ [CreateIndex new_index [collection_alias; new_alias]
                         (sends_mappings (search_adapter self));
             UpdateAliases [Remove new_index new_alias;
                            Add new_index closed_alias];
             GetAlias (ITEMS_INDEX_PREFIX +++ "*")]
    /\ (forall index, index <> new_index ->
                      dict_get (engine st') index = dict_get (engine st) index)
    /\ (exists aliases,
          dict_get (engine st') new_index = Some aliases
          /\ In closed_alias aliases /\ ~ In new_alias aliases).
Proof.
  intros Hval Hsel Hget Hne Hstart Hend Hlt Hsub.
  cbv zeta.
  assert (Heng1 : engine st1 = engine st).
  { pose proof (reads_only_select_indexes (Some [collection_id])
                  [("gte", Some product_datetime); ("lte", Some product_datetime)]
                  st) as Hr.
    rewrite Hsel in Hr. apply Hr. }
  assert (Heng2 : engine st2 = engine st).
  { pose proof (reads_only_get_collection_indexes collection_id st1) as Hr.
    rewrite Hget in Hr. simpl in Hr. destruct Hr as [Hr _]. congruence. }
  destruct all_indexes as [| a rest] eqn:Hall; [contradiction |].
  rewrite <- Hall in *.
  set (new_alias := partition_alias collection_id (date_str start_date)).
  set (new_index := ITEMS_INDEX_PREFIX +++ new_alias).
  set (collection_alias := index_alias_by_collection_id collection_id).
  assert (Hex : exists aliases,
             dict_get (created (engine st) new_index
                               [collection_alias; new_alias]) new_index
             = Some aliases).
  { rewrite created_same. destruct (dict_get (engine st) new_index); eauto. }
  destruct Hex as [aliases Haliases].
  eexists. split.
  - unfold _get_target_index_internal, bind, lift.
    rewrite Hval, Hsel, Hget. rewrite Hall. rewrite <- Hall.
    unfold sort_collection_indexes at 1.
    unfold or_raise at 1. rewrite Hstart. unfold ret at 1.
    unfold or_raise at 1. rewrite Hend. unfold ret at 1.
    rewrite Hlt.
    unfold handle_early_date_sync, bind.
    rewrite create_datetime_index_sync_run.
    rewrite Hsub. unfold or_raise at 1, ret at 1.
    erewrite update_index_alias_sync_run
      by (cbn [engine with_cache_manager]; rewrite Heng2; exact Haliases).
    unfold refresh_cache, refresh_aliases. rewrite load_aliases_run.
    unfold ret. reflexivity.
  - cbn [calls engine with_cache_manager]. rewrite Heng2.
    split; [rewrite <- !app_assoc; reflexivity |].
    split.
    + intros index Hindex.
      rewrite renamed_other by exact Hindex.
      apply created_other. exact Hindex.
    + eexists. split; [apply dict_get_set_same |].
      split.
      * unfold add_alias.
        destruct (existsb _ _) eqn:Hexb.
        -- apply existsb_exists in Hexb. destruct Hexb as (x & Hin & Heq).
           apply String.eqb_eq in Heq. subst x. exact Hin.
        -- apply in_or_app. right. left. reflexivity.
      * intros Hin. apply in_add_alias in Hin. destruct Hin as [Heq | Hin].
        -- exact (append_nonempty_neq _ _ _ (eq_sym Heq)).
        -- exact (not_in_remove_alias _ _ Hin).
Qed.

End EarlyDate.

(** ** Counting the size checks *)

Lemma stats_bound_weaken {A} (n n' : nat) (m : M A) :
  stats_bound n m -> n <= n' -> stats_bound n' m.
Proof. intros Hb Hle st. specialize (Hb st). lia. Qed.

Lemma stats_bound_reads_only {A} (m : M A) : reads_only m -> stats_bound 0 m.
Proof. intros Hr st. destruct (Hr st) as (_ & _ & ->). lia. Qed.

Lemma stats_bound_bind {A B} (n1 n2 : nat) (m : M A) (k : A -> M B) :
  stats_bound n1 m -> (forall a, stats_bound n2 (k a)) ->
  stats_bound (n1 + n2) (bind m k).
Proof.
  intros Hm Hk st. unfold bind.
  specialize (Hm st). destruct (m st) as [[a | e] st1]; simpl in *.
  - specialize (Hk a st1). lia.
  - lia.
Qed.

Lemma stats_bound_ret {A} (a : A) : stats_bound 0 (ret a).
Proof. apply stats_bound_reads_only, reads_only_ret. Qed.

Lemma stats_bound_or_raise {A} (o : option A) (e : exn) :
  stats_bound 0 (or_raise o e).
Proof. apply stats_bound_reads_only, reads_only_or_raise. Qed.

Lemma stats_bound_indices_create (index : string) (aliases : list string)
      (b : bool) : stats_bound 0 (indices_create index aliases b).
Proof.
  intros st. unfold indices_create, bind, log_call. simpl.
  destruct (dict_get (engine st) index); simpl;
    rewrite stats_calls_app; simpl; lia.
Qed.

Lemma stats_bound_indices_update_aliases (actions : list AliasAction) :
  stats_bound 0 (indices_update_aliases actions).
Proof.
  intros st. unfold indices_update_aliases, bind, log_call.
  cbn [with_calls engine calls].
  destruct (apply_actions (engine st) actions); simpl;
    rewrite stats_calls_app; simpl; lia.
Qed.

Section StatsBounds.

Context {H : Helpers}.
Variable self : SyncDatetimeIndexInserter.

Ltac bind0 := apply (stats_bound_bind 0 0).
Ltac leaf :=
  first [ apply stats_bound_ret
        | apply stats_bound_or_raise
        | apply stats_bound_reads_only, reads_only_raise
        | apply stats_bound_reads_only, reads_only_refresh_cache
        | apply stats_bound_reads_only, reads_only_select_indexes
        | apply stats_bound_reads_only, reads_only_get_collection_indexes
        | apply stats_bound_reads_only, reads_only_sort_collection_indexes
        | apply stats_bound_indices_create
        | apply stats_bound_indices_update_aliases ].

Lemma stats_bound_create_datetime_index_sync (adapter : SearchEngineType)
      (collection_id start_date : string) :
  stats_bound 0 (create_datetime_index_sync adapter collection_id start_date).
Proof.
  unfold create_datetime_index_sync. bind0; [leaf | intros; leaf].
Qed.

Lemma stats_bound_update_index_alias_sync (end_date old_alias : string) :
  stats_bound 0 (update_index_alias_sync end_date old_alias).
Proof.
  unfold update_index_alias_sync. bind0; [leaf | intros; leaf].
Qed.

Lemma stats_bound_handle_new_collection_sync (collection_id dt : string) :
  stats_bound 0 (handle_new_collection_sync self collection_id dt).
Proof.
  unfold handle_new_collection_sync.
  bind0; [leaf | intros; apply stats_bound_create_datetime_index_sync].
Qed.

Lemma stats_bound_handle_early_date_sync (collection_id : string)
      (start_date end_date : date) :
  stats_bound 0 (handle_early_date_sync self collection_id start_date end_date).
Proof.
  unfold handle_early_date_sync.
  bind0; [apply stats_bound_create_datetime_index_sync | intros].
  bind0; [leaf | intros; apply stats_bound_update_index_alias_sync].
Qed.

Lemma stats_bound_handle_oversized_index_sync (collection_id target dt : string) :
  stats_bound 0 (handle_oversized_index_sync self collection_id target dt).
Proof.
  unfold handle_oversized_index_sync.
  bind0; [leaf | intros]. bind0; [leaf | intros].
  destruct (negb _); [| leaf].
  bind0; [apply stats_bound_update_index_alias_sync | intros].
  bind0; [leaf | intros; apply stats_bound_create_datetime_index_sync].
Qed.

Lemma is_index_oversized_sync_run (index_name : string) (st : State) :
  is_index_oversized_sync self index_name st
  = (Ok (oversized self st index_name),
     with_calls st (calls st ++ [Stats index_name])).
Proof. reflexivity. Qed.

Lemma stats_bound_is_index_oversized_sync (index_name : string) :
  stats_bound 1 (is_index_oversized_sync self index_name).
Proof.
  intros st. rewrite is_index_oversized_sync_run. simpl.
  rewrite stats_calls_app. simpl. lia.
Qed.

(** Target-index resolution checks the size at most once, and not at all
    when [check_size] is off. *)
Lemma stats_bound_get_target_index_internal (collection_id : string)
      (product : Item) (check_size : bool) :
  stats_bound (if check_size then 1 else 0)
              (_get_target_index_internal self collection_id product check_size).
Proof.
  unfold _get_target_index_internal.
  apply (stats_bound_bind 0 _).
  { intros st. unfold lift. simpl. lia. }
  intros dt. apply (stats_bound_bind 0 _); [leaf | intros target].
  apply (stats_bound_bind 0 _); [leaf | intros all].
  destruct all as [| a rest].
  - apply stats_bound_weaken with (n := 0); [| lia].
    bind0; [apply stats_bound_handle_new_collection_sync | intros].
    bind0; [leaf | intros; leaf].
  - apply (stats_bound_bind 0 _); [leaf | intros sorted].
    apply (stats_bound_bind 0 _); [leaf | intros start_date].
    apply (stats_bound_bind 0 _); [leaf | intros end_date].
    destruct (date_ltb start_date end_date).
    + apply stats_bound_weaken with (n := 0); [| lia].
      bind0; [apply stats_bound_handle_early_date_sync | intros].
      bind0; [leaf | intros; leaf].
    + destruct (negb _).
      * apply stats_bound_weaken with (n := 0); [leaf | lia].
      * destruct check_size; [| leaf].
        apply (stats_bound_bind 1 0);
          [apply stats_bound_is_index_oversized_sync | intros oversized].
        destruct oversized; [| leaf].
        bind0; [apply stats_bound_handle_oversized_index_sync | intros].
        bind0; [leaf | intros; leaf].
Qed.

Lemma stats_bound_item_date (item : Item) : stats_bound 0 (item_date item).
Proof.
  unfold item_date.
  destruct (dict_get (properties item) "datetime") as [[s |] |]; leaf.
Qed.

Lemma stats_bound_ensure_indexes_exist (collection_id : string)
      (items : list Item) :
  stats_bound 0 (_ensure_indexes_exist self collection_id items).
Proof.
  unfold _ensure_indexes_exist.
  bind0; [leaf | intros all]. destruct all as [| a rest]; [| leaf].
  bind0; [leaf | intros first]. bind0; [apply stats_bound_item_date | intros].
  bind0; [apply stats_bound_create_datetime_index_sync | intros].
  bind0; [leaf | intros; leaf].
Qed.

Lemma stats_bound_create_new_index_for_split (collection_id latest : string)
      (first_item : Item) :
  stats_bound 0 (_create_new_index_for_split self collection_id latest first_item).
Proof.
  unfold _create_new_index_for_split.
  bind0; [leaf | intros]. bind0; [apply stats_bound_item_date | intros].
  destruct (negb _); [| leaf].
  bind0; [apply stats_bound_update_index_alias_sync | intros].
  bind0; [leaf | intros].
  bind0; [apply stats_bound_create_datetime_index_sync | intros; leaf].
Qed.

Lemma stats_bound_handle_index_splitting (collection_id : string)
      (items : list Item) :
  stats_bound 1 (_handle_index_splitting self collection_id items).
Proof.
  unfold _handle_index_splitting.
  apply (stats_bound_bind 0 1); [leaf | intros all].
  apply (stats_bound_bind 0 1); [leaf | intros sorted].
  apply (stats_bound_bind 0 1); [leaf | intros latest].
  apply (stats_bound_bind 0 1); [leaf | intros first].
  apply (stats_bound_bind 0 1);
    [apply (stats_bound_get_target_index_internal _ _ false) | intros idx].
  destruct (negb _).
  - apply stats_bound_weaken with (n := 0); [leaf | lia].
  - apply (stats_bound_bind 1 0);
      [apply stats_bound_is_index_oversized_sync | intros oversized].
    destruct oversized; [| leaf].
    apply stats_bound_create_new_index_for_split.
Qed.

Lemma stats_bound_bulk_target_index (collection_id : string) (item : Item)
      (split_info : option SplitInfo) :
  stats_bound 0 (bulk_target_index self collection_id item split_info).
Proof.
  unfold bulk_target_index. destruct split_info as [info |].
  - bind0; [apply stats_bound_item_date | intros d].
    destruct (date_ltb _ _); [leaf |].
    apply (stats_bound_get_target_index_internal _ _ false).
  - apply (stats_bound_get_target_index_internal _ _ false).
Qed.

Lemma stats_bound_bulk_loop (collection_id : string) (items : list Item)
      (split_info : option SplitInfo) :
  forall actions,
    stats_bound 0 (bulk_loop self collection_id items split_info actions).
Proof.
  induction items as [| item rest IH]; intros actions; simpl.
  - leaf.
  - bind0; [apply stats_bound_bulk_target_index | intros; apply IH].
Qed.

Lemma stats_bound_prepare_bulk_actions (collection_id : string)
      (items : list Item) :
  stats_bound 1 (prepare_bulk_actions self collection_id items).
Proof.
  unfold prepare_bulk_actions.
  apply (stats_bound_bind 0 1); [apply stats_bound_ensure_indexes_exist | intros].
  apply (stats_bound_bind 1 0); [apply stats_bound_handle_index_splitting | intros].
  apply stats_bound_bulk_loop.
Qed.

End StatsBounds.

(** ** Batches with a split point *)

Lemma bind_ok {A B} (m : M A) (k : A -> M B) (st st' : State) (b : B) :
  bind m k st = (Ok b, st') ->
  exists a st1, m st = (Ok a, st1) /\ k a st1 = (Ok b, st').
Proof.
  unfold bind. destruct (m st) as [[a | e] st1]; intros Hrun.
  - exists a, st1. split; [reflexivity | exact Hrun].
  - discriminate.
Qed.

Section Batch.

Context {H : Helpers}.
Variable self : SyncDatetimeIndexInserter.

Lemma item_date_ok (item : Item) (st st' : State) (d : date) :
  item_date item st = (Ok d, st') -> st' = st /\ item_date_of item = Some d.
Proof.
  unfold item_date, item_date_of.
  destruct (dict_get (properties item) "datetime") as [[s |] |];
    try discriminate.
  destruct (extract_date s); simpl; intros Hrun; inversion Hrun; auto.
Qed.

Lemma item_date_run (item : Item) (st : State) (d : date) :
  item_date_of item = Some d -> item_date item st = (Ok d, st).
Proof.
  unfold item_date, item_date_of.
  destruct (dict_get (properties item) "datetime") as [[s |] |];
    try discriminate.
  intros ->. reflexivity.
Qed.

Lemma bulk_loop_routes (collection_id : string) (info : SplitInfo)
      (items : list Item) :
  forall (actions result : list BulkAction) (st st' : State),
    bulk_loop self collection_id items (Some info) actions st = (Ok result, st') ->
    exists added,
      result = actions ++ added
      /\ routed_from self collection_id info items added st st'.
Proof.
  induction items as [| item rest IH]; intros actions result st st' Hrun;
    simpl in Hrun.
  - inversion Hrun. exists []. rewrite app_nil_r. split; reflexivity.
  - apply bind_ok in Hrun. destruct Hrun as (target & st1 & Htarget & Hrest).
    apply IH in Hrest. destruct Hrest as (added & -> & Hall).
    eexists (_ :: added). rewrite <- app_assoc. split; [reflexivity |].
    cbn [routed_from _source _id _index].
    split; [reflexivity |]. split; [reflexivity |].
    unfold bulk_target_index in Htarget.
    apply bind_ok in Htarget. destruct Htarget as (d & st0 & Hdate & Hroute).
    apply item_date_ok in Hdate. destruct Hdate as [-> Hd].
    exists d. split; [exact Hd |].
    destruct (date_ltb (split_date info) d).
    + inversion Hroute. subst. split; [reflexivity | exact Hall].
    + exists st1. split; [exact Hroute | exact Hall].
Qed.

(** The relation leaves no choice: from one state, the items have one list
    of actions and one final state. *)
Lemma routed_from_determines (collection_id : string) (info : SplitInfo)
      (items : list Item) :
  forall (actions actions' : list BulkAction) (st st' st'' : State),
    routed_from self collection_id info items actions st st' ->
    routed_from self collection_id info items actions' st st'' ->
    actions' = actions /\ st'' = st'.
Proof.
  induction items as [| item rest IH];
    intros [| a l] [| a' l'] st st' st'' Hone Htwo;
    cbn [routed_from] in Hone, Htwo; try contradiction.
  - split; [reflexivity | congruence].
  - destruct Hone as (Hsrc & Hid & d & Hd & Hone).
    destruct Htwo as (Hsrc' & Hid' & d' & Hd' & Htwo).
    rewrite Hd in Hd'. injection Hd' as <-.
    assert (Hrest : _index a' = _index a /\ l' = l /\ st'' = st').
    { destruct (date_ltb (split_date info) d).
      - destruct Hone as [Hidx Hone]. destruct Htwo as [Hidx' Htwo].
        destruct (IH _ _ _ _ _ Hone Htwo) as [-> ->].
        repeat split. congruence.
      - destruct Hone as (st1 & Hrun & Hone).
        destruct Htwo as (st1' & Hrun' & Htwo).
        rewrite Hrun in Hrun'. injection Hrun' as Hidx <-.
        destruct (IH _ _ _ _ _ Hone Htwo) as [-> ->].
        repeat split. congruence. }
    destruct Hrest as (Hidx & -> & ->).
    split; [| reflexivity].
    destruct a as [i1 k1 s1], a' as [i2 k2 s2]. cbn in *. congruence.
Qed.

(** C5 (amended): a batch checks the size of a partition at most once,
    whatever its outcome; and when a split point exists, every item dated
    strictly after the split date resolves to the new partition and leaves
    the state as it is, while every other item is resolved by the ordinary
    target-index resolution with the size check switched off, run in the
    state the batch has reached at that item; the batch goes on from the
    state that resolution leaves and ends in the state of the last one.  The
    actions returned are the only ones that stand so to the items. *)
Theorem batch_with_split_point (collection_id : string) (items : list Item)
        (st : State) :
  stats_calls (calls (snd (prepare_bulk_actions self collection_id items st)))
  <= stats_calls (calls st) + 1
  /\ forall (st1 st2 st3 : State) (info : SplitInfo)
            (actions : list BulkAction),
       _ensure_indexes_exist self collection_id items st = (Ok tt, st1) ->
       _handle_index_splitting self collection_id items st1
       = (Ok (Some info), st2) ->
       _create_bulk_actions self collection_id items (Some info) st2
       = (Ok actions, st3) ->
       prepare_bulk_actions self collection_id items st = (Ok actions, st3)
       /\ stats_calls (calls st3) <= stats_calls (calls st2)
       /\ routed_from self collection_id info items actions st2 st3
       /\ (forall actions' st',
             routed_from self collection_id info items actions' st2 st' ->
             actions' = actions /\ st' = st3).
Proof.
  split; [apply stats_bound_prepare_bulk_actions |].
  intros st1 st2 st3 info actions Hensure Hsplit Hbulk.
  assert (Hrouted : routed_from self collection_id info items actions st2 st3).
  { unfold _create_bulk_actions in Hbulk.
    apply bulk_loop_routes in Hbulk. destruct Hbulk as (added & -> & Hall).
    exact Hall. }
  split; [| split; [| split; [exact Hrouted |]]].
  - unfold prepare_bulk_actions, bind. rewrite Hensure, Hsplit. exact Hbulk.
  - pose proof (stats_bound_bulk_loop self collection_id items (Some info) []
                  st2) as Hle.
    unfold _create_bulk_actions in Hbulk. rewrite Hbulk in Hle. simpl in Hle.
    lia.
  - intros actions' st' Hother.
    exact (routed_from_determines collection_id info items actions actions'
             st2 st3 st' Hrouted Hother).
Qed.

End Batch.

(** ** The split point of a batch *)

Section SplitPoint.

Context {H : Helpers}.
Variable self : SyncDatetimeIndexInserter.

(** What [_create_new_index_for_split] does, case by case. *)
Lemma create_new_index_for_split_same_day
      (collection_id latest_index : string) (first_item : Item) (st : State)
      (start first_date : date) :
  extract_first_date_from_index latest_index = Some start ->
  item_date_of first_item = Some first_date ->
  date_eqb first_date start = true ->
  _create_new_index_for_split self collection_id latest_index first_item st
  = (Ok None, st).
Proof.
  intros Hstart Hfirst Hsame.
  unfold _create_new_index_for_split, bind.
  rewrite Hstart. unfold or_raise at 1, ret at 1.
  rewrite (item_date_run first_item st first_date Hfirst).
  rewrite Hsame. reflexivity.
Qed.

Lemma create_new_index_for_split_other_day
      (collection_id latest_index : string) (first_item : Item) (st : State)
      (start first_date next : date) (aliases : list string) :
  extract_first_date_from_index latest_index = Some start ->
  item_date_of first_item = Some first_date ->
  date_eqb first_date start = false ->
  dict_get (engine st) (ITEMS_INDEX_PREFIX +++ latest_index) = Some aliases ->
  add_one_day start = Some next ->
  let old_index := ITEMS_INDEX_PREFIX +++ latest_index in
  let closed_alias := latest_index +++ "-" +++ date_str start in
  let new_alias := partition_alias collection_id (date_str next) in
  let new_index := ITEMS_INDEX_PREFIX +++ new_alias in
  let collection_alias := index_alias_by_collection_id collection_id in
  _create_new_index_for_split self collection_id latest_index first_item st
  = (Ok (Some (mkSplit start new_alias)),
     mkState
       (created (renamed (engine st) old_index latest_index closed_alias aliases)
                new_index [collection_alias; new_alias])
       (size_in_bytes st) (cache_manager st) (clock st) (ticks st)
       (calls st
        ++ [UpdateAliases [Remove old_index latest_index;
                           Add old_index closed_alias];
            CreateIndex new_index [collection_alias; new_alias]
                        (sends_mappings (search_adapter self))])).
Proof.
  intros Hstart Hfirst Hother Hindex Hnext. cbv zeta.
  unfold _create_new_index_for_split, bind.
  rewrite Hstart. unfold or_raise at 1, ret at 1.
  rewrite (item_date_run first_item st first_date Hfirst).
  rewrite Hother. cbn [negb].
  rewrite (update_index_alias_sync_run _ _ aliases st Hindex).
  rewrite Hnext. unfold or_raise at 1, ret at 1.
  rewrite create_datetime_index_sync_run. cbn [engine calls size_in_bytes
    cache_manager clock ticks]. unfold ret.
  rewrite <- app_assoc. reflexivity.
Qed.

(** [_handle_index_splitting] up to the size check. *)
Lemma handle_index_splitting_run
      (collection_id : string) (first_item : Item) (rest : list Item)
      (st st1 st2 : State) (all_indexes : list string) :
  get_collection_indexes collection_id st = (Ok all_indexes, st1) ->
  all_indexes <> [] ->
  _get_target_index_internal self collection_id first_item false
    (snd (sort_collection_indexes collection_id all_indexes st1))
  = (Ok (last_index (sort all_indexes)), st2) ->
  _handle_index_splitting self collection_id (first_item :: rest) st
  = if oversized self st2 (last_index (sort all_indexes))
    then _create_new_index_for_split self collection_id
           (last_index (sort all_indexes)) first_item
           (with_calls st2 (calls st2 ++ [Stats (last_index (sort all_indexes))]))
    else (Ok None,
          with_calls st2 (calls st2 ++ [Stats (last_index (sort all_indexes))])).
Proof.
  intros Hget Hne Hresolve.
  unfold _handle_index_splitting, bind. rewrite Hget.
  destruct (sort_collection_indexes collection_id all_indexes st1)
    as [r sts] eqn:Hsort.
  assert (Hr : r = Ok (sort all_indexes)).
  { unfold sort_collection_indexes in Hsort. inversion Hsort. reflexivity. }
  subst r. simpl in Hresolve.
  assert (Hsorted : sort all_indexes <> []).
  { destruct all_indexes as [| a l]; [contradiction |]. simpl.
    destruct (sort l); simpl; [discriminate |].
    destruct (String.leb a s); discriminate. }
  destruct (sort all_indexes) as [| a l] eqn:Hs; [contradiction |].
  rewrite <- Hs in *.
  unfold or_raise at 1, ret at 1.
  cbn [hd_error or_raise]. unfold ret at 1.
  rewrite Hresolve. rewrite String.eqb_refl. cbn [negb].
  rewrite is_index_oversized_sync_run.
  destruct (oversized self st2 (last_index (sort all_indexes))); reflexivity.
Qed.

(** C2 (amended): in a batch whose first item resolves, without size check,
    to the latest known partition, and that partition is oversized: when the
    first item's date differs from the partition's start date, the batch
    checks the size once and computes exactly one rollover, renaming the
    alias of the old partition to close it at a date and creating one new
    partition that starts the day after that date, the date being the
    remembered split date; when the first item's date is the partition's
    start date, no rollover is computed. *)
Theorem batch_split_point
        (collection_id : string) (first_item : Item) (rest : list Item)
        (st st1 st2 : State) (all_indexes aliases : list string)
        (start first_date : date) :
  let latest_index := last_index (sort all_indexes) in
  let old_index := ITEMS_INDEX_PREFIX +++ latest_index in
  get_collection_indexes collection_id st = (Ok all_indexes, st1) ->
  all_indexes <> [] ->
  _get_target_index_internal self collection_id first_item false
    (snd (sort_collection_indexes collection_id all_indexes st1))
  = (Ok latest_index, st2) ->
  oversized self st2 latest_index = true ->
  extract_first_date_from_index latest_index = Some start ->
  item_date_of first_item = Some first_date ->
  dict_get (engine st2) old_index = Some aliases ->
  add_one_day start <> None ->
  (date_eqb first_date start = false ->
   exists (closing opening : date) (info : SplitInfo) (st' : State),
     _handle_index_splitting self collection_id (first_item :: rest) st
     = (Ok (Some info), st')
     /\ add_one_day closing = Some opening
     /\ split_date info = closing
     /\ new_index info = partition_alias collection_id (date_str opening)
     /\ calls st'
        = calls st2
          ++ [Stats latest_index;
              UpdateAliases
                [Remove old_index latest_index;
                 Add old_index (latest_index +++ "-" +++ date_str closing)];
              CreateIndex (ITEMS_INDEX_PREFIX +++ new_index info)
                [index_alias_by_collection_id collection_id; new_index info]
                (sends_mappings (search_adapter self))])
  /\ (date_eqb first_date start = true ->
      exists st' : State,
        _handle_index_splitting self collection_id (first_item :: rest) st
        = (Ok None, st')
        /\ engine st' = engine st2
        /\ calls st' = calls st2 ++ [Stats latest_index]).
Proof.
  cbv zeta. intros Hget Hne Hresolve Hover Hstart Hfirst Hindex Hnext.
  pose proof (handle_index_splitting_run collection_id first_item rest
                st st1 st2 all_indexes Hget Hne Hresolve) as Hrun.
  rewrite Hover in Hrun.
  split; intros Hday.
  - destruct (add_one_day start) as [next |] eqn:Hn; [| contradiction].
    exists start, next. eexists. eexists.
    split.
    + rewrite Hrun.
      apply (create_new_index_for_split_other_day collection_id _ first_item _
               start first_date next aliases Hstart Hfirst Hday);
        [exact Hindex | exact Hn].
    + cbn [split_date new_index calls with_calls].
      rewrite <- app_assoc. auto.
  - eexists. split.
    + rewrite Hrun.
      apply (create_new_index_for_split_same_day collection_id _ first_item _
               start first_date Hstart Hfirst Hday).
    + split; reflexivity.
Qed.

End SplitPoint.

(** ** The code on concrete scenes *)

(** C1 (counterexample): the only partition of ["c1"] starts at 2024-01-01 and
    is oversized; the batch holds an item of 2024-01-01 and one of
    2024-01-02.  It is not the case that the second item is routed to
    [c1_2024-01-02] and that an alias is renamed. *)
Lemma c1_example_counterexample :
  let run :=
    prepare_bulk_actions (H := SpecHelpers.helpers) Demo.inserter "c1"
      [Demo.item "a" "2024-01-01T00:00:00Z"; Demo.item "b" "2024-01-02T00:00:00Z"]
      (Demo.state (Demo.one_partition "2024-01-01")) in
  ~ (Demo.index_names (fst run) = Ok ["c1_2024-01-01"; "c1_2024-01-02"]
     /\ exists actions, In (UpdateAliases actions) (calls (snd run))).
Proof.
  vm_compute. intros [Hnames _]. discriminate Hnames.
Qed.

(** C1 (amended): on that scene the batch performs no rollover: both items
    are routed to [c1_2024-01-01], the size is checked once, and the engine
    is left as it was, no alias renamed and no partition created. *)
Theorem c1_example_routes_both_items_to_the_old_partition :
  let run :=
    prepare_bulk_actions (H := SpecHelpers.helpers) Demo.inserter "c1"
      [Demo.item "a" "2024-01-01T00:00:00Z"; Demo.item "b" "2024-01-02T00:00:00Z"]
      (Demo.state (Demo.one_partition "2024-01-01")) in
  fst run
  = Ok [mkAction "c1_2024-01-01" "a|c1" (Demo.item "a" "2024-01-01T00:00:00Z");
        mkAction "c1_2024-01-01" "b|c1" (Demo.item "b" "2024-01-02T00:00:00Z")]
  /\ engine (snd run) = Demo.one_partition "2024-01-01"
  /\ calls (snd run) = [GetAlias "items_*"; Stats "c1_2024-01-01"].
Proof.
  vm_compute. repeat split.
Qed.

(** C2 (counterexample): the only partition of ["c1"] starts at 2024-03-01 and
    is oversized, and the first item of the batch is dated 2024-03-01: it
    resolves to that partition, yet no rollover is computed, no split date is
    remembered and the engine receives neither a rename nor a creation. *)
Lemma c2_same_day_counterexample :
  let run :=
    _handle_index_splitting (H := SpecHelpers.helpers) Demo.inserter "c1"
      [Demo.item "a" "2024-03-01T12:00:00Z"]
      (Demo.state (Demo.one_partition "2024-03-01")) in
  fst (_get_target_index_internal (H := SpecHelpers.helpers) Demo.inserter "c1"
         (Demo.item "a" "2024-03-01T12:00:00Z") false
         (Demo.state (Demo.one_partition "2024-03-01")))
  = Ok "c1_2024-03-01"
  /\ oversized Demo.inserter (Demo.state (Demo.one_partition "2024-03-01"))
               "c1_2024-03-01" = true
  /\ fst run = Ok None
  /\ engine (snd run) = Demo.one_partition "2024-03-01"
  /\ calls (snd run) = [GetAlias "items_*"; Stats "c1_2024-03-01"].
Proof.
  vm_compute. repeat split.
Qed.

(** C3 (counterexample): the open partition of ["c1"] starts at 2024-01-01 and
    is oversized; a single item of 2024-01-05 routes to it and triggers the
    rollover.  The item that triggered it is not routed to the old partition,
    under its old or its closed alias, but to the new one. *)
Lemma c3_trigger_counterexample :
  let run :=
    get_target_index (H := SpecHelpers.helpers) Demo.inserter "c1"
      (Demo.item "a" "2024-01-05T00:00:00Z")
      (Demo.state (Demo.one_partition "2024-01-01")) in
  fst run = Ok "c1_2024-01-06"
  /\ fst run <> Ok "c1_2024-01-01"
  /\ fst run <> Ok "c1_2024-01-01-2024-01-05"
  /\ engine (snd run)
     = [("items_c1_2024-01-01", ["items_c1"; "c1_2024-01-01-2024-01-05"]);
        ("items_c1_2024-01-06", ["items_c1"; "c1_2024-01-06"])].
Proof.
  vm_compute. repeat split; discriminate.
Qed.

(** C4 (counterexample): the earliest partition of ["c1"] starts at
    2024-01-10 and the item is dated 2024-01-05.  The alias of the previous
    earliest partition gains no end date: the index keeps its aliases, and the
    end date 2024-01-09 goes into the alias of the new partition. *)
Lemma c4_previous_alias_counterexample :
  let run :=
    get_target_index (H := SpecHelpers.helpers) Demo.inserter "c1"
      (Demo.item "a" "2024-01-05T00:00:00Z")
      (Demo.state (Demo.one_partition "2024-01-10")) in
  fst run = Ok "c1_2024-01-05-2024-01-09"
  /\ dict_get (engine (snd run)) "items_c1_2024-01-10"
     = Some ["items_c1"; "c1_2024-01-10"]
  /\ ~ (exists aliases,
          dict_get (engine (snd run)) "items_c1_2024-01-10" = Some aliases
          /\ In "c1_2024-01-10-2024-01-09" aliases)
  /\ dict_get (engine (snd run)) "items_c1_2024-01-05"
     = Some ["items_c1"; "c1_2024-01-05-2024-01-09"].
Proof.
  vm_compute. repeat split.
  intros (aliases & Hget & Hin). inversion Hget. subst aliases.
  destruct Hin as [Heq | [Heq | []]]; discriminate.
Qed.

(** C5 (counterexample): the only partition of ["c1"] starts at 2024-01-05 and
    is oversized; the batch holds an item of 2024-01-07 and then one of
    2024-01-03.  The split date is 2024-01-05, and the item dated before it
    does not resolve to the old partition, under its old or its closed alias:
    it opens a partition of its own. *)
Lemma c5_item_before_split_counterexample :
  let st := Demo.state (Demo.one_partition "2024-01-05") in
  let items := [Demo.item "a" "2024-01-07T00:00:00Z";
                Demo.item "b" "2024-01-03T00:00:00Z"] in
  let split :=
    _handle_index_splitting (H := SpecHelpers.helpers) Demo.inserter "c1" items
      (snd (_ensure_indexes_exist (H := SpecHelpers.helpers) Demo.inserter "c1"
              items st)) in
  let run :=
    prepare_bulk_actions (H := SpecHelpers.helpers) Demo.inserter "c1" items st in
  fst split = Ok (Some (mkSplit (mkdate 2024 1 5) "c1_2024-01-06"))
  /\ Demo.index_names (fst run)
     = Ok ["c1_2024-01-06"; "c1_2024-01-03-2024-01-04"]
  /\ ~ (exists first second,
          Demo.index_names (fst run) = Ok [first; second]
          /\ (second = "c1_2024-01-05" \/ second = "c1_2024-01-05-2024-01-05")).
Proof.
  vm_compute. repeat split.
  intros (first & second & Hnames & Hold).
  inversion Hnames. subst. destruct Hold; discriminate.
Qed.

(** C3: the open partition of ["c1"] starts at 2024-01-01 and is reported
    at 30 GB; a single item of 2024-01-05 triggers the rollover.  The code
    closes the alias of the old partition at 2024-01-05 and opens a partition
    from 2024-01-06, and it returns the new partition for the item that
    triggered the rollover, a partition that starts the day after the item's
    date.  Written once more, the very same item is routed to the old
    partition under its closed alias, without any change to the engine, and
    that closed alias is also what the selector answers for that day. *)
Theorem c3_trigger_item_is_routed_past_its_day :
  let item := Demo.item "a" "2024-01-05T00:00:00Z" in
  let day := [("gte", Some "2024-01-05T00:00:00Z");
              ("lte", Some "2024-01-05T00:00:00Z")] in
  let first :=
    get_target_index (H := SpecHelpers.helpers) Demo.inserter "c1" item
      (Demo.state (Demo.one_partition "2024-01-01")) in
  let again :=
    get_target_index (H := SpecHelpers.helpers) Demo.inserter "c1" item
      (snd first) in
  fst first = Ok "c1_2024-01-06"
  /\ engine (snd first)
     = [("items_c1_2024-01-01", ["items_c1"; "c1_2024-01-01-2024-01-05"]);
        ("items_c1_2024-01-06", ["items_c1"; "c1_2024-01-06"])]
  /\ fst again = Ok "c1_2024-01-01-2024-01-05"
  /\ engine (snd again) = engine (snd first)
  /\ fst (select_indexes (H := SpecHelpers.helpers) (Some ["c1"]) day
            (snd first))
     = Ok "c1_2024-01-01-2024-01-05".
Proof.
  vm_compute. repeat split.
Qed.

(** C8: an item of ["c1"] whose properties hold a title and no ["datetime"]
    key at all, on an engine with one partition.  Resolving its target
    partition, alone or as a batch, raises [KeyError] at the subscript and
    not the HTTP 400 exception of the guard; no engine call is issued for the
    single item and the engine's table is as before. *)
Theorem c8_item_without_datetime_key_raises_key_error :
  let item := mkItem "a" "c1" [("title", Some "a scene")] in
  let st := Demo.state (Demo.one_partition "2024-01-01") in
  let single :=
    get_target_index (H := SpecHelpers.helpers) Demo.inserter "c1" item st in
  let batch :=
    prepare_bulk_actions (H := SpecHelpers.helpers) Demo.inserter "c1" [item]
      st in
  _validate_product_datetime item = Raise (KeyError "datetime")
  /\ fst single = Raise (KeyError "datetime")
  /\ fst single <> Raise bad_request
  /\ calls (snd single) = []
  /\ engine (snd single) = engine st
  /\ fst batch = Raise (KeyError "datetime")
  /\ engine (snd batch) = engine st.
Proof.
  vm_compute. repeat split. discriminate.
Qed.

(** A computation is the pair of its outcome and its final state. *)
Lemma run_eq {A} (m : result A * State) (r : result A) :
  fst m = r -> m = (r, snd m).
Proof. intros <-. destruct m; reflexivity. Qed.

Ltac run :=
  match goal with
  | |- ?m = (?r, _) => refine (run_eq m r _); vm_compute; reflexivity
  end.

(** The earliest partition of ["c1"] starts at 2024-01-10, the item is dated
    2024-01-05. *)
Lemma early_item_opens_and_closes_new_partition_witness :
  exists st',
    _get_target_index_internal (H := SpecHelpers.helpers) Demo.inserter "c1"
      (Demo.item "a" "2024-01-05T00:00:00Z") true
      (Demo.state (Demo.one_partition "2024-01-10"))
    = (Ok "c1_2024-01-05-2024-01-09", st').
Proof.
  pose (st := Demo.state (Demo.one_partition "2024-01-10")).
  pose (range := [("gte", Some "2024-01-05T00:00:00Z");
                  ("lte", Some "2024-01-05T00:00:00Z")]).
  pose (st1 := snd (select_indexes (H := SpecHelpers.helpers) (Some ["c1"])
                      range st)).
  pose (st2 := snd (get_collection_indexes (H := SpecHelpers.helpers) "c1" st1)).
  destruct (early_item_opens_and_closes_new_partition
              (H := SpecHelpers.helpers) Demo.inserter "c1"
              (Demo.item "a" "2024-01-05T00:00:00Z") true st st1 st2
              "2024-01-05T00:00:00Z" "" ["c1_2024-01-10"]
              (mkdate 2024 1 5) (mkdate 2024 1 10) (mkdate 2024 1 9))
    as (st' & Hrun & _).
  - reflexivity.
  - run.
  - run.
  - discriminate.
  - reflexivity.
  - reflexivity.
  - reflexivity.
  - reflexivity.
  - exists st'. exact Hrun.
Defined.

(** The only partition of ["c1"] starts at 2024-01-01 and is oversized, the
    first item of the batch is dated 2024-01-05. *)
Lemma batch_split_point_witness :
  exists info st',
    _handle_index_splitting (H := SpecHelpers.helpers) Demo.inserter "c1"
      [Demo.item "a" "2024-01-05T00:00:00Z"]
      (Demo.state (Demo.one_partition "2024-01-01"))
    = (Ok (Some info), st').
Proof.
  pose (st := Demo.state (Demo.one_partition "2024-01-01")).
  pose (st1 := snd (get_collection_indexes (H := SpecHelpers.helpers) "c1" st)).
  pose (st2 := snd (_get_target_index_internal (H := SpecHelpers.helpers)
                      Demo.inserter "c1" (Demo.item "a" "2024-01-05T00:00:00Z")
                      false
                      (snd (sort_collection_indexes (H := SpecHelpers.helpers)
                              "c1" ["c1_2024-01-01"] st1)))).
  destruct (batch_split_point (H := SpecHelpers.helpers) Demo.inserter "c1"
              (Demo.item "a" "2024-01-05T00:00:00Z") [] st st1 st2
              ["c1_2024-01-01"] ["items_c1"; "c1_2024-01-01"]
              (mkdate 2024 1 1) (mkdate 2024 1 5)) as [Hsplit _].
  - run.
  - discriminate.
  - run.
  - vm_compute. reflexivity.
  - reflexivity.
  - reflexivity.
  - vm_compute. reflexivity.
  - discriminate.
  - destruct Hsplit as (closing & opening & info & st' & Hrun & _).
    + reflexivity.
    + exists info, st'. exact Hrun.
Defined.

(** The only partition of ["c1"] starts at 2024-01-05 and is oversized; the
    batch holds an item of 2024-01-07 and then one of 2024-01-03, which is
    dated before the split date. *)
Lemma batch_with_split_point_witness :
  let items := [Demo.item "a" "2024-01-07T00:00:00Z";
                Demo.item "b" "2024-01-03T00:00:00Z"] in
  let actions :=
    [mkAction "c1_2024-01-06" "a|c1" (Demo.item "a" "2024-01-07T00:00:00Z");
     mkAction "c1_2024-01-03-2024-01-04" "b|c1"
              (Demo.item "b" "2024-01-03T00:00:00Z")] in
  let info := mkSplit (mkdate 2024 1 5) "c1_2024-01-06" in
  let st := Demo.state (Demo.one_partition "2024-01-05") in
  let st1 := snd (_ensure_indexes_exist (H := SpecHelpers.helpers)
                    Demo.inserter "c1" items st) in
  let st2 := snd (_handle_index_splitting (H := SpecHelpers.helpers)
                    Demo.inserter "c1" items st1) in
  let st3 := snd (_create_bulk_actions (H := SpecHelpers.helpers)
                    Demo.inserter "c1" items (Some info) st2) in
  fst (prepare_bulk_actions (H := SpecHelpers.helpers) Demo.inserter "c1"
         items st)
  = Ok actions
  /\ routed_from (H := SpecHelpers.helpers) Demo.inserter "c1" info items
                 actions st2 st3.
Proof.
  intros items actions info st st1 st2 st3.
  destruct (batch_with_split_point (H := SpecHelpers.helpers) Demo.inserter
              "c1" items st) as [_ Hbatch].
  destruct (Hbatch st1 st2 st3 info actions) as (Hrun & _ & Hrouted & _).
  - run.
  - run.
  - run.
  - split; [| exact Hrouted].
    rewrite Hrun. reflexivity.
Defined.

(** The only partition of ["c1"] starts at 2024-01-10; the range asked for
    lies in May 2023. *)
Lemma select_indexes_without_match_witness :
  fst (select_indexes (H := SpecHelpers.helpers) (Some ["c1"])
         [("gte", Some "2023-05-01T00:00:00Z");
          ("lte", Some "2023-05-31T00:00:00Z")]
         (Demo.state (Demo.one_partition "2024-01-10")))
  = Ok "".
Proof.
  apply (select_indexes_without_match (H := SpecHelpers.helpers) ["c1"]
           [("gte", Some "2023-05-01T00:00:00Z");
            ("lte", Some "2023-05-31T00:00:00Z")]
           (Demo.state (Demo.one_partition "2024-01-10"))).
  - discriminate.
  - discriminate.
  - split.
    + intros m Hm. discriminate Hm.
    + intros c [<- | []]. vm_compute. reflexivity.
Defined.

(** ** Target-index resolution on a coherent cache *)

Lemma dict_set_get_same {V} (d : dict V) (k : string) (v : V) :
  dict_get d k = Some v -> dict_set d k v = d.
Proof.
  induction d as [| [k' v'] d IH]; simpl; [discriminate |].
  destruct (String.eqb k' k); intros Hg.
  - injection Hg as ->. reflexivity.
  - rewrite (IH Hg). reflexivity.
Qed.

Section Coherent.

Context {H : Helpers}.
Variable self : SyncDatetimeIndexInserter.

Lemma get_collection_indexes_coherent (collection_id : string) (st : State) :
  coherent st ->
  exists st',
    get_collection_indexes collection_id st
    = (Ok (collection_indexes_in (aliases_on_engine (engine st)) collection_id),
       st')
    /\ engine st' = engine st
    /\ size_in_bytes st' = size_in_bytes st
    /\ _cache (cache_manager st') = Some (aliases_on_engine (engine st)).
Proof.
  intros Hco.
  destruct (get_collection_indexes_spec collection_id st)
    as (m & st' & Hrun & Heng & Hsize & Hcache & Hfrom & _).
  assert (Hm : m = aliases_on_engine (engine st)).
  { destruct Hfrom as [Hold | Hload]; [apply Hco; exact Hold | exact Hload]. }
  subst m. exists st'. auto.
Qed.

Lemma loaded_coherent (st : State) :
  _cache (cache_manager st) = Some (aliases_on_engine (engine st)) ->
  coherent st.
Proof. intros Hc m Hm. congruence. Qed.

Lemma select_one_coherent (collection_id : string)
      (datetime_search : dict (option string)) (filtered : list string)
      (st : State) :
  coherent st ->
  filter_indexes_by_datetime
    (collection_indexes_in (aliases_on_engine (engine st)) collection_id)
    (search_get datetime_search "gte") (search_get datetime_search "lte")
  = Some filtered ->
  exists st',
    select_indexes (Some [collection_id]) datetime_search st
    = (Ok (selected_name filtered), st')
    /\ engine st' = engine st
    /\ size_in_bytes st' = size_in_bytes st
    /\ _cache (cache_manager st') = Some (aliases_on_engine (engine st)).
Proof.
  intros Hco Hfilter.
  destruct (get_collection_indexes_coherent collection_id st Hco)
    as (st' & Hrun & Hrest).
  exists st'. split; [| exact Hrest].
  unfold select_indexes, select_loop, bind. rewrite Hrun, Hfilter.
  destruct filtered; reflexivity.
Qed.

(** Resolution up to the comparison with the latest partition, for an item
    that is not dated before the earliest partition: the reads leave a state
    [st2] with the same engine, and the rest runs from there. *)
Lemma resolve_prefix
      (collection_id : string) (product : Item) (check_size : bool)
      (st : State) (product_datetime : string) (filtered : list string)
      (item_day earliest : date) :
  let all_indexes :=
    collection_indexes_in (aliases_on_engine (engine st)) collection_id in
  let target_index := selected_name filtered in
  coherent st ->
  all_indexes <> [] ->
  sort all_indexes = all_indexes ->
  _validate_product_datetime product = Ok product_datetime ->
  filter_indexes_by_datetime all_indexes (Some product_datetime)
                             (Some product_datetime) = Some filtered ->
  extract_date product_datetime = Some item_day ->
  extract_first_date_from_index (first_index all_indexes) = Some earliest ->
  date_ltb item_day earliest = false ->
  exists st2,
    engine st2 = engine st
    /\ size_in_bytes st2 = size_in_bytes st
    /\ _cache (cache_manager st2) = Some (aliases_on_engine (engine st))
    /\ _get_target_index_internal self collection_id product check_size st
       = if negb (String.eqb target_index (last_index all_indexes))
         then (Ok target_index, st2)
         else if check_size
              then bind (is_index_oversized_sync self target_index)
                     (fun oversized =>
                        if oversized
                        then
                          bind (handle_oversized_index_sync self collection_id
                                  target_index product_datetime)
                            (fun target_index =>
                               bind refresh_cache (fun _ => ret target_index))
                        else ret target_index) st2
              else (Ok target_index, st2).
Proof.
  cbv zeta. intros Hco Hne Hsorted Hval Hfilter Hday Hearliest Hnot_early.
  set (m := aliases_on_engine (engine st)) in *.
  set (all_indexes := collection_indexes_in m collection_id) in *.
  destruct (select_one_coherent collection_id
              [("gte", Some product_datetime); ("lte", Some product_datetime)]
              filtered st Hco Hfilter)
    as (st1 & Hsel & Heng1 & Hsize1 & Hcache1).
  assert (Hco1 : coherent st1).
  { apply loaded_coherent. rewrite Heng1. exact Hcache1. }
  destruct (get_collection_indexes_coherent collection_id st1 Hco1)
    as (st2 & Hget & Heng2 & Hsize2 & Hcache2).
  rewrite Heng1 in Hget, Hcache2. fold m in Hget, Hcache2.
  fold all_indexes in Hget.
  assert (Hentry : dict_get m (index_alias_by_collection_id collection_id)
                   = Some all_indexes).
  { unfold all_indexes, collection_indexes_in in *.
    destruct (dict_get m _); [reflexivity | contradiction]. }
  assert (Hsort_run :
            sort_collection_indexes collection_id all_indexes st2
            = (Ok all_indexes, st2)).
  { unfold sort_collection_indexes. rewrite Hcache2, Hentry, Hsorted.
    rewrite (dict_set_get_same _ _ _ Hentry).
    rewrite <- Hcache2. destruct st2 as [e s [c t l] k n cs]. reflexivity. }
  exists st2.
  split; [congruence |]. split; [congruence |]. split; [exact Hcache2 |].
  unfold _get_target_index_internal, bind, lift.
  rewrite Hval, Hsel, Hget.
  destruct all_indexes as [| a rest] eqn:Hall; [contradiction |].
  rewrite <- Hall in *.
  rewrite Hsort_run.
  unfold or_raise at 1. rewrite Hday. unfold ret at 1.
  unfold or_raise at 1. rewrite Hearliest. unfold ret at 1.
  rewrite Hnot_early.
  destruct (negb _); [reflexivity |].
  destruct check_size; reflexivity.
Qed.

(** Resolution that ends without a rollover: the selected name is not the
    latest partition, or the size is not checked, or the partition is within
    budget.  The result is the selected name and the engine is untouched. *)
Lemma resolve_without_rollover
      (collection_id : string) (product : Item) (check_size : bool)
      (st : State) (product_datetime : string) (filtered : list string)
      (item_day earliest : date) :
  let all_indexes :=
    collection_indexes_in (aliases_on_engine (engine st)) collection_id in
  coherent st ->
  all_indexes <> [] ->
  sort all_indexes = all_indexes ->
  _validate_product_datetime product = Ok product_datetime ->
  filter_indexes_by_datetime all_indexes (Some product_datetime)
                             (Some product_datetime) = Some filtered ->
  extract_date product_datetime = Some item_day ->
  extract_first_date_from_index (first_index all_indexes) = Some earliest ->
  date_ltb item_day earliest = false ->
  selected_name filtered <> last_index all_indexes
  \/ check_size = false
  \/ oversized self st (selected_name filtered) = false ->
  exists st',
    _get_target_index_internal self collection_id product check_size st
    = (Ok (selected_name filtered), st')
    /\ engine st' = engine st
    /\ size_in_bytes st' = size_in_bytes st
    /\ coherent st'.
Proof.
  cbv zeta. intros Hco Hne Hsorted Hval Hfilter Hday Hearliest Hnot_early Hstay.
  destruct (resolve_prefix collection_id product check_size st product_datetime
              filtered item_day earliest Hco Hne Hsorted Hval Hfilter Hday
              Hearliest Hnot_early)
    as (st2 & Heng2 & Hsize2 & Hcache2 & Hrun).
  assert (Hco2 : coherent st2).
  { apply loaded_coherent. rewrite Heng2. exact Hcache2. }
  rewrite Hrun.
  destruct (String.eqb (selected_name filtered) _) eqn:Hlast; cbn [negb].
  - destruct check_size.
    + unfold bind. rewrite is_index_oversized_sync_run.
      assert (Hover : oversized self st2 (selected_name filtered) = false).
      { destruct Hstay as [Hneq | [Hcs | Hover]].
        - apply String.eqb_eq in Hlast. contradiction.
        - discriminate.
        - unfold oversized in *. rewrite Hsize2. exact Hover. }
      rewrite Hover. eexists. split; [reflexivity |].
      cbn [engine size_in_bytes with_calls].
      repeat split; try congruence.
      intros m' Hm'. apply Hco2. exact Hm'.
    + exists st2. repeat split; solve [congruence | exact Hco2].
  - exists st2. repeat split; solve [congruence | exact Hco2].
Qed.

(** Resolution that ends in a rollover: the selected name is the latest
    partition, it is oversized, and the item's date is not its start date.
    The alias of the old partition is renamed to end at the item's date, a
    partition starting the next day is created, the cache is reloaded, and
    the result is the alias of the new partition. *)
Lemma resolve_with_rollover
      (collection_id : string) (product : Item)
      (st : State) (product_datetime : string) (filtered aliases : list string)
      (item_day earliest start next : date) :
  let all_indexes :=
    collection_indexes_in (aliases_on_engine (engine st)) collection_id in
  let target_index := selected_name filtered in
  let old_index := ITEMS_INDEX_PREFIX +++ target_index in
  let closed_alias := target_index +++ "-" +++ date_str item_day in
  let new_alias := partition_alias collection_id (date_str next) in
  let rolled :=
    created (renamed (engine st) old_index target_index closed_alias aliases)
            (ITEMS_INDEX_PREFIX +++ new_alias)
            [index_alias_by_collection_id collection_id; new_alias] in
  coherent st ->
  all_indexes <> [] ->
  sort all_indexes = all_indexes ->
  _validate_product_datetime product = Ok product_datetime ->
  filter_indexes_by_datetime all_indexes (Some product_datetime)
                             (Some product_datetime) = Some filtered ->
  extract_date product_datetime = Some item_day ->
  extract_first_date_from_index (first_index all_indexes) = Some earliest ->
  date_ltb item_day earliest = false ->
  target_index = last_index all_indexes ->
  oversized self st target_index = true ->
  extract_first_date_from_index target_index = Some start ->
  date_eqb item_day start = false ->
  dict_get (engine st) old_index = Some aliases ->
  add_one_day item_day = Some next ->
  exists st',
    get_target_index self collection_id product st = (Ok new_alias, st')
    /\ engine st' = rolled
    /\ size_in_bytes st' = size_in_bytes st
    /\ coherent st'.
Proof.
  cbv zeta.
  intros Hco Hne Hsorted Hval Hfilter Hday Hearliest Hnot_early Hlatest Hover
         Hstart Hother Hindex Hnext.
  destruct (resolve_prefix collection_id product true st product_datetime
              filtered item_day earliest Hco Hne Hsorted Hval Hfilter Hday
              Hearliest Hnot_early)
    as (st2 & Heng2 & Hsize2 & Hcache2 & Hrun).
  unfold get_target_index. rewrite Hrun.
  rewrite <- Hlatest, String.eqb_refl. cbn [negb].
  unfold bind at 1. rewrite is_index_oversized_sync_run.
  assert (Hover2 : oversized self st2 (selected_name filtered) = true).
  { unfold oversized in *. rewrite Hsize2. exact Hover. }
  rewrite Hover2.
  unfold handle_oversized_index_sync, bind.
  rewrite Hday. unfold or_raise at 1, ret at 1.
  rewrite Hstart. unfold or_raise at 1, ret at 1.
  rewrite Hother. cbn [negb].
  erewrite update_index_alias_sync_run
    by (cbn [engine with_calls]; rewrite Heng2; exact Hindex).
  rewrite Hnext. unfold or_raise at 1, ret at 1.
  rewrite create_datetime_index_sync_run.
  unfold refresh_cache, refresh_aliases. rewrite load_aliases_run.
  unfold ret. eexists. split; [reflexivity |].
  cbn [engine size_in_bytes cache_manager with_calls].
  rewrite Heng2. repeat split; [exact Hsize2 |].
  apply loaded_coherent. reflexivity.
Qed.

End Coherent.

(** ** Dates and their text *)

Section DateText.
Local Open Scope Z_scope.

Lemma digit_val_digit (n : Z) : SpecHelpers.digit_val (digit n) = Some (n mod 10).
Proof.
  pose proof (Z.mod_pos_bound n 10 ltac:(lia)) as Hb.
  unfold SpecHelpers.digit_val, digit.
  rewrite N_ascii_embedding by lia.
  rewrite Z2N.id by lia.
  replace (48 <=? 48 + n mod 10) with true by (symmetry; apply Z.leb_le; lia).
  replace (48 + n mod 10 <=? 57) with true by (symmetry; apply Z.leb_le; lia).
  cbn [andb]. f_equal. lia.
Qed.

Lemma take_digit_digit (n : Z) (rest : string) :
  SpecHelpers.take_digit (String (digit n) rest) = Some (n mod 10, rest).
Proof. unfold SpecHelpers.take_digit. rewrite digit_val_digit. reflexivity. Qed.

Lemma take_num2_pad2 (n : Z) (rest : string) :
  0 <= n < 100 ->
  SpecHelpers.take_num2 (pad2 n +++ rest) = Some (n, rest).
Proof.
  intros Hn. unfold SpecHelpers.take_num2, pad2. cbn [String.append].
  rewrite !take_digit_digit. f_equal. f_equal.
  Z.div_mod_to_equations. lia.
Qed.

Lemma pad4_pad2 (n : Z) (rest : string) :
  pad4 n +++ rest = pad2 (n / 100) +++ pad2 n +++ rest.
Proof.
  unfold pad4, pad2. cbn [String.append].
  rewrite Z.div_div by lia. reflexivity.
Qed.

Lemma take_num2_pad2_low (n : Z) (rest : string) :
  0 <= n ->
  SpecHelpers.take_num2 (pad2 n +++ rest) = Some (n mod 100, rest).
Proof.
  intros Hn. unfold SpecHelpers.take_num2, pad2. cbn [String.append].
  rewrite !take_digit_digit. f_equal. f_equal.
  Z.div_mod_to_equations. lia.
Qed.

Lemma days_in_month_bounds (y m : Z) : 28 <= days_in_month y m <= 31.
Proof.
  unfold days_in_month. destruct m as [| p | p]; try lia.
  do 4 (try destruct p as [p | p |]); simpl; try destruct (is_leap y); lia.
Qed.

(** A date in the range of [datetime.date]. *)
Lemma valid_date_bounds (d : date) :
  SpecHelpers.valid_date d = true ->
  1 <= year d <= 9999 /\ 1 <= month d <= 12
  /\ 1 <= day d <= days_in_month (year d) (month d)
  /\ days_in_month (year d) (month d) <= 31.
Proof.
  unfold SpecHelpers.valid_date, MAXYEAR. intros Hv.
  repeat (apply andb_true_iff in Hv; destruct Hv as [Hv ?]).
  rewrite !Z.leb_le in *.
  pose proof (days_in_month_bounds (year d) (month d)).
  repeat split; lia.
Qed.

Lemma match_date_date_str (d : date) (rest : string) :
  SpecHelpers.valid_date d = true ->
  SpecHelpers.match_date (date_str d +++ rest)
  = Some (year d, month d, day d, rest).
Proof.
  intros Hv. apply valid_date_bounds in Hv.
  destruct Hv as (Hy & Hm & Hd & Hdim).
  unfold SpecHelpers.match_date, date_str.
  assert (Hshape :
            (pad4 (year d) +++ "-" +++ pad2 (month d) +++ "-"
             +++ pad2 (day d)) +++ rest
            = pad2 (year d / 100)
              +++ pad2 (year d)
              +++ String "-" (pad2 (month d)
                              +++ String "-" (pad2 (day d) +++ rest))).
  { unfold pad4, pad2. cbn [String.append].
    rewrite Z.div_div by lia. reflexivity. }
  rewrite Hshape.
  rewrite take_num2_pad2
    by (split; [apply Z.div_pos; lia | apply Z.div_lt_upper_bound; lia]).
  rewrite take_num2_pad2_low by lia.
  cbn [SpecHelpers.take_dash Ascii.eqb Bool.eqb].
  rewrite take_num2_pad2 by lia.
  cbn [SpecHelpers.take_dash Ascii.eqb Bool.eqb].
  rewrite take_num2_pad2 by lia.
  f_equal. f_equal. f_equal. f_equal.
  Z.div_mod_to_equations. lia.
Qed.

Lemma extract_first_date_of_date_str (d : date) (rest : string) :
  SpecHelpers.valid_date d = true ->
  SpecHelpers.extract_first_date_from_index (date_str d +++ rest) = Some d.
Proof.
  intros Hv.
  destruct (date_str d +++ rest) as [| c s] eqn:Hs.
  - unfold date_str, pad4 in Hs. discriminate.
  - rewrite <- Hs. clear Hs.
    assert (Hunfold :
              forall s, SpecHelpers.extract_first_date_from_index s
                        = match SpecHelpers.match_date s with
                          | Some (y, m, d, _) =>
                              if SpecHelpers.valid_date (mkdate y m d)
                              then Some (mkdate y m d) else None
                          | None =>
                              match s with
                              | EmptyString => None
                              | String _ rest =>
                                  SpecHelpers.extract_first_date_from_index rest
                              end
                          end).
    { intros s0. destruct s0; reflexivity. }
    rewrite Hunfold, match_date_date_str by exact Hv.
    destruct d as [y m dd]. cbn [year month day] in *.
    rewrite Hv. reflexivity.
Qed.

End DateText.

(** ** The order of partition aliases *)

Section DateOrder.
Local Open Scope Z_scope.

Lemma ascii_compare_digit (m n : Z) :
  Ascii.compare (digit m) (digit n) = (m mod 10 ?= n mod 10).
Proof.
  pose proof (Z.mod_pos_bound m 10 ltac:(lia)).
  pose proof (Z.mod_pos_bound n 10 ltac:(lia)).
  unfold Ascii.compare, digit.
  rewrite !N_ascii_embedding by lia.
  rewrite Z2N.inj_compare by lia.
  apply Z.add_compare_mono_l.
Qed.

Lemma compare_pad2 (a b : Z) (x y : string) :
  0 <= a -> 0 <= b ->
  String.compare (pad2 a +++ x) (pad2 b +++ y)
  = match a mod 100 ?= b mod 100 with
    | Eq => String.compare x y
    | r => r
    end.
Proof.
  intros Ha Hb. unfold pad2. cbn [String.append String.compare].
  rewrite !ascii_compare_digit.
  destruct (Z.compare_spec ((a / 10) mod 10) ((b / 10) mod 10));
    destruct (Z.compare_spec (a mod 10) (b mod 10));
    destruct (Z.compare_spec (a mod 100) (b mod 100));
    try reflexivity; exfalso; Z.div_mod_to_equations; lia.
Qed.

Lemma date_str_shape (d : date) (rest : string) :
  date_str d +++ rest
  = pad2 (year d / 100)
    +++ pad2 (year d)
    +++ String "-" (pad2 (month d) +++ String "-" (pad2 (day d) +++ rest)).
Proof.
  unfold date_str, pad4, pad2. cbn [String.append].
  rewrite Z.div_div by lia. reflexivity.
Qed.

Lemma date_ltb_spec (a b : date) :
  date_ltb a b = true <->
  year a < year b
  \/ (year a = year b
      /\ (month a < month b \/ (month a = month b /\ day a < day b))).
Proof.
  unfold date_ltb.
  rewrite !orb_true_iff, !andb_true_iff, !orb_true_iff, !andb_true_iff.
  rewrite !Z.ltb_lt, !Z.eqb_eq. reflexivity.
Qed.

Lemma date_ltb_false (a b : date) :
  date_ltb a b = false <->
  ~ (year a < year b
     \/ (year a = year b
         /\ (month a < month b \/ (month a = month b /\ day a < day b)))).
Proof.
  rewrite <- date_ltb_spec. destruct (date_ltb a b); split; intros Hx.
  - discriminate.
  - exfalso. apply Hx. reflexivity.
  - discriminate.
  - reflexivity.
Qed.

Lemma date_eqb_spec (a b : date) :
  date_eqb a b = true <-> year a = year b /\ month a = month b /\ day a = day b.
Proof.
  unfold date_eqb. rewrite !andb_true_iff, !Z.eqb_eq. tauto.
Qed.

(** Aliases sort by their dates: the text of an earlier date is below the
    text of a later date, whatever follows them. *)
Lemma compare_date_str (a b : date) (x y : string) :
  SpecHelpers.valid_date a = true ->
  SpecHelpers.valid_date b = true ->
  date_ltb a b = true ->
  String.compare (date_str a +++ x) (date_str b +++ y) = Lt.
Proof.
  intros Ha Hb Hlt.
  apply valid_date_bounds in Ha. apply valid_date_bounds in Hb.
  destruct Ha as (Hya & Hma & Hda & Hdima).
  destruct Hb as (Hyb & Hmb & Hdb & Hdimb).
  apply date_ltb_spec in Hlt.
  rewrite !date_str_shape.
  rewrite compare_pad2
    by (apply Z.div_pos; lia).
  rewrite compare_pad2 by lia.
  cbn [String.compare].
  change (Ascii.compare "-" "-") with Eq. cbv iota.
  rewrite compare_pad2 by lia.
  cbn [String.compare].
  change (Ascii.compare "-" "-") with Eq. cbv iota.
  rewrite compare_pad2 by lia.
  destruct (Z.compare_spec ((year a / 100) mod 100) ((year b / 100) mod 100));
    destruct (Z.compare_spec (year a mod 100) (year b mod 100));
    destruct (Z.compare_spec (month a mod 100) (month b mod 100));
    destruct (Z.compare_spec (day a mod 100) (day b mod 100));
    try reflexivity; exfalso; Z.div_mod_to_equations; lia.
Qed.

Lemma compare_common_prefix (p x y : string) :
  String.compare (p +++ x) (p +++ y) = String.compare x y.
Proof.
  induction p as [| c p IH]; simpl; [reflexivity |].
  unfold Ascii.compare. rewrite N.compare_refl. exact IH.
Qed.

Lemma sort_pair (u v : string) :
  String.leb u v = true -> sort [u; v] = [u; v].
Proof. intros Hle. simpl. rewrite Hle. reflexivity. Qed.

End DateOrder.

(** ** The next day *)

Section NextDay.
Local Open Scope Z_scope.

Lemma valid_date_iff (d : date) :
  SpecHelpers.valid_date d = true <->
  1 <= year d <= 9999 /\ 1 <= month d <= 12
  /\ 1 <= day d <= days_in_month (year d) (month d).
Proof.
  unfold SpecHelpers.valid_date, MAXYEAR.
  rewrite !andb_true_iff, !Z.leb_le. tauto.
Qed.

Lemma add_one_day_cases (d n : date) :
  add_one_day d = Some n ->
  (day d < days_in_month (year d) (month d)
   /\ n = mkdate (year d) (month d) (day d + 1))
  \/ (days_in_month (year d) (month d) <= day d /\ month d < 12
      /\ n = mkdate (year d) (month d + 1) 1)
  \/ (days_in_month (year d) (month d) <= day d /\ 12 <= month d
      /\ year d < 9999 /\ n = mkdate (year d + 1) 1 1).
Proof.
  unfold add_one_day, MAXYEAR.
  destruct (Z.ltb_spec (day d) (days_in_month (year d) (month d))).
  - intros Hn. injection Hn as <-. left. auto.
  - destruct (Z.ltb_spec (month d) 12).
    + intros Hn. injection Hn as <-. right. left. auto.
    + destruct (Z.ltb_spec (year d) 9999); [| discriminate].
      intros Hn. injection Hn as <-. right. right. auto.
Qed.

Lemma add_one_day_valid (d n : date) :
  SpecHelpers.valid_date d = true ->
  add_one_day d = Some n ->
  SpecHelpers.valid_date n = true.
Proof.
  intros Hv Hn. apply valid_date_iff in Hv. apply valid_date_iff.
  apply add_one_day_cases in Hn.
  destruct Hn as [(Hd & ->) | [(Hd & Hm & ->) | (Hd & Hm & Hy & ->)]];
    cbn [year month day].
  - lia.
  - pose proof (days_in_month_bounds (year d) (month d + 1)). lia.
  - change (days_in_month (year d + 1) 1) with 31. lia.
Qed.

Lemma add_one_day_later (d n : date) :
  SpecHelpers.valid_date d = true ->
  add_one_day d = Some n ->
  date_ltb d n = true.
Proof.
  intros Hv Hn. apply valid_date_iff in Hv. apply date_ltb_spec.
  apply add_one_day_cases in Hn.
  destruct Hn as [(Hd & ->) | [(Hd & Hm & ->) | (Hd & Hm & Hy & ->)]];
    cbn [year month day]; lia.
Qed.

(** No date lies strictly between a day and the next. *)
Lemma add_one_day_next (d n x : date) :
  SpecHelpers.valid_date d = true ->
  SpecHelpers.valid_date x = true ->
  add_one_day d = Some n ->
  date_ltb d x = true ->
  date_ltb x n = false.
Proof.
  intros Hv Hx Hn Hlt.
  apply valid_date_iff in Hv. apply valid_date_iff in Hx.
  apply date_ltb_spec in Hlt. apply date_ltb_false.
  apply add_one_day_cases in Hn.
  destruct d as [y m dd]. destruct x as [xy xm xd].
  cbn [year month day] in *.
  destruct Hn as [(Hd & ->) | [(Hd & Hm & ->) | (Hd & Hm & Hy & ->)]];
    cbn [year month day]; intros Hbetween.
  - lia.
  - assert (xy = y) by lia. subst xy.
    assert (Hxm : xm = m \/ xm = m + 1) by lia.
    destruct Hxm; subst xm; lia.
  - assert (Hxy : xy = y \/ xy = y + 1) by lia.
    destruct Hxy; subst xy; [| lia].
    assert (xm = m) by lia. subst xm. lia.
Qed.

Lemma date_ltb_trans (a b c : date) :
  date_ltb a b = true -> date_ltb b c = true -> date_ltb a c = true.
Proof. rewrite !date_ltb_spec. lia. Qed.

Lemma date_ltb_irrefl (a : date) : date_ltb a a = false.
Proof. apply date_ltb_false. lia. Qed.

Lemma date_ltb_asym (a b : date) :
  date_ltb a b = true -> date_ltb b a = false.
Proof. rewrite date_ltb_spec, date_ltb_false. lia. Qed.

Lemma date_ltb_neq (a b : date) :
  date_ltb a b = true -> date_eqb b a = false.
Proof.
  intros Hlt. apply date_ltb_spec in Hlt.
  destruct (date_eqb b a) eqn:He; [| reflexivity].
  apply date_eqb_spec in He. lia.
Qed.

End NextDay.

(** ** Aliases and tables under the modelled helpers *)

Section SpecAliases.

#[local] Existing Instance SpecHelpers.helpers.

Variable collection_id : string.
Hypothesis Hplain : plain_collection collection_id.

Lemma append_assoc (x y z : string) : (x +++ y) +++ z = x +++ (y +++ z).
Proof. induction x as [| c x IH]; simpl; [reflexivity | rewrite IH; reflexivity]. Qed.

Lemma append_nil_r (x : string) : x +++ "" = x.
Proof. induction x as [| c x IH]; simpl; [reflexivity | rewrite IH; reflexivity]. Qed.

Lemma compare_refl (x : string) : String.compare x x = Eq.
Proof.
  induction x as [| c x IH]; simpl; [reflexivity |].
  unfold Ascii.compare. rewrite N.compare_refl. exact IH.
Qed.

Lemma compare_lt_neq (x y : string) : String.compare x y = Lt -> x <> y.
Proof. intros Hlt ->. rewrite compare_refl in Hlt. discriminate. Qed.

Lemma glob_star (s : string) : glob "*" s = true.
Proof.
  cbn [glob Ascii.eqb Bool.eqb]. cbv iota.
  induction s as [| c s IH]; [reflexivity |].
  rewrite IH. apply orb_true_r.
Qed.

Lemma glob_items (s : string) : glob "items_*" ("items_" +++ s) = true.
Proof. cbn -[glob]. cbn [glob Ascii.eqb Bool.eqb andb]. apply glob_star. Qed.

Lemma partition_alias_append (x y : string) :
  partition_alias collection_id x +++ y = partition_alias collection_id (x +++ y).
Proof. unfold partition_alias. rewrite append_assoc. reflexivity. Qed.

Lemma collection_alias_is_not_partition_alias (x : string) :
  String.eqb (index_alias_by_collection_id collection_id)
             (partition_alias collection_id x) = false.
Proof.
  apply String.eqb_neq. intros Heq.
  pose proof (proj1 Hplain x) as Hp. rewrite <- Heq in Hp.
  unfold startswith in Hp. cbn in Hp.
  change (String.prefix "items_"
            ("items_" +++ lower (translate SpecHelpers.unsupported_char
                                           collection_id)) = false) in Hp.
  rewrite prefix_append in Hp. discriminate.
Qed.

Lemma compare_partition_alias (x y : string) :
  String.compare (partition_alias collection_id x)
                 (partition_alias collection_id y)
  = String.compare x y.
Proof.
  unfold partition_alias. rewrite compare_common_prefix. reflexivity.
Qed.

(** The alias of a partition is below the alias of a partition that starts
    later, closed or open. *)
Lemma partition_alias_lt (a b : date) (x : string) :
  SpecHelpers.valid_date a = true ->
  SpecHelpers.valid_date b = true ->
  date_ltb a b = true ->
  String.compare (partition_alias collection_id (date_str a +++ x))
                 (partition_alias collection_id (date_str b)) = Lt.
Proof.
  intros Ha Hb Hlt. rewrite compare_partition_alias.
  rewrite <- (append_nil_r (date_str b)).
  apply compare_date_str; assumption.
Qed.

Lemma extract_first_date_of_alias (a : date) (x : string) :
  SpecHelpers.valid_date a = true ->
  extract_first_date_from_index (partition_alias collection_id (date_str a +++ x))
  = Some a.
Proof.
  intros Ha. rewrite (proj2 Hplain).
  apply extract_first_date_of_date_str. exact Ha.
Qed.

Lemma extract_first_date_of_open_alias (a : date) :
  SpecHelpers.valid_date a = true ->
  extract_first_date_from_index (partition_alias collection_id (date_str a))
  = Some a.
Proof.
  intros Ha. rewrite <- (append_nil_r (date_str a)).
  apply extract_first_date_of_alias. exact Ha.
Qed.

End SpecAliases.

(** ** The start of the next partition *)

Lemma date_leb_spec (a b : date) :
  SpecHelpers.date_leb a b = true <-> date_ltb b a = false.
Proof. unfold SpecHelpers.date_leb. rewrite negb_true_iff. reflexivity. Qed.

(** Goals on the order of dates, by arithmetic on their fields. *)
Ltac dates :=
  repeat match goal with
         | H : date_ltb _ _ = true |- _ => apply date_ltb_spec in H
         | H : date_ltb _ _ = false |- _ => apply date_ltb_false in H
         | H : SpecHelpers.date_leb _ _ = true |- _ =>
             apply date_leb_spec, date_ltb_false in H
         | |- date_ltb _ _ = true => apply date_ltb_spec
         | |- date_ltb _ _ = false => apply date_ltb_false
         | |- SpecHelpers.date_leb _ _ = true =>
             apply date_leb_spec, date_ltb_false
         end;
  lia.

Section NextStart.

Lemma next_start_none (l : list date) (s : date) :
  (forall u, In u l -> date_ltb s u = false) ->
  SpecHelpers.next_start l s = None.
Proof.
  induction l as [| t l IH]; intros Hall; simpl; [reflexivity |].
  rewrite (Hall t (or_introl eq_refl)).
  apply IH. intros u Hu. apply Hall. right. exact Hu.
Qed.

Lemma next_start_none_inv (l : list date) (s : date) :
  SpecHelpers.next_start l s = None ->
  forall u, In u l -> date_ltb s u = false.
Proof.
  induction l as [| y l IH]; intros Hn u Hu; [destruct Hu |].
  simpl in Hn. destruct (date_ltb s y) eqn:Hsy.
  - destruct (SpecHelpers.next_start l s) as [r |];
      [destruct (date_ltb r y) |]; discriminate.
  - destruct Hu as [<- | Hu]; [exact Hsy | apply IH; assumption].
Qed.

(** The next start is the least of the later starts. *)
Lemma next_start_some (l : list date) (s t : date) :
  SpecHelpers.next_start l s = Some t ->
  In t l /\ date_ltb s t = true
  /\ forall u, In u l -> date_ltb s u = true -> date_ltb u t = false.
Proof.
  revert t. induction l as [| x l IH]; intros t; simpl; [discriminate |].
  destruct (date_ltb s x) eqn:Hsx.
  - destruct (SpecHelpers.next_start l s) as [r |] eqn:Hr.
    + destruct (IH r eq_refl) as (Hin & Hlt & Hmin).
      destruct (date_ltb r x) eqn:Hrx; intros Heq; injection Heq as <-.
      * split; [right; exact Hin |]. split; [exact Hlt |].
        intros u [<- | Hu] Hsu; [| apply Hmin; assumption].
        clear - Hrx. dates.
      * split; [left; reflexivity |]. split; [exact Hsx |].
        intros u [<- | Hu] Hsu; [clear; dates |].
        specialize (Hmin u Hu Hsu). clear - Hmin Hrx. dates.
    + intros Heq. injection Heq as <-.
      split; [left; reflexivity |]. split; [exact Hsx |].
      intros u [<- | Hu] Hsu; [clear; dates |].
      rewrite (next_start_none_inv l s Hr u Hu) in Hsu. discriminate.
  - intros Hr. destruct (IH t Hr) as (Hin & Hlt & Hmin).
    split; [right; exact Hin |]. split; [exact Hlt |].
    intros u [<- | Hu] Hsu; [congruence | apply Hmin; assumption].
Qed.

Lemma next_start_exists (l : list date) (s u : date) :
  In u l -> date_ltb s u = true ->
  exists t, SpecHelpers.next_start l s = Some t.
Proof.
  intros Hu Hsu.
  destruct (SpecHelpers.next_start l s) as [t |] eqn:Hn; [eauto |].
  rewrite (next_start_none_inv l s Hn u Hu) in Hsu. discriminate.
Qed.

End NextStart.

(** ** Partitions in date order *)

Section Chronological.

Lemma chronological_head (closed : list (date * date)) (open_start : date) :
  chronological closed open_start ->
  SpecHelpers.valid_date open_start = true ->
  SpecHelpers.valid_date (hd open_start (map fst closed)) = true.
Proof. destruct closed as [| p rest]; simpl; tauto. Qed.

Lemma chronological_all (closed : list (date * date)) (open_start : date) :
  chronological closed open_start ->
  forall p, In p closed ->
            SpecHelpers.valid_date (fst p) = true
            /\ date_ltb (fst p) open_start = true.
Proof.
  induction closed as [| q rest IH]; intros Hc p Hp; [destruct Hp |].
  destruct Hc as (Hv & Hlt & Hrest).
  assert (Hq : date_ltb (fst q) open_start = true).
  { destruct rest as [| r rest']; [exact Hlt |].
    destruct (IH Hrest r (or_introl eq_refl)) as [_ Hr].
    simpl in Hlt. exact (date_ltb_trans _ _ _ Hlt Hr). }
  destruct Hp as [<- | Hp]; [split; assumption | apply IH; assumption].
Qed.

(** The first start is not after the open start. *)
Lemma chronological_head_le (closed : list (date * date)) (open_start : date) :
  chronological closed open_start ->
  date_ltb open_start (hd open_start (map fst closed)) = false.
Proof.
  destruct closed as [| p rest]; intros Hc; simpl.
  - apply date_ltb_irrefl.
  - destruct (chronological_all _ _ Hc p (or_introl eq_refl)) as [_ Hlt].
    apply date_ltb_asym. exact Hlt.
Qed.

(** Closing the open partition keeps the order. *)
Lemma chronological_snoc (earlier : list (date * date))
      (start closing next : date) :
  chronological earlier start ->
  SpecHelpers.valid_date start = true ->
  date_ltb start next = true ->
  chronological (earlier ++ [(start, closing)]) next.
Proof.
  intros Hc Hv Hlt. induction earlier as [| p rest IH]; simpl.
  - auto.
  - destruct Hc as (Hp & Hhd & Hrest). split; [exact Hp |].
    split; [| apply IH; exact Hrest].
    destruct rest; exact Hhd.
Qed.

End Chronological.

(** ** The aliases of the partitions of a collection *)

Section PartitionAliases.

#[local] Existing Instance SpecHelpers.helpers.

Variable collection_id : string.
Hypothesis Hplain : plain_collection collection_id.

Lemma closed_alias_form (p : date * date) :
  closed_alias collection_id p
  = partition_alias collection_id
      (date_str (fst p) +++ "-" +++ date_str (snd p)).
Proof. unfold closed_alias. apply partition_alias_append. Qed.

Lemma partition_aliases_nil (open_start : date) :
  partition_aliases collection_id [] open_start
  = [partition_alias collection_id (date_str open_start)].
Proof. reflexivity. Qed.

Lemma partition_aliases_cons (p : date * date) (rest : list (date * date))
      (open_start : date) :
  partition_aliases collection_id (p :: rest) open_start
  = closed_alias collection_id p
    :: partition_aliases collection_id rest open_start.
Proof. reflexivity. Qed.

Lemma partition_aliases_app (closed : list (date * date)) (open_start : date) :
  partition_aliases collection_id closed open_start
  = map (closed_alias collection_id) closed
    ++ [partition_alias collection_id (date_str open_start)].
Proof.
  unfold partition_aliases, partition_pairs.
  rewrite map_app, map_map. reflexivity.
Qed.

(** The first alias carries the first start date. *)
Lemma first_partition_alias (closed : list (date * date)) (open_start : date) :
  exists x rest,
    partition_aliases collection_id closed open_start
    = partition_alias collection_id
        (date_str (hd open_start (map fst closed)) +++ x) :: rest.
Proof.
  destruct closed as [| p closed].
  - exists "", []. rewrite append_nil_r. reflexivity.
  - eexists. eexists. rewrite partition_aliases_cons, closed_alias_form.
    reflexivity.
Qed.

Lemma extract_first_date_of_closed_alias (p : date * date) :
  SpecHelpers.valid_date (fst p) = true ->
  extract_first_date_from_index (closed_alias collection_id p) = Some (fst p).
Proof.
  intros Hv. rewrite closed_alias_form.
  apply extract_first_date_of_alias; assumption.
Qed.

Lemma starts_of_partition_aliases (closed : list (date * date))
      (open_start : date) :
  chronological closed open_start ->
  SpecHelpers.valid_date open_start = true ->
  map extract_first_date_from_index
      (partition_aliases collection_id closed open_start)
  = map Some (partition_starts closed open_start).
Proof.
  intros Hc Hopen. induction closed as [| p rest IH].
  - cbn [partition_starts map app]. rewrite partition_aliases_nil.
    cbn [map]. rewrite extract_first_date_of_open_alias by assumption.
    reflexivity.
  - destruct Hc as (Hp & _ & Hrest).
    rewrite partition_aliases_cons. cbn [partition_starts map app].
    rewrite extract_first_date_of_closed_alias by exact Hp.
    f_equal. apply IH. exact Hrest.
Qed.

Lemma all_some_map_some {A} (l : list A) :
  SpecHelpers.all_some (map Some l) = Some l.
Proof.
  induction l as [| a l IH]; simpl; [reflexivity | rewrite IH; reflexivity].
Qed.

(** An alias is below every alias that carries a later start date. *)
Lemma partition_alias_leb (a b : date) (x y : string) :
  SpecHelpers.valid_date a = true ->
  SpecHelpers.valid_date b = true ->
  date_ltb a b = true ->
  String.leb (partition_alias collection_id (date_str a +++ x))
             (partition_alias collection_id (date_str b +++ y)) = true.
Proof.
  intros Ha Hb Hlt. unfold String.leb.
  rewrite compare_partition_alias, compare_date_str by assumption.
  reflexivity.
Qed.

(** The aliases of partitions in date order are sorted already. *)
Lemma sort_partition_aliases (closed : list (date * date)) (open_start : date) :
  chronological closed open_start ->
  SpecHelpers.valid_date open_start = true ->
  sort (partition_aliases collection_id closed open_start)
  = partition_aliases collection_id closed open_start.
Proof.
  intros Hc Hopen. induction closed as [| p rest IH].
  - reflexivity.
  - pose proof Hc as (Hp & Hhd & Hrest).
    rewrite partition_aliases_cons. cbn [sort]. rewrite (IH Hrest).
    destruct (first_partition_alias rest open_start) as (x & tail & Hfirst).
    rewrite Hfirst. cbn [insert_sorted].
    rewrite closed_alias_form.
    rewrite partition_alias_leb;
      [reflexivity | exact Hp | | exact Hhd].
    apply chronological_head; assumption.
Qed.

Lemma first_partition_start (closed : list (date * date)) (open_start : date) :
  chronological closed open_start ->
  SpecHelpers.valid_date open_start = true ->
  extract_first_date_from_index
    (first_index (partition_aliases collection_id closed open_start))
  = Some (hd open_start (map fst closed)).
Proof.
  intros Hc Hopen.
  destruct (first_partition_alias closed open_start) as (x & tail & Hfirst).
  rewrite Hfirst. cbn [first_index hd].
  apply extract_first_date_of_alias; [exact Hplain |].
  apply chronological_head; assumption.
Qed.

Lemma last_partition_alias (closed : list (date * date)) (open_start : date) :
  last_index (partition_aliases collection_id closed open_start)
  = partition_alias collection_id (date_str open_start).
Proof.
  unfold last_index. rewrite partition_aliases_app. apply last_last.
Qed.

Lemma partition_aliases_not_empty (closed : list (date * date))
      (open_start : date) :
  partition_aliases collection_id closed open_start <> [].
Proof.
  rewrite partition_aliases_app. destruct (map _ closed); discriminate.
Qed.

End PartitionAliases.

(** ** Datetimes the modelled helpers accept *)

Section SpecDatetime.

Lemma parse_bound_datetime (dt : string) (d : date) :
  SpecHelpers.extract_date dt = Some d ->
  SpecHelpers.parse_bound (Some dt) = Some (Some d).
Proof.
  intros Hd. unfold SpecHelpers.parse_bound.
  destruct (String.eqb dt "") eqn:He.
  - apply String.eqb_eq in He. subst dt. discriminate Hd.
  - rewrite Hd. reflexivity.
Qed.

Lemma extract_date_valid (dt : string) (d : date) :
  SpecHelpers.extract_date dt = Some d -> SpecHelpers.valid_date d = true.
Proof.
  unfold SpecHelpers.extract_date.
  destruct (SpecHelpers.match_date dt) as [[[[y m] dd] rest] |]; [| discriminate].
  destruct (SpecHelpers.valid_date (mkdate y m dd)) eqn:Hv; [| discriminate].
  cbn [andb]. destruct (match rest with EmptyString => true | _ => _ end);
    [| discriminate].
  intros Heq. injection Heq as <-. exact Hv.
Qed.

End SpecDatetime.

(** ** The modelled filter on partitions in date order *)

Section PartitionFilter.

#[local] Existing Instance SpecHelpers.helpers.

Variable collection_id : string.
Hypothesis Hplain : plain_collection collection_id.

Lemma filter_by_start (indexes : list string) (starts : list date)
      (dt : string) (d : date) :
  map extract_first_date_from_index indexes = map Some starts ->
  extract_date dt = Some d ->
  filter_indexes_by_datetime indexes (Some dt) (Some dt)
  = Some (filter
            (fun index =>
               match extract_first_date_from_index index with
               | Some start => keeps starts d start
               | None => false
               end) indexes).
Proof.
  intros Hstarts Hd.
  change (SpecHelpers.filter_indexes_by_datetime indexes (Some dt) (Some dt)
          = Some (filter
                    (fun index =>
                       match SpecHelpers.extract_first_date_from_index index with
                       | Some start => keeps starts d start
                       | None => false
                       end) indexes)).
  unfold SpecHelpers.filter_indexes_by_datetime.
  change (map SpecHelpers.extract_first_date_from_index indexes)
    with (map extract_first_date_from_index indexes).
  rewrite Hstarts, all_some_map_some.
  rewrite (parse_bound_datetime dt d Hd).
  reflexivity.
Qed.

Lemma filter_nothing {A} (f : A -> bool) (l : list A) :
  (forall x, In x l -> f x = false) -> filter f l = [].
Proof.
  induction l as [| a l IH]; intros Hall; simpl; [reflexivity |].
  rewrite (Hall a (or_introl eq_refl)). apply IH.
  intros x Hx. apply Hall. right. exact Hx.
Qed.

(** A partition is not kept when a later partition starts on or before the
    day. *)
Lemma keeps_not_before (starts : list date) (day start later : date) :
  In later starts ->
  date_ltb start later = true ->
  date_ltb day later = false ->
  keeps starts day start = false.
Proof.
  intros Hin Hlater Hday. unfold keeps.
  destruct (next_start_exists starts start later Hin Hlater) as (t & Ht).
  rewrite Ht. destruct (next_start_some starts start t Ht) as (_ & _ & Hmin).
  specialize (Hmin later Hin Hlater).
  replace (date_ltb day t) with false; [apply andb_false_r |].
  symmetry. clear - Hmin Hday. dates.
Qed.

(** The open partition is kept from its start date on. *)
Lemma keeps_open (closed : list (date * date)) (open_start day : date) :
  chronological closed open_start ->
  keeps (partition_starts closed open_start) day open_start
  = SpecHelpers.date_leb open_start day.
Proof.
  intros Hc. unfold keeps. rewrite next_start_none; [apply andb_true_r |].
  intros u Hu. unfold partition_starts in Hu. apply in_app_or in Hu.
  destruct Hu as [Hu | [<- | []]]; [| apply date_ltb_irrefl].
  apply in_map_iff in Hu. destruct Hu as (p & <- & Hp).
  apply date_ltb_asym. apply (chronological_all closed open_start Hc p Hp).
Qed.

Lemma in_partition_starts_open (closed : list (date * date)) (open_start : date) :
  In open_start (partition_starts closed open_start).
Proof. unfold partition_starts. apply in_or_app. right. left. reflexivity. Qed.

(** An item dated on or after the start of the open partition selects the
    open partition alone. *)
Lemma filter_selects_open (closed : list (date * date)) (open_start : date)
      (dt : string) (d : date) :
  chronological closed open_start ->
  SpecHelpers.valid_date open_start = true ->
  extract_date dt = Some d ->
  date_ltb d open_start = false ->
  filter_indexes_by_datetime
    (partition_aliases collection_id closed open_start) (Some dt) (Some dt)
  = Some [partition_alias collection_id (date_str open_start)].
Proof.
  intros Hc Hopen Hd Hday.
  rewrite (filter_by_start _ (partition_starts closed open_start) dt d
             (starts_of_partition_aliases collection_id Hplain closed
                open_start Hc Hopen) Hd).
  rewrite partition_aliases_app, filter_app. f_equal.
  rewrite filter_nothing.
  - cbn [app filter].
    rewrite extract_first_date_of_open_alias by assumption.
    rewrite (keeps_open closed open_start d Hc).
    unfold SpecHelpers.date_leb. rewrite Hday. reflexivity.
  - intros a Ha. apply in_map_iff in Ha. destruct Ha as (p & <- & Hp).
    destruct (chronological_all closed open_start Hc p Hp) as [Hv Hlt].
    rewrite extract_first_date_of_closed_alias by assumption.
    apply (keeps_not_before _ d (fst p) open_start);
      [apply in_partition_starts_open | exact Hlt | exact Hday].
Qed.

(** An item dated from the start of the last closed partition up to the day
    before the open one selects that closed partition alone. *)
Lemma filter_selects_last_closed (earlier : list (date * date))
      (start closing next : date) (dt : string) (d : date) :
  chronological earlier start ->
  SpecHelpers.valid_date start = true ->
  SpecHelpers.valid_date next = true ->
  date_ltb start next = true ->
  extract_date dt = Some d ->
  date_ltb d start = false ->
  date_ltb d next = true ->
  filter_indexes_by_datetime
    (partition_aliases collection_id (earlier ++ [(start, closing)]) next)
    (Some dt) (Some dt)
  = Some [closed_alias collection_id (start, closing)].
Proof.
  intros Hc Hstart Hnext Hlt Hd Hfrom Hbefore.
  pose proof (chronological_snoc earlier start closing next Hc Hstart Hlt)
    as Hc'.
  rewrite (filter_by_start _ (partition_starts (earlier ++ [(start, closing)])
                                               next) dt d
             (starts_of_partition_aliases collection_id Hplain _ next Hc'
                Hnext) Hd).
  rewrite partition_aliases_app, map_app, !filter_app. f_equal.
  assert (Hin_start :
            In start (partition_starts (earlier ++ [(start, closing)]) next)).
  { unfold partition_starts. rewrite map_app. apply in_or_app. left.
    apply in_or_app. right. left. reflexivity. }
  rewrite filter_nothing.
  - cbn [app map filter].
    rewrite (extract_first_date_of_closed_alias collection_id Hplain
               (start, closing)) by exact Hstart.
    rewrite extract_first_date_of_open_alias by assumption.
    rewrite (keeps_open _ next d Hc').
    unfold SpecHelpers.date_leb. rewrite Hbefore. cbn [negb app].
    cbn [fst].
    assert (Hkeep : keeps (partition_starts (earlier ++ [(start, closing)])
                                            next) d start = true).
    { unfold keeps. unfold SpecHelpers.date_leb. rewrite Hfrom. cbn [negb andb].
      destruct (next_start_exists _ start next
                  (in_partition_starts_open (earlier ++ [(start, closing)])
                     next) Hlt) as (t & Ht).
      rewrite Ht.
      destruct (next_start_some _ start t Ht) as (Hin & Hst & _).
      unfold partition_starts in Hin. rewrite map_app in Hin.
      apply in_app_or in Hin. destruct Hin as [Hin | [<- | []]];
        [| exact Hbefore].
      apply in_app_or in Hin. destruct Hin as [Hin | [<- | []]].
      - apply in_map_iff in Hin. destruct Hin as (p & <- & Hp).
        destruct (chronological_all earlier start Hc p Hp) as [_ Hp_lt].
        rewrite (date_ltb_asym _ _ Hp_lt) in Hst. discriminate.
      - cbn [fst] in Hst. rewrite date_ltb_irrefl in Hst. discriminate. }
    rewrite Hkeep. reflexivity.
  - intros a Ha. apply in_map_iff in Ha. destruct Ha as (p & <- & Hp).
    destruct (chronological_all earlier start Hc p Hp) as [Hv Hp_lt].
    rewrite extract_first_date_of_closed_alias by assumption.
    apply (keeps_not_before _ d (fst p) start);
      [exact Hin_start | exact Hp_lt | exact Hfrom].
Qed.

End PartitionFilter.

(** ** The engine table of a partitioned collection *)

Section PartitionTables.

#[local] Existing Instance SpecHelpers.helpers.

Variable collection_id : string.
Hypothesis Hplain : plain_collection collection_id.

Let collection_alias := index_alias_by_collection_id collection_id.

Let entry (ia : string * string) : string * list string :=
  (fst ia, [collection_alias; snd ia]).

Let collect_step (result : dict (list string))
    (index_info : string * list string) : dict (list string) :=
  match scan_aliases (snd index_info) with
  | (Some base_alias, (_ :: _) as items_aliases) =>
      if String.eqb base_alias "" then result
      else setdefault_extend result base_alias items_aliases
  | _ => result
  end.

Lemma dict_set_last {V} (a : dict V) (k : string) (v w : V) :
  dict_get a k = None ->
  dict_set (a ++ [(k, v)]) k w = a ++ [(k, w)].
Proof.
  induction a as [| [k' v'] a IH]; simpl; intros Hn.
  - rewrite String.eqb_refl. reflexivity.
  - destruct (String.eqb k' k); [discriminate |].
    rewrite IH by exact Hn. reflexivity.
Qed.

Lemma setdefault_extend_last (r : dict (list string)) (k : string)
      (l xs : list string) :
  dict_get r k = None ->
  setdefault_extend (r ++ [(k, l)]) k xs = r ++ [(k, l ++ xs)].
Proof.
  intros Hn. unfold setdefault_extend. rewrite dict_get_app, Hn.
  cbn [dict_get]. rewrite String.eqb_refl. apply dict_set_last. exact Hn.
Qed.

Lemma filter_everything {A} (f : A -> bool) (l : list A) :
  (forall x, In x l -> f x = true) -> filter f l = l.
Proof.
  induction l as [| a l IH]; intros Hall; simpl; [reflexivity |].
  rewrite (Hall a (or_introl eq_refl)). f_equal. apply IH.
  intros x Hx. apply Hall. right. exact Hx.
Qed.

Lemma startswith_collection_alias :
  startswith collection_alias ITEMS_INDEX_PREFIX = true.
Proof. unfold startswith. apply prefix_append. Qed.

Lemma scan_partition_aliases (alias : string) :
  startswith alias ITEMS_INDEX_PREFIX = false ->
  scan_aliases [collection_alias; alias] = (Some collection_alias, [alias]).
Proof.
  intros Halias. unfold scan_aliases. cbn [fold_left].
  rewrite startswith_collection_alias. cbn [negb].
  rewrite Halias. reflexivity.
Qed.

(** The first partition of the collection that the loader meets opens the
    collection's entry. *)
Lemma collect_first (r : dict (list string)) (ia : string * string) :
  dict_get r collection_alias = None ->
  startswith (snd ia) ITEMS_INDEX_PREFIX = false ->
  collect_step r (entry ia) = r ++ [(collection_alias, [snd ia])].
Proof.
  intros Hr Hia. unfold collect_step, entry. cbn [snd].
  rewrite (scan_partition_aliases _ Hia).
  change (String.eqb collection_alias "") with false. cbv iota.
  unfold setdefault_extend. rewrite Hr. reflexivity.
Qed.

(** Every further partition extends the entry. *)
Lemma collect_more (r : dict (list string)) (ps : list (string * string)) :
  dict_get r collection_alias = None ->
  (forall ia, In ia ps -> startswith (snd ia) ITEMS_INDEX_PREFIX = false) ->
  forall l,
    fold_left collect_step (map entry ps) (r ++ [(collection_alias, l)])
    = r ++ [(collection_alias, l ++ map snd ps)].
Proof.
  intros Hr. induction ps as [| ia ps IH]; intros Hall l; cbn [map fold_left].
  - rewrite app_nil_r. reflexivity.
  - assert (Hstep : collect_step (r ++ [(collection_alias, l)]) (entry ia)
                    = r ++ [(collection_alias, l ++ [snd ia])]).
    { unfold collect_step, entry. cbn [snd].
      rewrite (scan_partition_aliases _ (Hall ia (or_introl eq_refl))).
      change (String.eqb collection_alias "") with false. cbv iota.
      apply setdefault_extend_last. exact Hr. }
    rewrite Hstep, IH by (intros x Hx; apply Hall; right; exact Hx).
    rewrite <- app_assoc. reflexivity.
Qed.

Lemma collect_entries (r : dict (list string)) (ps : list (string * string)) :
  dict_get r collection_alias = None ->
  (forall ia, In ia ps -> startswith (snd ia) ITEMS_INDEX_PREFIX = false) ->
  ps <> [] ->
  fold_left collect_step (map entry ps) r
  = r ++ [(collection_alias, map snd ps)].
Proof.
  intros Hr Hall Hne. destruct ps as [| ia ps]; [contradiction |].
  cbn [map fold_left].
  rewrite (collect_first r ia Hr (Hall ia (or_introl eq_refl))).
  rewrite collect_more;
    [reflexivity | exact Hr | intros x Hx; apply Hall; right; exact Hx].
Qed.

Lemma partition_pairs_aliases (closed : list (date * date)) (open_start : date) :
  forall ia, In ia (partition_pairs collection_id closed open_start) ->
             startswith (snd ia) ITEMS_INDEX_PREFIX = false.
Proof.
  intros ia Hia. unfold partition_pairs in Hia. apply in_app_or in Hia.
  destruct Hia as [Hia | [<- | []]].
  - apply in_map_iff in Hia. destruct Hia as (p & <- & _). cbn [snd].
    rewrite closed_alias_form. apply (proj1 Hplain).
  - apply (proj1 Hplain).
Qed.

Lemma partition_pairs_indexes (closed : list (date * date)) (open_start : date) :
  forall ia, In ia (partition_pairs collection_id closed open_start) ->
             glob (ITEMS_INDEX_PREFIX +++ "*") (fst ia) = true.
Proof.
  intros ia Hia. unfold partition_pairs in Hia. apply in_app_or in Hia.
  destruct Hia as [Hia | [<- | []]].
  - apply in_map_iff in Hia. destruct Hia as (p & <- & _). apply glob_items.
  - apply glob_items.
Qed.

(** The alias mapping of the table: the mapping of the other indices, then
    the entry of the collection with its partitions in date order. *)
Lemma aliases_on_partition_table (others : dict (list string))
      (closed : list (date * date)) (open_start : date) :
  foreign collection_id others ->
  aliases_on_engine (partition_table collection_id others closed open_start)
  = aliases_on_engine others
    ++ [(collection_alias, partition_aliases collection_id closed open_start)].
Proof.
  intros [Hnone _]. unfold aliases_on_engine at 1, partition_table.
  rewrite filter_app.
  rewrite (filter_everything _ (map _ (partition_pairs _ _ _))).
  - unfold collect_aliases. rewrite fold_left_app.
    apply (collect_entries (aliases_on_engine others)
             (partition_pairs collection_id closed open_start) Hnone
             (partition_pairs_aliases closed open_start)).
    unfold partition_pairs. destruct (map _ closed); discriminate.
  - intros x Hx. apply in_map_iff in Hx. destruct Hx as (ia & <- & Hia).
    apply (partition_pairs_indexes closed open_start ia Hia).
Qed.

Lemma indexes_of_partition_table (others : dict (list string))
      (closed : list (date * date)) (open_start : date) :
  foreign collection_id others ->
  collection_indexes_in
    (aliases_on_engine (partition_table collection_id others closed open_start))
    collection_id
  = partition_aliases collection_id closed open_start.
Proof.
  intros Hforeign. rewrite (aliases_on_partition_table _ _ _ Hforeign).
  unfold collection_indexes_in. rewrite dict_get_app.
  unfold collection_alias. rewrite (proj1 Hforeign).
  cbn [dict_get]. rewrite String.eqb_refl. reflexivity.
Qed.

(** Partitions that start on different days have different index names. *)
Lemma partition_index_neq (a b : date) :
  SpecHelpers.valid_date a = true ->
  SpecHelpers.valid_date b = true ->
  date_ltb a b = true ->
  String.eqb (partition_index collection_id a) (partition_index collection_id b)
  = false.
Proof.
  intros Ha Hb Hlt. apply String.eqb_neq. apply compare_lt_neq.
  unfold partition_index. rewrite compare_common_prefix.
  rewrite <- (append_nil_r (date_str a)).
  apply partition_alias_lt; assumption.
Qed.

Lemma closed_entries_miss (closed : list (date * date)) (d : date) :
  (forall p, In p closed ->
             SpecHelpers.valid_date (fst p) = true
             /\ date_ltb (fst p) d = true) ->
  SpecHelpers.valid_date d = true ->
  dict_get
    (map (fun ia : string * string =>
            (fst ia, [index_alias_by_collection_id collection_id; snd ia]))
         (map (fun p => (partition_index collection_id (fst p),
                         closed_alias collection_id p)) closed))
    (partition_index collection_id d)
  = None.
Proof.
  intros Hall Hd. induction closed as [| p rest IH]; [reflexivity |].
  cbn [map dict_get fst].
  destruct (Hall p (or_introl eq_refl)) as [Hp Hlt].
  rewrite (partition_index_neq (fst p) d Hp Hd Hlt).
  apply IH. intros q Hq. apply Hall. right. exact Hq.
Qed.

Lemma others_miss (others : dict (list string)) (d : date) :
  foreign collection_id others ->
  dict_get others (partition_index collection_id d) = None.
Proof. intros [_ Hnames]. apply Hnames. Qed.

(** The open partition is in the table, with the alias of the collection
    and its own. *)
Lemma open_partition_in_table (others : dict (list string))
      (closed : list (date * date)) (open_start : date) :
  foreign collection_id others ->
  chronological closed open_start ->
  SpecHelpers.valid_date open_start = true ->
  dict_get (partition_table collection_id others closed open_start)
           (partition_index collection_id open_start)
  = Some [collection_alias;
          partition_alias collection_id (date_str open_start)].
Proof.
  intros Hforeign Hc Hopen. unfold partition_table, partition_pairs.
  rewrite map_app, !dict_get_app.
  rewrite (others_miss others open_start Hforeign).
  rewrite (closed_entries_miss closed open_start
             (chronological_all closed open_start Hc) Hopen).
  cbn [map dict_get fst snd]. rewrite String.eqb_refl. reflexivity.
Qed.

Lemma collection_alias_neq (x : string) :
  String.eqb collection_alias (partition_alias collection_id x) = false.
Proof. apply collection_alias_is_not_partition_alias. exact Hplain. Qed.

Lemma remove_partition_alias (x : string) :
  remove_alias (partition_alias collection_id x)
               [collection_alias; partition_alias collection_id x]
  = [collection_alias].
Proof.
  unfold remove_alias. cbn [filter].
  rewrite collection_alias_neq, String.eqb_refl. reflexivity.
Qed.

Lemma add_partition_alias (x : string) :
  add_alias (partition_alias collection_id x) [collection_alias]
  = [collection_alias; partition_alias collection_id x].
Proof.
  unfold add_alias. cbn [existsb].
  rewrite String.eqb_sym, collection_alias_neq. reflexivity.
Qed.

(** The rollover of the open partition at [closing] closes it in the table
    and opens the partition that starts at [next]. *)
Lemma rollover_of_partition_table (others : dict (list string))
      (earlier : list (date * date)) (start closing next : date) :
  foreign collection_id others ->
  chronological earlier start ->
  SpecHelpers.valid_date start = true ->
  SpecHelpers.valid_date next = true ->
  date_ltb start next = true ->
  let old_alias := partition_alias collection_id (date_str start) in
  let new_alias := partition_alias collection_id (date_str next) in
  created
    (renamed (partition_table collection_id others earlier start)
             (ITEMS_INDEX_PREFIX +++ old_alias) old_alias
             (old_alias +++ "-" +++ date_str closing)
             [collection_alias; old_alias])
    (ITEMS_INDEX_PREFIX +++ new_alias) [collection_alias; new_alias]
  = partition_table collection_id others (earlier ++ [(start, closing)]) next.
Proof.
  intros Hforeign Hc Hstart Hnext Hlt. cbv zeta.
  unfold renamed. rewrite remove_partition_alias.
  rewrite partition_alias_append, add_partition_alias.
  rewrite <- partition_alias_append.
  change (ITEMS_INDEX_PREFIX
          +++ partition_alias collection_id (date_str start))
    with (partition_index collection_id start).
  change (ITEMS_INDEX_PREFIX
          +++ partition_alias collection_id (date_str next))
    with (partition_index collection_id next).
  unfold partition_table, partition_pairs.
  rewrite !map_app. cbn [map fst snd]. rewrite !app_assoc.
  assert (Hmiss : forall d,
             SpecHelpers.valid_date d = true ->
             (forall p, In p earlier ->
                        SpecHelpers.valid_date (fst p) = true
                        /\ date_ltb (fst p) d = true) ->
             dict_get
               (others
                ++ map (fun ia : string * string =>
                          (fst ia,
                           [index_alias_by_collection_id collection_id;
                            snd ia]))
                     (map (fun p => (partition_index collection_id (fst p),
                                     closed_alias collection_id p)) earlier))
               (partition_index collection_id d) = None).
  { intros d Hd Hall. rewrite dict_get_app.
    rewrite (others_miss others d Hforeign).
    apply (closed_entries_miss earlier d Hall Hd). }
  pose proof (chronological_all earlier start Hc) as Hall.
  rewrite !dict_set_last by (apply Hmiss; assumption).
  unfold created. rewrite dict_get_app.
  rewrite Hmiss.
  - cbn [dict_get]. rewrite (partition_index_neq start next Hstart Hnext Hlt).
    reflexivity.
  - exact Hnext.
  - intros p Hp. destruct (Hall p Hp) as [Hv Hp_lt].
    split; [exact Hv | exact (date_ltb_trans _ _ _ Hp_lt Hlt)].
Qed.

Lemma first_start_after_closing (earlier : list (date * date))
      (start closing next : date) :
  hd next (map fst (earlier ++ [(start, closing)]))
  = hd start (map fst earlier).
Proof. destruct earlier; reflexivity. Qed.

End PartitionTables.

(** ** Routing on the day of a rollover *)

Section RolloverDay.

#[local] Existing Instance SpecHelpers.helpers.

Variable self : SyncDatetimeIndexInserter.
Variable collection_id : string.
Variable others : dict (list string).
Variable earlier : list (date * date).
Variables start day next : date.

Hypothesis Hplain : plain_collection collection_id.
Hypothesis Hforeign : foreign collection_id others.
Hypothesis Hchron : chronological earlier start.
Hypothesis Hstart : SpecHelpers.valid_date start = true.
Hypothesis Hday : SpecHelpers.valid_date day = true.
Hypothesis Hafter : date_ltb start day = true.
Hypothesis Hnext : add_one_day day = Some next.

Let old_alias := partition_alias collection_id (date_str start).
Let closed_old_alias := closed_alias collection_id (start, day).
Let new_alias := partition_alias collection_id (date_str next).
Let first_start := hd start (map fst earlier).

Lemma item_date_of_validate (item : Item) (d : date) :
  item_date_of item = Some d ->
  exists dt,
    _validate_product_datetime item = Ok dt
    /\ extract_date dt = Some d.
Proof.
  unfold item_date_of, _validate_product_datetime.
  destruct (dict_get (properties item) "datetime") as [[dt |] |];
    try discriminate.
  intros Hd. exists dt. split; [| exact Hd].
  destruct (String.eqb dt "") eqn:He; [| reflexivity].
  apply String.eqb_eq in He. subst dt. discriminate Hd.
Qed.

Lemma next_valid : SpecHelpers.valid_date next = true.
Proof. exact (add_one_day_valid day next Hday Hnext). Qed.

Lemma day_before_next : date_ltb day next = true.
Proof. exact (add_one_day_later day next Hday Hnext). Qed.

Lemma start_before_next : date_ltb start next = true.
Proof. exact (date_ltb_trans _ _ _ Hafter day_before_next). Qed.

Lemma chronological_after_rollover :
  chronological (earlier ++ [(start, day)]) next.
Proof.
  exact (chronological_snoc earlier start day next Hchron Hstart
           start_before_next).
Qed.

(** No day from the start of the open partition on is before the first
    partition. *)
Lemma not_before_first_start (d : date) :
  date_ltb d start = false -> date_ltb d first_start = false.
Proof.
  intros Hd. pose proof (chronological_head_le earlier start Hchron) as Hle.
  fold first_start in Hle. clear - Hd Hle. dates.
Qed.

Lemma closed_old_alias_below_new_alias :
  String.compare closed_old_alias new_alias = Lt.
Proof.
  unfold closed_old_alias, new_alias. rewrite closed_alias_form by exact Hplain.
  apply partition_alias_lt;
    [exact Hstart | exact next_valid | exact start_before_next].
Qed.

Lemma indexes_after_rollover (st : State) :
  rolled_over collection_id others earlier start day next st ->
  collection_indexes_in (aliases_on_engine (engine st)) collection_id
  = partition_aliases collection_id (earlier ++ [(start, day)]) next.
Proof.
  intros [Heng _]. rewrite Heng.
  apply indexes_of_partition_table; assumption.
Qed.

Lemma first_start_after_rollover :
  extract_first_date_from_index
    (first_index
       (partition_aliases collection_id (earlier ++ [(start, day)]) next))
  = Some first_start.
Proof.
  rewrite (first_partition_start collection_id Hplain _ next
             chronological_after_rollover next_valid).
  rewrite first_start_after_closing. reflexivity.
Qed.

(** The item that triggers the rollover goes to the new partition. *)
Lemma trigger_goes_to_new_partition (product : Item) (st : State) :
  engine st = partition_table collection_id others earlier start ->
  coherent st ->
  item_date_of product = Some day ->
  oversized self st old_alias = true ->
  exists st',
    get_target_index self collection_id product st = (Ok new_alias, st')
    /\ rolled_over collection_id others earlier start day next st'
    /\ size_in_bytes st' = size_in_bytes st.
Proof.
  intros Heng Hco Hitem Hover.
  destruct (item_date_of_validate product day Hitem) as (dt & Hval & Hdt).
  assert (Hall : collection_indexes_in (aliases_on_engine (engine st))
                                       collection_id
                 = partition_aliases collection_id earlier start).
  { rewrite Heng. apply indexes_of_partition_table; assumption. }
  pose proof (date_ltb_asym _ _ Hafter) as Hnot_before.
  destruct (resolve_with_rollover self collection_id product st dt
              [old_alias]
              [index_alias_by_collection_id collection_id; old_alias]
              day first_start start next)
    as (st' & Hrun & Heng' & Hsize' & Hco'); try rewrite Hall; try assumption.
  - apply partition_aliases_not_empty.
  - apply sort_partition_aliases; assumption.
  - apply (filter_selects_open collection_id Hplain earlier start dt day);
      assumption.
  - apply first_partition_start; assumption.
  - apply not_before_first_start. exact Hnot_before.
  - rewrite last_partition_alias. reflexivity.
  - apply extract_first_date_of_open_alias; assumption.
  - exact (date_ltb_neq _ _ Hafter).
  - rewrite Heng.
    apply (open_partition_in_table collection_id others earlier start
             Hforeign Hchron Hstart).
  - exists st'. split; [exact Hrun |]. split; [| exact Hsize'].
    split; [| exact Hco'].
    rewrite Heng', Heng.
    apply (rollover_of_partition_table collection_id Hplain others earlier
             start day next Hforeign Hchron Hstart next_valid
             start_before_next).
Qed.

(** After the rollover, an item of the rollover day goes to the old
    partition, under its closed alias, and nothing changes in the engine. *)
Lemma same_day_goes_to_old_partition (product : Item) (st : State) :
  rolled_over collection_id others earlier start day next st ->
  item_date_of product = Some day ->
  exists st',
    get_target_index self collection_id product st = (Ok closed_old_alias, st')
    /\ rolled_over collection_id others earlier start day next st'
    /\ size_in_bytes st' = size_in_bytes st.
Proof.
  intros Hrolled Hitem.
  destruct (item_date_of_validate product day Hitem) as (dt & Hval & Hdt).
  pose proof (indexes_after_rollover st Hrolled) as Hall.
  destruct Hrolled as [Heng Hco].
  pose proof (date_ltb_asym _ _ Hafter) as Hnot_before.
  destruct (resolve_without_rollover self collection_id product true st dt
              [closed_old_alias] day first_start)
    as (st' & Hrun & Heng' & Hsize' & Hco'); try rewrite Hall; try assumption.
  - apply partition_aliases_not_empty.
  - apply sort_partition_aliases;
      [exact chronological_after_rollover | exact next_valid].
  - apply (filter_selects_last_closed collection_id Hplain earlier start day
             next dt day); try assumption;
      [exact next_valid | exact start_before_next | exact day_before_next].
  - exact first_start_after_rollover.
  - apply not_before_first_start. exact Hnot_before.
  - left. rewrite last_partition_alias.
    cbn [selected_name join String.concat].
    apply compare_lt_neq. exact closed_old_alias_below_new_alias.
  - exists st'. split; [exact Hrun |]. split; [| exact Hsize'].
    split; [congruence | exact Hco'].
Qed.

(** After the rollover, an item of a later day goes to the new partition,
    as long as that partition is within budget. *)
Lemma later_day_goes_to_new_partition (product : Item) (st : State)
      (later : date) :
  rolled_over collection_id others earlier start day next st ->
  item_date_of product = Some later ->
  date_ltb day later = true ->
  oversized self st new_alias = false ->
  exists st',
    get_target_index self collection_id product st = (Ok new_alias, st')
    /\ rolled_over collection_id others earlier start day next st'
    /\ size_in_bytes st' = size_in_bytes st.
Proof.
  intros Hrolled Hitem Hlater Hbudget.
  destruct (item_date_of_validate product later Hitem) as (dt & Hval & Hdt).
  pose proof (extract_date_valid dt later Hdt) as Hvalid.
  pose proof (indexes_after_rollover st Hrolled) as Hall.
  destruct Hrolled as [Heng Hco].
  pose proof (add_one_day_next day next later Hday Hvalid Hnext Hlater)
    as Hnot_before.
  destruct (resolve_without_rollover self collection_id product true st dt
              [new_alias] later first_start)
    as (st' & Hrun & Heng' & Hsize' & Hco'); try rewrite Hall; try assumption.
  - apply partition_aliases_not_empty.
  - apply sort_partition_aliases;
      [exact chronological_after_rollover | exact next_valid].
  - apply (filter_selects_open collection_id Hplain
             (earlier ++ [(start, day)]) next dt later); try assumption;
      [exact chronological_after_rollover | exact next_valid].
  - exact first_start_after_rollover.
  - apply not_before_first_start. apply date_ltb_asym.
    exact (date_ltb_trans _ _ _ Hafter Hlater).
  - right. right. exact Hbudget.
  - exists st'. split; [exact Hrun |]. split; [| exact Hsize'].
    split; [congruence | exact Hco'].
Qed.

End RolloverDay.

(** The routing around a rollover, as the code does it.  With the modelled
    helpers, for a plain collection whose partitions the engine holds in date
    order after the indices foreign to it, the latest one open and oversized,
    a cache that is empty or in step with the engine, and a single item dated
    after the start date of the open partition: the write closes the old
    partition at the item's date, opens a partition that starts the next day
    and returns the alias of that new partition for the item that triggered
    the rollover.  From a state with that table and a cache in step with it,
    every item dated on the day of the rollover is routed to the old
    partition, under its closed alias, and every item dated strictly after
    that day resolves to the new partition while that partition is within
    budget; neither changes the engine. *)
Theorem rollover_day_routing
        (self : SyncDatetimeIndexInserter) (collection_id : string)
        (others : dict (list string)) (earlier : list (date * date))
        (start day next : date) (trigger : Item) (st : State) :
  let H := SpecHelpers.helpers in
  let old_alias := partition_alias collection_id (date_str start) in
  let closed_old_alias := closed_alias collection_id (start, day) in
  let new_alias := partition_alias collection_id (date_str next) in
  plain_collection collection_id ->
  foreign collection_id others ->
  chronological earlier start ->
  SpecHelpers.valid_date start = true ->
  engine st = partition_table collection_id others earlier start ->
  coherent st ->
  oversized self st old_alias = true ->
  item_date_of trigger = Some day ->
  date_ltb start day = true ->
  add_one_day day = Some next ->
  (exists st',
     get_target_index self collection_id trigger st = (Ok new_alias, st')
     /\ rolled_over collection_id others earlier start day next st')
  /\ (forall (st1 : State) (item : Item),
        rolled_over collection_id others earlier start day next st1 ->
        item_date_of item = Some day ->
        exists st',
          get_target_index self collection_id item st1
          = (Ok closed_old_alias, st')
          /\ rolled_over collection_id others earlier start day next st')
  /\ (forall (st1 : State) (item : Item) (later : date),
        rolled_over collection_id others earlier start day next st1 ->
        item_date_of item = Some later ->
        date_ltb day later = true ->
        oversized self st1 new_alias = false ->
        exists st',
          get_target_index self collection_id item st1 = (Ok new_alias, st')
          /\ rolled_over collection_id others earlier start day next st'
          /\ oversized self st' new_alias = false).
Proof.
  cbv zeta.
  intros Hplain Hforeign Hchron Hstart Heng Hco Hover Htrigger Hafter Hnext.
  assert (Hday : SpecHelpers.valid_date day = true).
  { destruct (item_date_of_validate trigger day Htrigger) as (dt & _ & Hdt).
    exact (extract_date_valid dt day Hdt). }
  split; [| split].
  - destruct (trigger_goes_to_new_partition self collection_id others earlier
                start day next Hplain Hforeign Hchron Hstart Hday Hafter Hnext
                trigger st Heng Hco Htrigger Hover)
      as (st' & Hrun & Hrolled & _).
    exists st'. auto.
  - intros st1 item Hrolled Hitem.
    destruct (same_day_goes_to_old_partition self collection_id others earlier
                start day next Hplain Hforeign Hchron Hstart Hday Hafter Hnext
                item st1 Hrolled Hitem)
      as (st' & Hrun & Hrolled' & _).
    exists st'. auto.
  - intros st1 item later Hrolled Hitem Hlater Hbudget.
    destruct (later_day_goes_to_new_partition self collection_id others earlier
                start day next Hplain Hforeign Hchron Hstart Hday Hafter Hnext
                item st1 later Hrolled Hitem Hlater Hbudget)
      as (st' & Hrun & Hrolled' & Hsize).
    exists st'. repeat split; try assumption; try apply Hrolled'.
    unfold oversized in *. rewrite Hsize. exact Hbudget.
Qed.

(** Collection ["c1"] with a partition closed over December 2023 and an open
    partition from 2024-01-01, beside a partition of collection ["c2"];
    every name is reported at 30 GB; the item is dated 2024-01-05. *)
Lemma rollover_day_routing_witness :
  exists st',
    get_target_index (H := SpecHelpers.helpers) Demo.inserter "c1"
      (Demo.item "a" "2024-01-05T00:00:00Z")
      (Demo.state
         [("items_c2_2024-01-01", ["items_c2"; "c2_2024-01-01"]);
          ("items_c1_2023-12-01", ["items_c1"; "c1_2023-12-01-2023-12-31"]);
          ("items_c1_2024-01-01", ["items_c1"; "c1_2024-01-01"])])
    = (Ok "c1_2024-01-06", st').
Proof.
  destruct (rollover_day_routing Demo.inserter "c1"
              [("items_c2_2024-01-01", ["items_c2"; "c2_2024-01-01"])]
              [(mkdate 2023 12 1, mkdate 2023 12 31)]
              (mkdate 2024 1 1) (mkdate 2024 1 5) (mkdate 2024 1 6)
              (Demo.item "a" "2024-01-05T00:00:00Z")
              (Demo.state
                 [("items_c2_2024-01-01", ["items_c2"; "c2_2024-01-01"]);
                  ("items_c1_2023-12-01",
                   ["items_c1"; "c1_2023-12-01-2023-12-31"]);
                  ("items_c1_2024-01-01", ["items_c1"; "c1_2024-01-01"])]))
    as [(st' & Hrun & _) _].
  - split; intros x; reflexivity.
  - split; [reflexivity | intros x; reflexivity].
  - repeat split.
  - reflexivity.
  - reflexivity.
  - intros m Hm. discriminate Hm.
  - reflexivity.
  - reflexivity.
  - reflexivity.
  - reflexivity.
  - exists st'. exact Hrun.
Defined.

(** * Further properties of the code *)

(** ** Document ids *)

Section DocumentIds.

Lemma mk_item_id_cons (c : ascii) (item_id collection_id : string) :
  mk_item_id (String c item_id) collection_id
  = String c (mk_item_id item_id collection_id).
Proof. reflexivity. Qed.

(** X1: the document id tells the item and the collection apart as long as
    the item ids hold no ["|"]: two items with such ids get the same document
    id only when both their ids and their collections agree.  Without that
    the ids collide: the bar may belong to either side. *)
Theorem mk_item_id_injective (item_id1 collection_id1 item_id2 collection_id2
                              : string) :
  (no_bar item_id1 = true ->
   no_bar item_id2 = true ->
   mk_item_id item_id1 collection_id1 = mk_item_id item_id2 collection_id2 ->
   item_id1 = item_id2 /\ collection_id1 = collection_id2)
  /\ mk_item_id (item_id1 +++ "|" +++ item_id2) collection_id1
     = mk_item_id item_id1 (item_id2 +++ "|" +++ collection_id1).
Proof.
  split.
  - revert item_id2.
    induction item_id1 as [| a s1 IH]; intros [| b s2] H1 H2 Heq.
    + injection Heq as ->. split; reflexivity.
    + cbn in Heq. injection Heq as <- _. cbn in H2. discriminate H2.
    + cbn in Heq. injection Heq as -> _. cbn in H1. discriminate H1.
    + rewrite !mk_item_id_cons in Heq. injection Heq as -> Heq.
      cbn [no_bar] in H1, H2.
      apply andb_true_iff in H1. apply andb_true_iff in H2.
      destruct (IH s2 (proj2 H1) (proj2 H2) Heq) as [-> ->].
      split; reflexivity.
  - unfold mk_item_id. rewrite append_assoc. reflexivity.
Qed.

Lemma mk_item_id_injective_witness :
  "a" = "a" /\ "c1" = "c1".
Proof.
  apply (proj1 (mk_item_id_injective "a" "c1" "a" "c1"));
    reflexivity.
Defined.

End DocumentIds.

(** ** The alias loader and its cache *)

Section LoaderAndCache.

Context {H : Helpers}.

Lemma load_aliases_calls (st : State) :
  calls (snd (load_aliases st)) = calls st ++ [alias_lookup].
Proof. reflexivity. Qed.

Lemma get_aliases_of_empty_cache (st : State) :
  get_cache (cache_manager st) (clock st (ticks st)) = None ->
  get_aliases st
  = load_aliases (with_ticks st (S (ticks st))).
Proof.
  intros Hnone. unfold get_aliases, cache_manager_get_cache, bind, time_time.
  cbn [cache_manager with_ticks]. rewrite Hnone. reflexivity.
Qed.

Lemma load_aliases_result (st : State) :
  fst (load_aliases st) = Ok (aliases_on_engine (engine st))
  /\ engine (snd (load_aliases st)) = engine st
  /\ calls (snd (load_aliases st)) = calls st ++ [alias_lookup]
  /\ _cache (cache_manager (snd (load_aliases st)))
     = Some (aliases_on_engine (engine st))
  /\ _timestamp (cache_manager (snd (load_aliases st))) = clock st (ticks st)
  /\ ticks (snd (load_aliases st)) = S (ticks st).
Proof. repeat split. Qed.

(** X2: after [clear_cache] the next read of the aliases goes to the engine,
    whatever the clock shows: one alias lookup is issued, its mapping is
    returned and cached, and the engine is left as it was. *)
Theorem get_aliases_after_clear_cache (st : State) :
  let cleared := with_cache_manager st (clear_cache (cache_manager st)) in
  fst (get_aliases cleared) = Ok (aliases_on_engine (engine st))
  /\ calls (snd (get_aliases cleared)) = calls st ++ [alias_lookup]
  /\ engine (snd (get_aliases cleared)) = engine st
  /\ _cache (cache_manager (snd (get_aliases cleared)))
     = Some (aliases_on_engine (engine st)).
Proof.
  cbv zeta.
  rewrite get_aliases_of_empty_cache.
  - repeat split.
  - unfold get_cache, clear_cache. cbn [cache_manager with_cache_manager _cache].
    destruct (is_expired _ _); reflexivity.
Qed.

(** X3: a mapping that is cached and not older than the TTL is served as it
    is: the partitions of a collection are read from it without any engine
    call, also when the engine has changed since it was loaded. *)
Theorem get_collection_indexes_from_cache (collection_id : string)
        (m : dict (list string)) (st : State) :
  _cache (cache_manager st) = Some m ->
  (clock st (ticks st) - _timestamp (cache_manager st)
   <= _ttl (cache_manager st))%Q ->
  get_collection_indexes collection_id st
  = (Ok (collection_indexes_in m collection_id),
     with_ticks st (S (ticks st))).
Proof.
  intros Hcache Hfresh.
  unfold get_collection_indexes, loader_get_collection_indexes, get_aliases,
    cache_manager_get_cache, bind, time_time.
  cbn [cache_manager with_ticks]. unfold get_cache.
  rewrite (is_expired_false _ _ Hfresh), Hcache. reflexivity.
Qed.

(** X4: once the cached mapping is older than the TTL, the next read of the
    aliases drops it: one alias lookup is issued and the mapping of the engine
    is returned and cached, stamped with the clock reading taken after the
    lookup. *)
Theorem get_aliases_of_expired_cache (st : State) :
  (_ttl (cache_manager st)
   < clock st (ticks st) - _timestamp (cache_manager st))%Q ->
  fst (get_aliases st) = Ok (aliases_on_engine (engine st))
  /\ calls (snd (get_aliases st)) = calls st ++ [alias_lookup]
  /\ engine (snd (get_aliases st)) = engine st
  /\ _cache (cache_manager (snd (get_aliases st)))
     = Some (aliases_on_engine (engine st))
  /\ _timestamp (cache_manager (snd (get_aliases st)))
     = clock st (S (ticks st)).
Proof.
  intros Hold. rewrite get_aliases_of_empty_cache.
  - repeat split.
  - unfold get_cache. rewrite (is_expired_true _ _ Hold). reflexivity.
Qed.

End LoaderAndCache.

(** A mapping cached at second 1700000000 that lists a partition the engine
    does not hold, read one second later. *)
Lemma get_collection_indexes_from_cache_witness :
  fst (get_collection_indexes (H := SpecHelpers.helpers) "c1"
         (mkState [] Demo.thirty_gb
            (mkCache (Some [("items_c1", ["c1_2024-01-01"])])
                     (inject_Z 1700000000) 3600)
            Demo.clock 1 []))
  = Ok ["c1_2024-01-01"].
Proof.
  rewrite (get_collection_indexes_from_cache (H := SpecHelpers.helpers) "c1"
             [("items_c1", ["c1_2024-01-01"])]).
  - reflexivity.
  - reflexivity.
  - vm_compute. discriminate.
Defined.

(** A stale mapping cached at second 1700000000 with a TTL of one second,
    read 3 seconds later on an engine that holds one partition. *)
Lemma get_aliases_of_expired_cache_witness :
  fst (get_aliases (H := SpecHelpers.helpers)
         (mkState (Demo.one_partition "2024-01-01") Demo.thirty_gb
            (mkCache (Some []) (inject_Z 1700000000) 1)
            Demo.clock 3 []))
  = Ok [("items_c1", ["c1_2024-01-01"])].
Proof.
  destruct (get_aliases_of_expired_cache (H := SpecHelpers.helpers)
              (mkState (Demo.one_partition "2024-01-01") Demo.thirty_gb
                 (mkCache (Some []) (inject_Z 1700000000) 1)
                 Demo.clock 3 [])) as [Hres _].
  - vm_compute. reflexivity.
  - rewrite Hres. reflexivity.
Defined.

(** ** What the loader makes of the engine's aliases *)

Section LoadedMapping.

Context {H : Helpers}.

Let scan_step (acc : option string * list string) (alias_name : string)
  : option string * list string :=
  let (base_alias, items_aliases) := acc in
  if negb (startswith alias_name ITEMS_INDEX_PREFIX)
  then (base_alias, items_aliases ++ [alias_name])
  else (Some alias_name, items_aliases).

Let unprefixed (alias : string) : Prop :=
  startswith alias ITEMS_INDEX_PREFIX = false.

Lemma scan_fold_shape (aliases : list string) :
  forall (base : option string) (items : list string),
    (forall b, base = Some b -> startswith b ITEMS_INDEX_PREFIX = true) ->
    Forall unprefixed items ->
    (forall b, fst (fold_left scan_step aliases (base, items)) = Some b ->
               startswith b ITEMS_INDEX_PREFIX = true)
    /\ Forall unprefixed (snd (fold_left scan_step aliases (base, items))).
Proof.
  induction aliases as [| a rest IH]; intros base items Hbase Hitems.
  - split; assumption.
  - cbn [fold_left scan_step].
    destruct (startswith a ITEMS_INDEX_PREFIX) eqn:Ha; cbn [negb].
    + apply IH; [| exact Hitems].
      intros b Hb. injection Hb as <-. exact Ha.
    + apply IH; [exact Hbase |].
      apply Forall_app. split; [exact Hitems |].
      constructor; [exact Ha | constructor].
Qed.

Lemma scan_aliases_shape (aliases : list string) :
  (forall b, fst (scan_aliases aliases) = Some b ->
             startswith b ITEMS_INDEX_PREFIX = true)
  /\ Forall unprefixed (snd (scan_aliases aliases)).
Proof.
  apply (scan_fold_shape aliases None []); [discriminate | constructor].
Qed.

Lemma dict_get_in {V} (d : dict V) (k : string) (v : V) :
  dict_get d k = Some v -> In (k, v) d.
Proof.
  induction d as [| [k' v'] d IH]; simpl; [discriminate |].
  destruct (String.eqb k' k) eqn:Hk.
  - intros Hv. injection Hv as <-. apply String.eqb_eq in Hk. subst k'.
    left. reflexivity.
  - intros Hv. right. apply IH. exact Hv.
Qed.

Lemma dict_set_forall {V} (P : string * V -> Prop) (d : dict V) (k : string)
      (v : V) :
  Forall P d -> P (k, v) -> Forall P (dict_set d k v).
Proof.
  intros Hd Hkv. induction d as [| [k' v'] d IH]; simpl.
  - constructor; [exact Hkv | constructor].
  - inversion Hd as [| x l Hx Hl]; subst.
    destruct (String.eqb k' k) eqn:Hk.
    + apply String.eqb_eq in Hk. subst k'. constructor; assumption.
    + constructor; [exact Hx | apply IH; exact Hl].
Qed.

Lemma setdefault_extend_loaded (result : dict (list string)) (base : string)
      (items : list string) :
  Forall loaded_entry result ->
  loaded_entry (base, items) ->
  Forall loaded_entry (setdefault_extend result base items).
Proof.
  intros Hres Hentry. unfold setdefault_extend.
  destruct (dict_get result base) as [old |] eqn:Hget.
  - apply dict_set_forall; [exact Hres |].
    apply dict_get_in in Hget.
    pose proof (proj1 (Forall_forall _ _) Hres _ Hget) as (_ & _ & _ & Hold).
    destruct Hentry as (Hp & Hne & Hitems & Hun).
    cbn [fst snd] in *. repeat split; [exact Hp | exact Hne | |].
    + destruct old; [exact Hitems | discriminate].
    + apply Forall_app. split; assumption.
  - apply Forall_app. split; [exact Hres |].
    constructor; [exact Hentry | constructor].
Qed.

Lemma collect_fold_loaded (response : dict (list string)) :
  forall result,
    Forall loaded_entry result ->
    Forall loaded_entry
      (fold_left
         (fun result (index_info : string * list string) =>
            match scan_aliases (snd index_info) with
            | (Some base_alias, (_ :: _) as items_aliases) =>
                if String.eqb base_alias "" then result
                else setdefault_extend result base_alias items_aliases
            | _ => result
            end)
         response result).
Proof.
  induction response as [| [index aliases] rest IH]; intros result Hres;
    [exact Hres |].
  cbn [fold_left snd]. apply IH.
  pose proof (scan_aliases_shape aliases) as [Hbase Hitems].
  destruct (scan_aliases aliases) as [[base |] [| item items]];
    try exact Hres.
  destruct (String.eqb base "") eqn:Hempty; [exact Hres |].
  apply setdefault_extend_loaded; [exact Hres |].
  cbn [fst snd] in *. repeat split.
  - apply Hbase. reflexivity.
  - apply String.eqb_neq. exact Hempty.
  - discriminate.
  - exact Hitems.
Qed.

(** X5: whatever indices and aliases the engine holds, the mapping that
    [load_aliases] returns and caches is well formed: every key is a non-empty
    alias with the prefix of the collection aliases, and every key lists at
    least one alias, none of which has that prefix. *)
Theorem load_aliases_mapping_shape (st : State) :
  exists m,
    fst (load_aliases st) = Ok m
    /\ _cache (cache_manager (snd (load_aliases st))) = Some m
    /\ Forall loaded_entry m.
Proof.
  exists (aliases_on_engine (engine st)).
  split; [reflexivity |]. split; [reflexivity |].
  unfold aliases_on_engine, collect_aliases.
  apply collect_fold_loaded. constructor.
Qed.

Lemma collect_single_alias (result : dict (list string)) (index alias : string) :
  match scan_aliases [alias] with
  | (Some base_alias, (_ :: _) as items_aliases) =>
      if String.eqb base_alias "" then result
      else setdefault_extend result base_alias items_aliases
  | _ => result
  end = result.
Proof.
  unfold scan_aliases. cbn [fold_left].
  destruct (negb (startswith alias ITEMS_INDEX_PREFIX)); reflexivity.
Qed.

Lemma aliases_on_engine_snoc_single (e : dict (list string))
      (index alias : string) :
  aliases_on_engine (e ++ [(index, [alias])]) = aliases_on_engine e.
Proof.
  unfold aliases_on_engine. rewrite filter_app. cbn [filter fst].
  destruct (glob _ index).
  - unfold collect_aliases. rewrite fold_left_app. cbn [fold_left snd].
    apply collect_single_alias. exact index.
  - rewrite app_nil_r. reflexivity.
Qed.

(** X6: an index made by [create_simple_index_sync] is no partition for the
    loader: it bears the one alias of its collection, so the alias mapping of
    the engine is the same before and after the creation (whether or not the
    index existed), and the name returned is the collection's index name with
    the suffix [-000001]. *)
Theorem simple_index_is_no_partition (adapter : SearchEngineType)
        (collection_id : string) (st : State) :
  fst (create_simple_index_sync adapter collection_id st)
  = Ok (index_by_collection_id collection_id +++ "-000001")
  /\ aliases_on_engine
       (engine (snd (create_simple_index_sync adapter collection_id st)))
     = aliases_on_engine (engine st).
Proof.
  unfold create_simple_index_sync, indices_create, bind, log_call, ret.
  cbn [engine with_calls].
  destruct (dict_get (engine st) _); cbn [fst snd engine with_engine with_calls].
  - split; reflexivity.
  - split; [reflexivity | apply aliases_on_engine_snoc_single].
Qed.

(** *** The engine calls of [select_indexes] *)

Lemma get_aliases_calls (st : State) :
  exists added,
    calls (snd (get_aliases st)) = calls st ++ added
    /\ (added = [] \/ added = [alias_lookup])
    /\ engine (snd (get_aliases st)) = engine st.
Proof.
  unfold get_aliases, cache_manager_get_cache, bind, time_time.
  cbn [cache_manager with_ticks].
  destruct (get_cache (cache_manager st) (clock st (ticks st))) as [m |].
  - exists []. rewrite app_nil_r. repeat split. left. reflexivity.
  - exists [alias_lookup]. repeat split. right. reflexivity.
Qed.

Lemma get_collection_indexes_calls (collection_id : string) (st : State) :
  exists l added,
    fst (get_collection_indexes collection_id st) = Ok l
    /\ calls (snd (get_collection_indexes collection_id st)) = calls st ++ added
    /\ (added = [] \/ added = [alias_lookup])
    /\ engine (snd (get_collection_indexes collection_id st)) = engine st.
Proof.
  destruct (get_aliases_calls st) as (added & Hcalls & Hadded & Heng).
  destruct (get_aliases_spec st) as (m & st' & Hrun & _).
  rewrite Hrun in Hcalls, Heng. cbn [snd] in Hcalls, Heng.
  unfold get_collection_indexes, loader_get_collection_indexes, bind.
  rewrite Hrun. cbn [fst snd ret].
  eexists. exists added. repeat split; assumption.
Qed.

Lemma select_loop_calls (collection_ids : list string)
      (datetime_search : dict (option string)) :
  forall (selected : list string) (st : State),
    exists added,
      calls (snd (select_loop collection_ids datetime_search selected st))
      = calls st ++ added
      /\ Forall (fun c => c = alias_lookup) added
      /\ List.length added <= List.length collection_ids
      /\ engine (snd (select_loop collection_ids datetime_search selected st))
         = engine st.
Proof.
  induction collection_ids as [| c rest IH]; intros selected st.
  - exists []. rewrite app_nil_r. cbn. repeat split; [constructor | lia].
  - destruct (get_collection_indexes_calls c st)
      as (l & added & Hres & Hcalls & Hadded & Heng).
    destruct (get_collection_indexes c st) as [[l' | e] st1] eqn:Hrun;
      cbn [fst snd] in *; [| discriminate].
    assert (Hlen : List.length added <= 1
                   /\ Forall (fun c => c = alias_lookup) added).
    { destruct Hadded as [-> | ->]; cbn; split; try lia; repeat constructor. }
    assert (Hstep :
              select_loop (c :: rest) datetime_search selected st
              = match filter_indexes_by_datetime l'
                        (search_get datetime_search "gte")
                        (search_get datetime_search "lte") with
                | Some filtered =>
                    select_loop rest datetime_search (selected ++ filtered) st1
                | None => (Raise ValueError, st1)
                end).
    { cbn [select_loop]. unfold bind. rewrite Hrun.
      destruct (filter_indexes_by_datetime l' _ _); reflexivity. }
    rewrite Hstep.
    destruct (filter_indexes_by_datetime l' _ _) as [filtered |].
    + destruct (IH (selected ++ filtered) st1)
        as (more & Hcalls' & Hmore & Hbound & Heng').
      exists (added ++ more). rewrite Hcalls', Hcalls, Heng', Heng.
      rewrite app_assoc, length_app. cbn [List.length].
      repeat split; [apply Forall_app; tauto | lia].
    + exists added. cbn [snd List.length].
      repeat split; [exact Hcalls | tauto | lia | exact Heng].
Qed.

(** X7: [select_indexes] only reads: whatever it returns or raises, the
    engine's table is as before, and the only engine calls it issues are
    alias lookups, at most one for each collection id it is given. *)
Theorem select_indexes_only_looks_up_aliases
        (collection_ids : option (list string))
        (datetime_search : dict (option string)) (st : State) :
  exists added,
    calls (snd (select_indexes collection_ids datetime_search st))
    = calls st ++ added
    /\ Forall (fun c => c = alias_lookup) added
    /\ List.length added
       <= List.length (match collection_ids with Some l => l | None => [] end)
    /\ engine (snd (select_indexes collection_ids datetime_search st))
       = engine st.
Proof.
  destruct collection_ids as [[| c rest] |];
    try (exists []; rewrite app_nil_r; cbn; repeat split;
         [constructor | lia]).
  destruct (select_loop_calls (c :: rest) datetime_search [] st)
    as (added & Hcalls & Hall & Hlen & Heng).
  exists added. unfold select_indexes, bind.
  destruct (select_loop (c :: rest) datetime_search [] st) as [[l | e] st'];
    cbn [fst snd ret] in *; repeat split; assumption.
Qed.

End LoadedMapping.

(** ** Creating a partition twice *)

Section CreateTwice.

Context {H : Helpers}.

(** X8: creating a datetime index is idempotent: the call returns the alias
    [<collection>_<start date>] whether or not the index existed, and a
    second creation with the same arguments leaves the engine's table as the
    first one left it (the "already exists" answer is ignored). *)
Theorem create_datetime_index_sync_twice (adapter : SearchEngineType)
        (collection_id start_date : string) (st : State) :
  let once := create_datetime_index_sync adapter collection_id start_date st in
  let twice :=
    create_datetime_index_sync adapter collection_id start_date (snd once) in
  fst once = Ok (partition_alias collection_id start_date)
  /\ fst twice = fst once
  /\ engine (snd twice) = engine (snd once).
Proof.
  cbv zeta. rewrite !create_datetime_index_sync_run. cbn [fst snd engine].
  repeat split.
  unfold created at 1. rewrite created_same.
  destruct (dict_get (engine st) _); reflexivity.
Qed.

End CreateTwice.

(** ** Telling the engine from the client *)

Section DetectEngine.

Lemma lower_append (a b : string) : lower (a +++ b) = lower a +++ lower b.
Proof.
  induction a as [| c a IH]; cbn; [reflexivity | rewrite IH; reflexivity].
Qed.

Lemma lower_append_inv (x a b : string) :
  lower x = a +++ b ->
  exists x1 x2, x = x1 +++ x2 /\ lower x1 = a /\ lower x2 = b.
Proof.
  revert x. induction a as [| c a IH]; intros x Hx.
  - exists "", x. repeat split. exact Hx.
  - destruct x as [| d x]; [discriminate |].
    cbn in Hx. injection Hx as Hc Hx.
    destruct (IH x Hx) as (x1 & x2 & -> & H1 & H2).
    exists (String d x1), x2. cbn. rewrite H1, Hc. repeat split. exact H2.
Qed.

Lemma prefix_inv (p s : string) :
  String.prefix p s = true -> exists q, s = p +++ q.
Proof.
  revert s. induction p as [| c p IH]; intros s Hp.
  - exists s. reflexivity.
  - destruct s as [| d s]; [discriminate |].
    cbn in Hp. destruct (ascii_dec c d) as [-> | _]; [| discriminate].
    destruct (IH s Hp) as (q & ->). exists q. reflexivity.
Qed.

Lemma contains_middle (p sub q : string) : contains (p +++ sub +++ q) sub = true.
Proof.
  induction p as [| c p IH].
  - cbn [String.append]. destruct (sub +++ q) eqn:Hs; cbn [contains];
      rewrite <- Hs, prefix_append; reflexivity.
  - cbn [String.append contains]. rewrite IH. apply orb_true_r.
Qed.

Lemma contains_inv (s sub : string) :
  contains s sub = true -> exists p q, s = p +++ sub +++ q.
Proof.
  induction s as [| c s IH]; cbn [contains]; intros Hc.
  - rewrite orb_false_r in Hc. destruct (prefix_inv _ _ Hc) as (q & Hq).
    exists "", q. exact Hq.
  - apply orb_true_iff in Hc. destruct Hc as [Hp | Hc].
    + destruct (prefix_inv _ _ Hp) as (q & Hq). exists "", q. exact Hq.
    + destruct (IH Hc) as (p & q & ->). exists (String c p), q. reflexivity.
Qed.

(** X9: [detect_engine_type] answers OPENSEARCH exactly for the clients whose
    class text holds the word "opensearch" in some mix of upper and lower
    case, anywhere in the text; every other client is taken for
    Elasticsearch. *)
Theorem detect_engine_type_opensearch (client_class : string) :
  (detect_engine_type client_class = OPENSEARCH
   <-> exists before word after,
         client_class = before +++ word +++ after
         /\ lower word = "opensearch")
  /\ (detect_engine_type client_class = ELASTICSEARCH
      <-> ~ exists before word after,
              client_class = before +++ word +++ after
              /\ lower word = "opensearch").
Proof.
  assert (Hiff : contains (lower client_class) "opensearch" = true
                 <-> exists before word after,
                       client_class = before +++ word +++ after
                       /\ lower word = "opensearch").
  { split.
    - intros Hc. destruct (contains_inv _ _ Hc) as (p & q & Hpq).
      destruct (lower_append_inv _ _ _ Hpq) as (x1 & x2 & -> & H1 & H2).
      destruct (lower_append_inv _ _ _ H2) as (w & x3 & -> & Hw & H3).
      exists x1, w, x3. split; [reflexivity | exact Hw].
    - intros (p & w & q & -> & Hw).
      rewrite !lower_append, Hw. apply contains_middle. }
  unfold detect_engine_type.
  destruct (contains (lower client_class) "opensearch").
  - split.
    + split; [intros _; apply Hiff; reflexivity | reflexivity].
    + split; [discriminate |].
      intros Hnone. exfalso. apply Hnone. apply Hiff. reflexivity.
  - split.
    + split; [discriminate |].
      intros Hex. apply Hiff in Hex. discriminate.
    + split; [| reflexivity].
      intros _ Hex. apply Hiff in Hex. discriminate.
Qed.

End DetectEngine.

(** ** Items without the datetime key *)

Section AbsentKey.

Context {H : Helpers}.
Variable self : SyncDatetimeIndexInserter.

(** X10: an item whose properties have no ["datetime"] key at all is not
    answered with the HTTP 400 of the guard: the subscript raises
    [KeyError("datetime")], for a single item and with the size check on or
    off, before any selector or engine call, so the state is left as it
    was. *)
Theorem target_index_of_item_without_datetime_key
        (collection_id : string) (product : Item) (check_size : bool)
        (st : State) :
  dict_get (properties product) "datetime" = None ->
  _get_target_index_internal self collection_id product check_size st
  = (Raise (KeyError "datetime"), st)
  /\ get_target_index self collection_id product st
     = (Raise (KeyError "datetime"), st).
Proof.
  intros Habsent.
  unfold get_target_index, _get_target_index_internal, bind, lift.
  rewrite (validate_absent_datetime_key product Habsent).
  split; reflexivity.
Qed.

End AbsentKey.

Lemma target_index_of_item_without_datetime_key_witness :
  get_target_index (H := SpecHelpers.helpers) (mkInserter ELASTICSEARCH 25)
    "c1" (mkItem "a" "c1" [("title", Some "a scene")])
    (mkState [] (fun _ => 0%Z) (IndexCacheManager_init 3600) (fun _ => 0%Q) 0 [])
  = (Raise (KeyError "datetime"),
     mkState [] (fun _ => 0%Z) (IndexCacheManager_init 3600) (fun _ => 0%Q) 0 []).
Proof.
  apply (target_index_of_item_without_datetime_key (H := SpecHelpers.helpers)
           (mkInserter ELASTICSEARCH 25) "c1"
           (mkItem "a" "c1" [("title", Some "a scene")]) true).
  reflexivity.
Defined.

(** ** The strategy without partitions *)

Section SimpleStrategy.

Context {H : Helpers}.

(** X11: the simple strategy routes by the collection id alone: a batch
    yields one action for each item, in the order of the items, every action
    targets the alias of the collection, which is what [get_target_index]
    answers for that item, and carries the item with the document id made of
    the item's own id and collection.  An empty batch yields no action. *)
Theorem simple_prepare_bulk_actions (collection_id : string)
        (items : list Item) :
  let actions :=
    SyncSimpleIndexInserter.prepare_bulk_actions collection_id items in
  map _source actions = items
  /\ map _id actions
     = map (fun item => mk_item_id (item_id item) (item_collection item)) items
  /\ Forall2 (fun item action =>
                _index action
                = SyncSimpleIndexInserter.get_target_index collection_id item)
             items actions
  /\ SyncSimpleIndexInserter.prepare_bulk_actions collection_id [] = [].
Proof.
  cbv zeta. unfold SyncSimpleIndexInserter.prepare_bulk_actions.
  rewrite !map_map. cbn [_source _id].
  split; [apply map_id |]. split; [reflexivity |]. split; [| reflexivity].
  induction items as [| item rest IH]; cbn [map]; constructor;
    [reflexivity | exact IH].
Qed.

End SimpleStrategy.

(** ** Batches of the datetime strategy *)

Section Batches.

Context {H : Helpers}.
Variable self : SyncDatetimeIndexInserter.

Lemma sort_collection_indexes_run (collection_id : string)
      (all_indexes : list string) (st : State) :
  fst (sort_collection_indexes collection_id all_indexes st)
  = Ok (sort all_indexes)
  /\ engine (snd (sort_collection_indexes collection_id all_indexes st))
     = engine st.
Proof. split; reflexivity. Qed.

(** X12: an empty batch is an error for the datetime strategy: whatever
    the state of the engine and of the cache, [prepare_bulk_actions] raises
    [IndexError] where it takes the first item, and the engine's table is
    left as it was. *)
Theorem prepare_bulk_actions_of_empty_batch (collection_id : string)
        (st : State) :
  fst (prepare_bulk_actions self collection_id [] st) = Raise IndexError
  /\ engine (snd (prepare_bulk_actions self collection_id [] st)) = engine st.
Proof.
  unfold prepare_bulk_actions, _ensure_indexes_exist, bind.
  destruct (get_collection_indexes_spec collection_id st)
    as (m & st1 & Hrun & Heng & _).
  rewrite Hrun.
  destruct (collection_indexes_in m collection_id) as [| a rest].
  - cbn. split; [reflexivity | exact Heng].
  - cbn [ret]. unfold _handle_index_splitting, bind.
    destruct (get_collection_indexes_spec collection_id st1)
      as (m2 & st2 & Hrun2 & Heng2 & _).
    rewrite Hrun2.
    destruct (sort_collection_indexes collection_id
                (collection_indexes_in m2 collection_id) st2)
      as [[sorted | e] st3] eqn:Hsort.
    + pose proof (sort_collection_indexes_run collection_id
                    (collection_indexes_in m2 collection_id) st2) as [_ Heng3].
      rewrite Hsort in Heng3. cbn [snd] in Heng3.
      destruct sorted as [| b more]; cbn;
        (split; [reflexivity | congruence]).
    + pose proof (sort_collection_indexes_run collection_id
                    (collection_indexes_in m2 collection_id) st2) as [Hok _].
      rewrite Hsort in Hok. discriminate.
Qed.

Lemma bulk_loop_keeps_items (collection_id : string)
      (split_info : option SplitInfo) (items : list Item) :
  forall (actions result : list BulkAction) (st : State),
    fst (bulk_loop self collection_id items split_info actions st) = Ok result ->
    exists added,
      result = actions ++ added
      /\ map _source added = items
      /\ map _id added
         = map (fun item => mk_item_id (item_id item) (item_collection item))
               items.
Proof.
  induction items as [| item rest IH]; intros actions result st Hrun.
  - cbn in Hrun. injection Hrun as <-. exists []. rewrite app_nil_r.
    repeat split.
  - cbn [bulk_loop] in Hrun. unfold bind in Hrun.
    destruct (bulk_target_index self collection_id item split_info st)
      as [[target | e] st1]; [| discriminate].
    destruct (IH _ _ _ Hrun) as (added & -> & Hsrc & Hid).
    eexists (_ :: added). rewrite <- app_assoc. split; [reflexivity |].
    cbn [map _source _id]. rewrite Hsrc, Hid. split; reflexivity.
Qed.

(** X13: when [prepare_bulk_actions] returns, with or without a rollover
    in the batch, its actions are the items one for one: the sources of the
    actions are the items in the order given, and each document id is made of
    its item's id and collection. *)
Theorem prepare_bulk_actions_keeps_items (collection_id : string)
        (items : list Item) (actions : list BulkAction) (st : State) :
  fst (prepare_bulk_actions self collection_id items st) = Ok actions ->
  map _source actions = items
  /\ map _id actions
     = map (fun item => mk_item_id (item_id item) (item_collection item)) items
  /\ List.length actions = List.length items.
Proof.
  unfold prepare_bulk_actions, bind. intros Hrun.
  destruct (_ensure_indexes_exist self collection_id items st)
    as [[[] | e] st1]; [| discriminate].
  destruct (_handle_index_splitting self collection_id items st1)
    as [[info | e] st2]; [| discriminate].
  unfold _create_bulk_actions in Hrun.
  destruct (bulk_loop_keeps_items collection_id info items [] actions st2 Hrun)
    as (added & -> & Hsrc & Hid).
  cbn [app]. split; [exact Hsrc |]. split; [exact Hid |].
  rewrite <- (length_map _source added), Hsrc. reflexivity.
Qed.

End Batches.

(** The only partition of ["c1"] starts at 2024-01-05 and is oversized; the
    batch holds an item of 2024-01-07 and one of 2024-01-06. *)
Lemma prepare_bulk_actions_keeps_items_witness :
  map _id [mkAction "c1_2024-01-06" "a|c1" (Demo.item "a" "2024-01-07T00:00:00Z");
           mkAction "c1_2024-01-06" "b|c1" (Demo.item "b" "2024-01-06T00:00:00Z")]
  = ["a|c1"; "b|c1"].
Proof.
  apply (prepare_bulk_actions_keeps_items (H := SpecHelpers.helpers)
           Demo.inserter "c1"
           [Demo.item "a" "2024-01-07T00:00:00Z";
            Demo.item "b" "2024-01-06T00:00:00Z"]
           [mkAction "c1_2024-01-06" "a|c1" (Demo.item "a" "2024-01-07T00:00:00Z");
            mkAction "c1_2024-01-06" "b|c1" (Demo.item "b" "2024-01-06T00:00:00Z")]
           (Demo.state (Demo.one_partition "2024-01-05"))).
  vm_compute. reflexivity.
Defined.

(** ** No index is ever dropped *)

Lemma adds_indexes_weaken {A} (n n' : nat) (m : M A) :
  adds_indexes n m -> n <= n' -> adds_indexes n' m.
Proof.
  intros Hm Hle st. destruct (Hm st) as (added & Heq & Hlen).
  exists added. split; [exact Heq | lia].
Qed.

Lemma adds_indexes_same_engine {A} (m : M A) :
  (forall st, engine (snd (m st)) = engine st) -> adds_indexes 0 m.
Proof.
  intros Hm st. exists []. rewrite Hm, app_nil_r. split; [reflexivity | cbn; lia].
Qed.

Lemma adds_indexes_reads_only {A} (m : M A) : reads_only m -> adds_indexes 0 m.
Proof.
  intros Hr. apply adds_indexes_same_engine. intros st. apply (Hr st).
Qed.

Lemma adds_indexes_bind {A B} (n1 n2 : nat) (m : M A) (k : A -> M B) :
  adds_indexes n1 m -> (forall a, adds_indexes n2 (k a)) ->
  adds_indexes (n1 + n2) (bind m k).
Proof.
  intros Hm Hk st. unfold bind.
  destruct (Hm st) as (a1 & Heq1 & Hlen1).
  destruct (m st) as [[a | e] st1]; cbn [snd] in *.
  - destruct (Hk a st1) as (a2 & Heq2 & Hlen2).
    exists (a1 ++ a2). rewrite Heq2, Heq1, <- app_assoc, length_app.
    split; [reflexivity | lia].
  - exists a1. split; [exact Heq1 | lia].
Qed.

Lemma dict_set_keys {V} (d : dict V) (k : string) (v v' : V) :
  dict_get d k = Some v -> map fst (dict_set d k v') = map fst d.
Proof.
  induction d as [| [k' w] d IH]; simpl; [discriminate |].
  destruct (String.eqb k' k); [reflexivity |].
  intros Hg. simpl. rewrite (IH Hg). reflexivity.
Qed.

Lemma apply_action_keys (e e' : dict (list string)) (a : AliasAction) :
  apply_action e a = Some e' -> map fst e' = map fst e.
Proof.
  destruct a as [index alias | index alias]; simpl;
    destruct (dict_get e index) as [aliases |] eqn:Hg; try discriminate;
    intros Heq; injection Heq as <-; apply (dict_set_keys _ _ _ _ Hg).
Qed.

Lemma apply_actions_keys (l : list AliasAction) :
  forall e e', apply_actions e l = Some e' -> map fst e' = map fst e.
Proof.
  induction l as [| a l IH]; intros e e'; simpl.
  - intros Heq. injection Heq as <-. reflexivity.
  - destruct (apply_action e a) as [e1 |] eqn:Ha; [| discriminate].
    intros Hl. rewrite (IH _ _ Hl). apply (apply_action_keys _ _ _ Ha).
Qed.

Lemma adds_indexes_indices_create (index : string) (aliases : list string)
      (b : bool) : adds_indexes 1 (indices_create index aliases b).
Proof.
  intros st. unfold indices_create, bind, log_call.
  cbn [engine with_calls].
  destruct (dict_get (engine st) index); cbn [snd engine with_engine with_calls].
  - exists []. rewrite app_nil_r. split; [reflexivity | cbn; lia].
  - exists [index]. rewrite map_app. split; [reflexivity | cbn; lia].
Qed.

Lemma adds_indexes_indices_update_aliases (actions : list AliasAction) :
  adds_indexes 0 (indices_update_aliases actions).
Proof.
  intros st. unfold indices_update_aliases, bind, log_call.
  cbn [engine with_calls]. exists []. rewrite app_nil_r.
  destruct (apply_actions (engine st) actions) as [e |] eqn:Ha;
    cbn [snd engine with_engine with_calls].
  - split; [apply (apply_actions_keys _ _ _ Ha) | cbn; lia].
  - split; [reflexivity | cbn; lia].
Qed.

Section NoIndexDropped.

Context {H : Helpers}.
Variable self : SyncDatetimeIndexInserter.

Ltac keep0 := apply (adds_indexes_bind 0 0).
Ltac keep :=
  first [ apply adds_indexes_reads_only, reads_only_ret
        | apply adds_indexes_reads_only, reads_only_or_raise
        | apply adds_indexes_reads_only, reads_only_raise
        | apply adds_indexes_reads_only, reads_only_refresh_cache
        | apply adds_indexes_reads_only, reads_only_select_indexes
        | apply adds_indexes_reads_only, reads_only_get_collection_indexes
        | apply adds_indexes_reads_only, reads_only_sort_collection_indexes
        | apply adds_indexes_indices_create
        | apply adds_indexes_indices_update_aliases ].

Lemma adds_indexes_create_datetime_index_sync (adapter : SearchEngineType)
      (collection_id start_date : string) :
  adds_indexes 1 (create_datetime_index_sync adapter collection_id start_date).
Proof.
  unfold create_datetime_index_sync.
  apply (adds_indexes_bind 1 0); [keep | intros; keep].
Qed.

Lemma adds_indexes_update_index_alias_sync (end_date old_alias : string) :
  adds_indexes 0 (update_index_alias_sync end_date old_alias).
Proof. unfold update_index_alias_sync. keep0; [keep | intros; keep]. Qed.

Lemma adds_indexes_is_index_oversized_sync (index_name : string) :
  adds_indexes 0 (is_index_oversized_sync self index_name).
Proof. apply adds_indexes_same_engine. intros st. reflexivity. Qed.

Lemma adds_indexes_item_date (item : Item) : adds_indexes 0 (item_date item).
Proof.
  unfold item_date.
  destruct (dict_get (properties item) "datetime") as [[s |] |]; keep.
Qed.

Lemma adds_indexes_handle_new_collection_sync (collection_id dt : string) :
  adds_indexes 1 (handle_new_collection_sync self collection_id dt).
Proof.
  unfold handle_new_collection_sync.
  apply (adds_indexes_bind 0 1);
    [keep | intros; apply adds_indexes_create_datetime_index_sync].
Qed.

Lemma adds_indexes_handle_early_date_sync (collection_id : string)
      (start_date end_date : date) :
  adds_indexes 1 (handle_early_date_sync self collection_id start_date end_date).
Proof.
  unfold handle_early_date_sync.
  apply (adds_indexes_bind 1 0);
    [apply adds_indexes_create_datetime_index_sync | intros].
  keep0; [keep | intros; apply adds_indexes_update_index_alias_sync].
Qed.

Lemma adds_indexes_handle_oversized_index_sync
      (collection_id target dt : string) :
  adds_indexes 1 (handle_oversized_index_sync self collection_id target dt).
Proof.
  unfold handle_oversized_index_sync.
  apply (adds_indexes_bind 0 1); [keep | intros].
  apply (adds_indexes_bind 0 1); [keep | intros].
  destruct (negb _); [| apply adds_indexes_weaken with (n := 0); [keep | lia]].
  apply (adds_indexes_bind 0 1);
    [apply adds_indexes_update_index_alias_sync | intros].
  apply (adds_indexes_bind 0 1);
    [keep | intros; apply adds_indexes_create_datetime_index_sync].
Qed.

Lemma adds_indexes_get_target_index_internal (collection_id : string)
      (product : Item) (check_size : bool) :
  adds_indexes 1
    (_get_target_index_internal self collection_id product check_size).
Proof.
  unfold _get_target_index_internal.
  apply (adds_indexes_bind 0 1).
  { apply adds_indexes_same_engine. intros st. reflexivity. }
  intros dt. apply (adds_indexes_bind 0 1); [keep | intros target].
  apply (adds_indexes_bind 0 1); [keep | intros all].
  destruct all as [| a rest].
  - apply (adds_indexes_bind 1 0);
      [apply adds_indexes_handle_new_collection_sync | intros].
    keep0; [keep | intros; keep].
  - apply (adds_indexes_bind 0 1); [keep | intros sorted].
    apply (adds_indexes_bind 0 1); [keep | intros start_date].
    apply (adds_indexes_bind 0 1); [keep | intros end_date].
    destruct (date_ltb start_date end_date).
    + apply (adds_indexes_bind 1 0);
        [apply adds_indexes_handle_early_date_sync | intros].
      keep0; [keep | intros; keep].
    + destruct (negb _).
      * apply adds_indexes_weaken with (n := 0); [keep | lia].
      * destruct check_size;
          [| apply adds_indexes_weaken with (n := 0); [keep | lia]].
        apply (adds_indexes_bind 0 1);
          [apply adds_indexes_is_index_oversized_sync | intros oversized].
        destruct oversized;
          [| apply adds_indexes_weaken with (n := 0); [keep | lia]].
        apply (adds_indexes_bind 1 0);
          [apply adds_indexes_handle_oversized_index_sync | intros].
        keep0; [keep | intros; keep].
Qed.

Lemma adds_indexes_ensure_indexes_exist (collection_id : string)
      (items : list Item) :
  adds_indexes 1 (_ensure_indexes_exist self collection_id items).
Proof.
  unfold _ensure_indexes_exist.
  apply (adds_indexes_bind 0 1); [keep | intros all].
  destruct all as [| a rest];
    [| apply adds_indexes_weaken with (n := 0); [keep | lia]].
  apply (adds_indexes_bind 0 1); [keep | intros first].
  apply (adds_indexes_bind 0 1); [apply adds_indexes_item_date | intros].
  apply (adds_indexes_bind 1 0);
    [apply adds_indexes_create_datetime_index_sync | intros].
  keep0; [keep | intros; keep].
Qed.

Lemma adds_indexes_create_new_index_for_split (collection_id latest : string)
      (first_item : Item) :
  adds_indexes 1
    (_create_new_index_for_split self collection_id latest first_item).
Proof.
  unfold _create_new_index_for_split.
  apply (adds_indexes_bind 0 1); [keep | intros].
  apply (adds_indexes_bind 0 1); [apply adds_indexes_item_date | intros].
  destruct (negb _); [| apply adds_indexes_weaken with (n := 0); [keep | lia]].
  apply (adds_indexes_bind 0 1);
    [apply adds_indexes_update_index_alias_sync | intros].
  apply (adds_indexes_bind 0 1); [keep | intros].
  apply (adds_indexes_bind 1 0);
    [apply adds_indexes_create_datetime_index_sync | intros; keep].
Qed.

Lemma adds_indexes_handle_index_splitting (collection_id : string)
      (items : list Item) :
  adds_indexes 2 (_handle_index_splitting self collection_id items).
Proof.
  unfold _handle_index_splitting.
  apply (adds_indexes_bind 0 2); [keep | intros all].
  apply (adds_indexes_bind 0 2); [keep | intros sorted].
  apply (adds_indexes_bind 0 2); [keep | intros latest].
  apply (adds_indexes_bind 0 2); [keep | intros first].
  apply (adds_indexes_bind 1 1);
    [apply adds_indexes_get_target_index_internal | intros idx].
  destruct (negb _); [apply adds_indexes_weaken with (n := 0); [keep | lia] |].
  apply (adds_indexes_bind 0 1);
    [apply adds_indexes_is_index_oversized_sync | intros oversized].
  destruct oversized;
    [| apply adds_indexes_weaken with (n := 0); [keep | lia]].
  apply adds_indexes_create_new_index_for_split.
Qed.

Lemma adds_indexes_bulk_target_index (collection_id : string) (item : Item)
      (split_info : option SplitInfo) :
  adds_indexes 1 (bulk_target_index self collection_id item split_info).
Proof.
  unfold bulk_target_index. destruct split_info as [info |];
    [| apply adds_indexes_get_target_index_internal].
  apply (adds_indexes_bind 0 1); [apply adds_indexes_item_date | intros d].
  destruct (date_ltb _ _);
    [apply adds_indexes_weaken with (n := 0); [keep | lia] |].
  apply adds_indexes_get_target_index_internal.
Qed.

Lemma adds_indexes_bulk_loop (collection_id : string)
      (split_info : option SplitInfo) (items : list Item) :
  forall actions,
    adds_indexes (List.length items)
                 (bulk_loop self collection_id items split_info actions).
Proof.
  induction items as [| item rest IH]; intros actions; cbn [bulk_loop List.length].
  - keep.
  - apply (adds_indexes_bind 1 (List.length rest));
      [apply adds_indexes_bulk_target_index | intros; apply IH].
Qed.

Lemma adds_indexes_prepare_bulk_actions (collection_id : string)
      (items : list Item) :
  adds_indexes (3 + List.length items)
               (prepare_bulk_actions self collection_id items).
Proof.
  unfold prepare_bulk_actions.
  apply (adds_indexes_bind 1 (2 + List.length items));
    [apply adds_indexes_ensure_indexes_exist | intros].
  apply (adds_indexes_bind 2 (List.length items));
    [apply adds_indexes_handle_index_splitting | intros].
  apply adds_indexes_bulk_loop.
Qed.

(** X14: writing never drops an index.  Whatever its outcome, result or
    exception, [get_target_index] leaves every index of the engine in place
    and creates at most one; [prepare_bulk_actions] leaves every index in
    place too, and what it adds comes after them. *)
Theorem writes_never_drop_an_index (collection_id : string) :
  (forall product, adds_indexes 1 (get_target_index self collection_id product))
  /\ (forall items st,
        exists added,
          map fst (engine (snd (prepare_bulk_actions self collection_id items
                                                     st)))
          = map fst (engine st) ++ added).
Proof.
  split.
  - intros product. apply adds_indexes_get_target_index_internal.
  - intros items st.
    destruct (adds_indexes_prepare_bulk_actions collection_id items st)
      as (added & Heq & _).
    exists added. exact Heq.
Qed.

End NoIndexDropped.

(** ** Further cases of target-index resolution *)

Section MoreResolution.

Context {H : Helpers}.
Variable self : SyncDatetimeIndexInserter.

(** Resolution for a collection without partitions: the first partition is
    created at the item's date and the cache is reloaded. *)
Lemma resolve_new_collection
      (collection_id : string) (product : Item) (check_size : bool)
      (st : State) (product_datetime : string) (filtered : list string)
      (item_day : date) :
  let alias := partition_alias collection_id (date_str item_day) in
  coherent st ->
  collection_indexes_in (aliases_on_engine (engine st)) collection_id = [] ->
  _validate_product_datetime product = Ok product_datetime ->
  filter_indexes_by_datetime [] (Some product_datetime) (Some product_datetime)
  = Some filtered ->
  extract_date product_datetime = Some item_day ->
  exists st',
    _get_target_index_internal self collection_id product check_size st
    = (Ok alias, st')
    /\ engine st'
       = created (engine st) (ITEMS_INDEX_PREFIX +++ alias)
                 [index_alias_by_collection_id collection_id; alias]
    /\ size_in_bytes st' = size_in_bytes st
    /\ coherent st'.
Proof.
  cbv zeta. intros Hco Hnone Hval Hfilter Hday.
  rewrite <- Hnone in Hfilter.
  destruct (select_one_coherent collection_id
              [("gte", Some product_datetime); ("lte", Some product_datetime)]
              filtered st Hco Hfilter)
    as (st1 & Hsel & Heng1 & Hsize1 & Hcache1).
  assert (Hco1 : coherent st1).
  { apply loaded_coherent. rewrite Heng1. exact Hcache1. }
  destruct (get_collection_indexes_coherent collection_id st1 Hco1)
    as (st2 & Hget & Heng2 & Hsize2 & Hcache2).
  rewrite Heng1, Hnone in Hget.
  unfold _get_target_index_internal, bind, lift.
  rewrite Hval, Hsel, Hget.
  unfold handle_new_collection_sync, bind.
  rewrite Hday. unfold or_raise at 1, ret at 1.
  rewrite create_datetime_index_sync_run.
  unfold refresh_cache, refresh_aliases. rewrite load_aliases_run.
  unfold ret. eexists. split; [reflexivity |].
  cbn [engine size_in_bytes cache_manager].
  rewrite Heng2, Heng1. repeat split; [congruence |].
  apply loaded_coherent. reflexivity.
Qed.

(** Resolution that meets the same-day guard: the selected name is the
    latest partition, it is oversized, and the item's date is its start date.
    Nothing is renamed or created; the cache is reloaded. *)
Lemma resolve_same_day
      (collection_id : string) (product : Item)
      (st : State) (product_datetime : string) (filtered : list string)
      (item_day earliest start : date) :
  let all_indexes :=
    collection_indexes_in (aliases_on_engine (engine st)) collection_id in
  let target_index := selected_name filtered in
  coherent st ->
  all_indexes <> [] ->
  sort all_indexes = all_indexes ->
  _validate_product_datetime product = Ok product_datetime ->
  filter_indexes_by_datetime all_indexes (Some product_datetime)
                             (Some product_datetime) = Some filtered ->
  extract_date product_datetime = Some item_day ->
  extract_first_date_from_index (first_index all_indexes) = Some earliest ->
  date_ltb item_day earliest = false ->
  target_index = last_index all_indexes ->
  oversized self st target_index = true ->
  extract_first_date_from_index target_index = Some start ->
  date_eqb item_day start = true ->
  exists st',
    get_target_index self collection_id product st = (Ok target_index, st')
    /\ engine st' = engine st
    /\ size_in_bytes st' = size_in_bytes st
    /\ coherent st'
    /\ stats_calls (calls st') <= stats_calls (calls st) + 1.
Proof.
  cbv zeta.
  intros Hco Hne Hsorted Hval Hfilter Hday Hearliest Hnot_early Hlatest Hover
         Hstart Hsame.
  destruct (resolve_prefix self collection_id product true st product_datetime
              filtered item_day earliest Hco Hne Hsorted Hval Hfilter Hday
              Hearliest Hnot_early)
    as (st2 & Heng2 & Hsize2 & Hcache2 & Hrun).
  pose proof (stats_bound_get_target_index_internal self collection_id product
                true st) as Hstats.
  unfold get_target_index. rewrite Hrun in *.
  rewrite <- Hlatest, String.eqb_refl in *. cbn [negb] in *.
  unfold bind at 1 in Hstats. unfold bind at 1.
  rewrite is_index_oversized_sync_run in *.
  assert (Hover2 : oversized self st2 (selected_name filtered) = true).
  { unfold oversized in *. rewrite Hsize2. exact Hover. }
  rewrite Hover2 in *.
  unfold handle_oversized_index_sync, bind in *.
  rewrite Hday in *. unfold or_raise at 1, ret at 1 in Hstats.
  unfold or_raise at 1, ret at 1.
  rewrite Hstart in *. unfold or_raise at 1, ret at 1 in Hstats.
  unfold or_raise at 1, ret at 1.
  rewrite Hsame in *. cbn [negb] in *.
  unfold ret at 1 in Hstats. unfold ret at 1.
  unfold refresh_cache, refresh_aliases in *. rewrite load_aliases_run in *.
  unfold ret in *. eexists. split; [reflexivity |].
  cbn [engine size_in_bytes cache_manager with_calls calls snd] in *.
  rewrite Heng2. repeat split; [exact Hsize2 | | exact Hstats].
  apply loaded_coherent. reflexivity.
Qed.

(** Resolution that starts a rollover on the last day of the calendar: the
    alias of the old partition is renamed to end at the item's date, and the
    day after, which does not exist, raises [OverflowError] before any
    partition is created and before the cache is reloaded. *)
Lemma resolve_with_overflow
      (collection_id : string) (product : Item)
      (st : State) (product_datetime : string) (filtered aliases : list string)
      (item_day earliest start : date) :
  let all_indexes :=
    collection_indexes_in (aliases_on_engine (engine st)) collection_id in
  let target_index := selected_name filtered in
  let old_index := ITEMS_INDEX_PREFIX +++ target_index in
  let closed_alias := target_index +++ "-" +++ date_str item_day in
  coherent st ->
  all_indexes <> [] ->
  sort all_indexes = all_indexes ->
  _validate_product_datetime product = Ok product_datetime ->
  filter_indexes_by_datetime all_indexes (Some product_datetime)
                             (Some product_datetime) = Some filtered ->
  extract_date product_datetime = Some item_day ->
  extract_first_date_from_index (first_index all_indexes) = Some earliest ->
  date_ltb item_day earliest = false ->
  target_index = last_index all_indexes ->
  oversized self st target_index = true ->
  extract_first_date_from_index target_index = Some start ->
  date_eqb item_day start = false ->
  dict_get (engine st) old_index = Some aliases ->
  add_one_day item_day = None ->
  exists st',
    get_target_index self collection_id product st = (Raise OverflowError, st')
    /\ engine st'
       = renamed (engine st) old_index target_index closed_alias aliases
    /\ _cache (cache_manager st') = Some (aliases_on_engine (engine st)).
Proof.
  cbv zeta.
  intros Hco Hne Hsorted Hval Hfilter Hday Hearliest Hnot_early Hlatest Hover
         Hstart Hother Hindex Hnext.
  destruct (resolve_prefix self collection_id product true st product_datetime
              filtered item_day earliest Hco Hne Hsorted Hval Hfilter Hday
              Hearliest Hnot_early)
    as (st2 & Heng2 & Hsize2 & Hcache2 & Hrun).
  unfold get_target_index. rewrite Hrun.
  rewrite <- Hlatest, String.eqb_refl. cbn [negb].
  unfold bind at 1. rewrite is_index_oversized_sync_run.
  assert (Hover2 : oversized self st2 (selected_name filtered) = true).
  { unfold oversized in *. rewrite Hsize2. exact Hover. }
  rewrite Hover2.
  unfold handle_oversized_index_sync, bind.
  rewrite Hday. unfold or_raise at 1, ret at 1.
  rewrite Hstart. unfold or_raise at 1, ret at 1.
  rewrite Hother. cbn [negb].
  erewrite update_index_alias_sync_run
    by (cbn [engine with_calls]; rewrite Heng2; exact Hindex).
  rewrite Hnext. unfold or_raise at 1, raise at 1.
  eexists. split; [reflexivity |].
  cbn [engine cache_manager with_calls].
  rewrite Heng2. split; [reflexivity | exact Hcache2].
Qed.

End MoreResolution.

(** ** Partitions in the middle of the order *)

Section MiddlePartitions.

Lemma chronological_app (before after : list (date * date)) (open_start : date) :
  chronological (before ++ after) open_start ->
  chronological after open_start
  /\ forall q, In q before ->
               SpecHelpers.valid_date (fst q) = true
               /\ date_ltb (fst q) (hd open_start (map fst after)) = true.
Proof.
  induction before as [| p rest IH]; intros Hc.
  - split; [exact Hc | intros q []].
  - destruct Hc as (Hp & Hhd & Hrest).
    destruct (IH Hrest) as [Hafter Hall].
    split; [exact Hafter |].
    intros q [<- | Hq]; [| apply Hall; exact Hq].
    split; [exact Hp |].
    destruct rest as [| r rest']; [exact Hhd |].
    destruct (Hall r (or_introl eq_refl)) as [_ Hr].
    cbn [app map hd] in Hhd. exact (date_ltb_trans _ _ _ Hhd Hr).
Qed.

(** No partition starts before the first one. *)
Lemma chronological_head_least (closed : list (date * date)) (open_start : date) :
  chronological closed open_start ->
  forall q, In q closed ->
            date_ltb (fst q) (hd open_start (map fst closed)) = false.
Proof.
  intros Hc q Hq. destruct closed as [| p rest]; [destruct Hq |].
  cbn [map hd]. destruct Hq as [<- | Hq]; [apply date_ltb_irrefl |].
  destruct (chronological_app [p] rest open_start Hc) as [Hrest Hall].
  destruct (Hall p (or_introl eq_refl)) as [_ Hp].
  destruct rest as [| r rest']; [destruct Hq |].
  cbn [map hd] in Hp.
  destruct Hq as [<- | Hq].
  - apply date_ltb_asym. exact Hp.
  - destruct (chronological_app [r] rest' open_start Hrest) as [Hrest' Hall'].
    clear Hall.
    assert (Hle : forall x, In x (r :: rest') ->
                            date_ltb (fst x) (fst r) = false).
    { clear - Hrest. revert r Hrest.
      induction rest' as [| y ys IH]; intros r Hrest x Hx.
      - destruct Hx as [<- | []]. apply date_ltb_irrefl.
      - destruct Hx as [<- | Hx]; [apply date_ltb_irrefl |].
        destruct Hrest as (_ & Hry & Hys). cbn [map hd] in Hry.
        specialize (IH y Hys x Hx). clear - Hry IH. dates. }
    specialize (Hle q (or_intror Hq)). clear - Hp Hle. dates.
Qed.

End MiddlePartitions.

Section ClosedPartitionFilter.

#[local] Existing Instance SpecHelpers.helpers.

Variable collection_id : string.
Hypothesis Hplain : plain_collection collection_id.

(** An item dated from the start of a closed partition up to the day before
    the next partition starts selects that closed partition alone, whatever
    end date its alias bears. *)
Lemma filter_selects_closed (before after : list (date * date))
      (start closing open_start : date) (dt : string) (d : date) :
  chronological (before ++ (start, closing) :: after) open_start ->
  SpecHelpers.valid_date open_start = true ->
  extract_date dt = Some d ->
  date_ltb d start = false ->
  date_ltb d (hd open_start (map fst after)) = true ->
  filter_indexes_by_datetime
    (partition_aliases collection_id (before ++ (start, closing) :: after)
                       open_start)
    (Some dt) (Some dt)
  = Some [closed_alias collection_id (start, closing)].
Proof.
  intros Hc Hopen Hd Hfrom Hbefore.
  set (closed := before ++ (start, closing) :: after) in *.
  set (next := hd open_start (map fst after)) in *.
  destruct (chronological_app before ((start, closing) :: after) open_start Hc)
    as [Hmid Hbefore_all].
  cbn [map hd fst] in Hbefore_all.
  pose proof Hmid as (Hstart & Hnext & Hafter).
  cbn [fst] in Hstart, Hnext. fold next in Hnext.
  pose proof (chronological_head_le after open_start Hafter) as Hnext_le.
  fold next in Hnext_le.
  pose proof (chronological_head_least after open_start Hafter) as Hleast.
  fold next in Hleast.
  assert (Hin_start : In start (partition_starts closed open_start)).
  { unfold partition_starts, closed. rewrite map_app. apply in_or_app. left.
    apply in_or_app. right. left. reflexivity. }
  assert (Hin_next : In next (partition_starts closed open_start)).
  { unfold partition_starts, closed, next. rewrite map_app.
    destruct after as [| a rest]; cbn [map hd].
    - apply in_or_app. right. left. reflexivity.
    - apply in_or_app. left. apply in_or_app. right. right. left.
      reflexivity. }
  assert (Hafter_starts : forall q, In q after ->
                                    SpecHelpers.valid_date (fst q) = true
                                    /\ date_ltb d (fst q) = true).
  { intros q Hq. split; [apply (chronological_all after open_start Hafter q Hq) |].
    specialize (Hleast q Hq). clear - Hleast Hbefore. dates. }
  rewrite (filter_by_start _ (partition_starts closed open_start) dt d
             (starts_of_partition_aliases collection_id Hplain closed
                open_start Hc Hopen) Hd).
  rewrite partition_aliases_app.
  replace (map (closed_alias collection_id) closed)
    with (map (closed_alias collection_id) before
          ++ closed_alias collection_id (start, closing)
             :: map (closed_alias collection_id) after)
    by (unfold closed; rewrite map_app; reflexivity).
  rewrite !filter_app. cbn [filter].
  rewrite (extract_first_date_of_closed_alias collection_id Hplain
             (start, closing)) by exact Hstart.
  rewrite extract_first_date_of_open_alias by assumption.
  rewrite (keeps_open closed open_start d Hc). cbn [fst].
  assert (Hkeep : keeps (partition_starts closed open_start) d start = true).
  { unfold keeps, SpecHelpers.date_leb. rewrite Hfrom. cbn [negb andb].
    destruct (next_start_exists _ start next Hin_next Hnext) as (t & Ht).
    rewrite Ht.
    destruct (next_start_some _ start t Ht) as (Hin & Hst & _).
    unfold partition_starts, closed in Hin. rewrite map_app in Hin.
    cbn [map fst] in Hin.
    apply in_app_or in Hin. destruct Hin as [Hin | [<- | []]].
    - apply in_app_or in Hin. destruct Hin as [Hin | [<- | Hin]].
      + apply in_map_iff in Hin. destruct Hin as (q & <- & Hq).
        destruct (Hbefore_all q Hq) as [_ Hq_lt].
        rewrite (date_ltb_asym _ _ Hq_lt) in Hst. discriminate.
      + rewrite date_ltb_irrefl in Hst. discriminate.
      + apply in_map_iff in Hin. destruct Hin as (q & <- & Hq).
        apply (Hafter_starts q Hq).
    - clear - Hnext_le Hbefore. dates. }
  rewrite Hkeep.
  rewrite !filter_nothing.
  - unfold SpecHelpers.date_leb.
    replace (date_ltb d open_start) with true;
      [reflexivity | symmetry; clear - Hnext_le Hbefore; dates].
  - intros a Ha. apply in_map_iff in Ha. destruct Ha as (q & <- & Hq).
    destruct (Hafter_starts q Hq) as [Hv Hlater].
    rewrite extract_first_date_of_closed_alias by assumption.
    unfold keeps, SpecHelpers.date_leb. rewrite Hlater. reflexivity.
  - intros a Ha. apply in_map_iff in Ha. destruct Ha as (q & <- & Hq).
    destruct (Hbefore_all q Hq) as [Hv Hq_lt].
    rewrite extract_first_date_of_closed_alias by assumption.
    apply (keeps_not_before _ d (fst q) start);
      [exact Hin_start | exact Hq_lt | exact Hfrom].
Qed.

End ClosedPartitionFilter.

(** ** Further routing under the modelled helpers *)

Section MoreRouting.

#[local] Existing Instance SpecHelpers.helpers.

Variable self : SyncDatetimeIndexInserter.
Variable collection_id : string.
Variable others : dict (list string).

Hypothesis Hplain : plain_collection collection_id.
Hypothesis Hforeign : foreign collection_id others.

Lemma no_indexes_among_others :
  collection_indexes_in (aliases_on_engine others) collection_id = [].
Proof.
  unfold collection_indexes_in. rewrite (proj1 Hforeign). reflexivity.
Qed.

Lemma filter_of_no_partition (dt : string) (d : date) :
  extract_date dt = Some d ->
  filter_indexes_by_datetime [] (Some dt) (Some dt) = Some [].
Proof. intros Hd. exact (filter_by_start [] [] dt d eq_refl Hd). Qed.

Lemma first_partition_table (d : date) :
  created others
          (ITEMS_INDEX_PREFIX +++ partition_alias collection_id (date_str d))
          [index_alias_by_collection_id collection_id;
           partition_alias collection_id (date_str d)]
  = partition_table collection_id others [] d.
Proof.
  unfold created. rewrite (proj2 Hforeign). reflexivity.
Qed.

(** X15: the first item of a collection opens its first partition.  With
    the modelled helpers, for a collection that has no partition on the
    engine and an item with a date, [get_target_index] creates the partition
    that starts at the item's date, with the alias of the collection and the
    alias [<collection>_<date>], returns that alias, and reloads the cache;
    the other indices of the engine are left as they were. *)
Theorem first_item_opens_first_partition (product : Item) (d : date)
        (st : State) :
  engine st = others ->
  coherent st ->
  item_date_of product = Some d ->
  exists st',
    get_target_index self collection_id product st
    = (Ok (partition_alias collection_id (date_str d)), st')
    /\ engine st' = partition_table collection_id others [] d
    /\ coherent st'.
Proof.
  intros Heng Hco Hitem.
  destruct (item_date_of_validate product d Hitem) as (dt & Hval & Hdt).
  destruct (resolve_new_collection self collection_id product true st dt []
              d Hco) as (st' & Hrun & Heng' & _ & Hco'); try assumption.
  - rewrite Heng. exact no_indexes_among_others.
  - exact (filter_of_no_partition dt d Hdt).
  - exists st'. split; [exact Hrun |]. split; [| exact Hco'].
    rewrite Heng', Heng. apply first_partition_table.
Qed.

Variable earlier : list (date * date).
Variable start : date.

Hypothesis Hchron : chronological earlier start.
Hypothesis Hstart : SpecHelpers.valid_date start = true.

Let old_alias := partition_alias collection_id (date_str start).
Let first_start := hd start (map fst earlier).

Lemma indexes_of_open_table (st : State) :
  engine st = partition_table collection_id others earlier start ->
  collection_indexes_in (aliases_on_engine (engine st)) collection_id
  = partition_aliases collection_id earlier start.
Proof.
  intros ->. apply indexes_of_partition_table; assumption.
Qed.

Lemma date_eqb_refl (d : date) : date_eqb d d = true.
Proof. apply date_eqb_spec. lia. Qed.

(** X16: the same-day guard of the single-item path.
    With the modelled helpers, for a plain collection (no alias
    [<id>_<x>] of it bears the items prefix, and the first date read in such
    an alias is the first date of [x]: the id holds no date of its own), on
    an engine that holds, after indices foreign to the collection (none adds
    to its entry in the alias mapping, none bears the name of one of its
    partitions), exactly its partitions in the order of their start dates,
    which are calendar dates and grow strictly: the closed ones under their
    closed aliases and then the open one, each index bearing the collection
    alias and its own; and with a cache that is empty or holds the mapping of
    that very table (not the stale mapping a batch split leaves behind):
    an item dated on the very day the open partition starts is routed to
    that partition although it is oversized: the size is checked at most
    once, nothing is renamed or created, the engine's table is left as it
    was and the cache stays in step with it. *)
Theorem same_day_item_does_not_roll_over (product : Item) (st : State) :
  engine st = partition_table collection_id others earlier start ->
  coherent st ->
  item_date_of product = Some start ->
  oversized self st old_alias = true ->
  exists st',
    get_target_index self collection_id product st = (Ok old_alias, st')
    /\ engine st' = engine st
    /\ coherent st'
    /\ stats_calls (calls st') <= stats_calls (calls st) + 1.
Proof.
  intros Heng Hco Hitem Hover.
  destruct (item_date_of_validate product start Hitem) as (dt & Hval & Hdt).
  pose proof (indexes_of_open_table st Heng) as Hall.
  destruct (resolve_same_day self collection_id product st dt [old_alias]
              start first_start start)
    as (st' & Hrun & Heng' & _ & Hco' & Hstats);
    try rewrite Hall; try assumption.
  - apply partition_aliases_not_empty.
  - apply sort_partition_aliases; assumption.
  - apply (filter_selects_open collection_id Hplain earlier start dt start);
      try assumption. apply date_ltb_irrefl.
  - apply first_partition_start; assumption.
  - apply (chronological_head_le earlier start Hchron).
  - rewrite last_partition_alias. reflexivity.
  - apply extract_first_date_of_open_alias; assumption.
  - apply date_eqb_refl.
  - exists st'. repeat split; assumption.
Qed.

Lemma closing_of_partition_table (closing : date) :
  renamed (partition_table collection_id others earlier start)
          (ITEMS_INDEX_PREFIX +++ old_alias) old_alias
          (old_alias +++ "-" +++ date_str closing)
          [index_alias_by_collection_id collection_id; old_alias]
  = closed_partitions_table collection_id others
      (earlier ++ [(start, closing)]).
Proof.
  unfold renamed, old_alias.
  rewrite (remove_partition_alias collection_id Hplain).
  rewrite partition_alias_append.
  rewrite (add_partition_alias collection_id Hplain).
  rewrite <- partition_alias_append.
  change (ITEMS_INDEX_PREFIX
          +++ partition_alias collection_id (date_str start))
    with (partition_index collection_id start).
  unfold partition_table, partition_pairs, closed_partitions_table.
  rewrite !map_app. cbn [map fst snd]. rewrite !app_assoc.
  rewrite map_map. cbn [fst snd].
  assert (Hmiss :
            dict_get
              (others
               ++ map (fun p : date * date =>
                         (partition_index collection_id (fst p),
                          [index_alias_by_collection_id collection_id;
                           closed_alias collection_id p])) earlier)
              (partition_index collection_id start) = None).
  { rewrite dict_get_app.
    rewrite (others_miss collection_id others start Hforeign).
    pose proof (closed_entries_miss collection_id earlier start
                  (chronological_all earlier start Hchron) Hstart) as Hc.
    rewrite map_map in Hc. exact Hc. }
  rewrite !dict_set_last by exact Hmiss.
  reflexivity.
Qed.

(** X17: a rollover on the last day of the calendar fails half way.
    With the modelled helpers, for a plain collection (no alias
    [<id>_<x>] of it bears the items prefix, and the first date read in such
    an alias is the first date of [x]: the id holds no date of its own), on
    an engine that holds, after indices foreign to the collection (none adds
    to its entry in the alias mapping, none bears the name of one of its
    partitions), exactly its partitions in the order of their start dates,
    which are calendar dates and grow strictly: the closed ones under their
    closed aliases and then the open one, each index bearing the collection
    alias and its own; and with a cache that is empty or holds the mapping of
    that very table (not the stale mapping a batch split leaves behind):
    when an item dated 9999-12-31 meets the open partition, oversized and
    started on an earlier day, [get_target_index] first renames the alias of
    that partition to end on 9999-12-31 and then raises [OverflowError] for
    the day after: no partition is created, the collection is left with
    closed partitions only, and the cache, which is not reloaded, holds the
    mapping of the engine before the rename. *)
Theorem rollover_on_the_last_day (product : Item) (st : State) :
  engine st = partition_table collection_id others earlier start ->
  coherent st ->
  item_date_of product = Some last_day ->
  date_ltb start last_day = true ->
  oversized self st old_alias = true ->
  exists st',
    get_target_index self collection_id product st = (Raise OverflowError, st')
    /\ engine st'
       = closed_partitions_table collection_id others
           (earlier ++ [(start, last_day)])
    /\ _cache (cache_manager st')
       = Some (aliases_on_engine
                 (partition_table collection_id others earlier start)).
Proof.
  intros Heng Hco Hitem Hafter Hover.
  destruct (item_date_of_validate product last_day Hitem) as (dt & Hval & Hdt).
  pose proof (indexes_of_open_table st Heng) as Hall.
  pose proof (date_ltb_asym _ _ Hafter) as Hnot_before.
  destruct (resolve_with_overflow self collection_id product st dt
              [old_alias]
              [index_alias_by_collection_id collection_id; old_alias]
              last_day first_start start)
    as (st' & Hrun & Heng' & Hcache'); try rewrite Hall; try assumption.
  - apply partition_aliases_not_empty.
  - apply sort_partition_aliases; assumption.
  - apply (filter_selects_open collection_id Hplain earlier start dt last_day);
      assumption.
  - apply first_partition_start; assumption.
  - pose proof (chronological_head_le earlier start Hchron) as Hle.
    fold first_start in Hle. clear - Hle Hnot_before. dates.
  - rewrite last_partition_alias. reflexivity.
  - apply extract_first_date_of_open_alias; assumption.
  - exact (date_ltb_neq _ _ Hafter).
  - rewrite Heng.
    apply (open_partition_in_table collection_id others earlier start
             Hforeign Hchron Hstart).
  - reflexivity.
  - exists st'. split; [exact Hrun |]. split.
    + rewrite Heng', Heng. apply closing_of_partition_table.
    + rewrite Hcache', Heng. reflexivity.
Qed.

End MoreRouting.

Section ClosedPartitionRouting.

#[local] Existing Instance SpecHelpers.helpers.

Variable self : SyncDatetimeIndexInserter.
Variable collection_id : string.
Variable others : dict (list string).
Variables before after : list (date * date).
Variables start closing open_start : date.

Hypothesis Hplain : plain_collection collection_id.
Hypothesis Hforeign : foreign collection_id others.
Hypothesis Hchron :
  chronological (before ++ (start, closing) :: after) open_start.
Hypothesis Hopen : SpecHelpers.valid_date open_start = true.

(** X18: closed partitions are never rolled over.
    With the modelled helpers, for a plain collection (no alias
    [<id>_<x>] of it bears the items prefix, and the first date read in such
    an alias is the first date of [x]: the id holds no date of its own), on
    an engine that holds, after indices foreign to the collection (none adds
    to its entry in the alias mapping, none bears the name of one of its
    partitions), exactly its partitions in the order of their start dates,
    which are calendar dates and grow strictly: the closed ones under their
    closed aliases and then the open one, each index bearing the collection
    alias and its own; and with a cache that is empty or holds the mapping of
    that very table (not the stale mapping a batch split leaves behind):
    an item dated from the start of a closed partition up to the day before
    the next partition starts is routed to that closed partition under its
    closed alias, whatever sizes the engine reports (the modelled filter
    tells the partitions by their start dates); the engine's table is left
    as it was and the cache stays in step with it. *)
Theorem item_of_closed_partition (product : Item) (d : date) (st : State) :
  engine st
  = partition_table collection_id others
      (before ++ (start, closing) :: after) open_start ->
  coherent st ->
  item_date_of product = Some d ->
  date_ltb d start = false ->
  date_ltb d (hd open_start (map fst after)) = true ->
  exists st',
    get_target_index self collection_id product st
    = (Ok (closed_alias collection_id (start, closing)), st')
    /\ engine st' = engine st
    /\ coherent st'.
Proof.
  intros Heng Hco Hitem Hfrom Hbefore.
  destruct (item_date_of_validate product d Hitem) as (dt & Hval & Hdt).
  set (closed := before ++ (start, closing) :: after) in *.
  assert (Hall : collection_indexes_in (aliases_on_engine (engine st))
                                       collection_id
                 = partition_aliases collection_id closed open_start).
  { rewrite Heng. apply indexes_of_partition_table; assumption. }
  assert (Hin : In (start, closing) closed).
  { unfold closed. apply in_or_app. right. left. reflexivity. }
  destruct (chronological_all closed open_start Hchron _ Hin) as [Hstart Hlt].
  cbn [fst] in Hstart, Hlt.
  unfold get_target_index.
  destruct (resolve_without_rollover self collection_id product true st dt
              [closed_alias collection_id (start, closing)] d
              (hd open_start (map fst closed)))
    as (st' & Hrun & Heng' & _ & Hco'); try rewrite Hall; try assumption.
  - apply partition_aliases_not_empty.
  - apply sort_partition_aliases; assumption.
  - apply (filter_selects_closed collection_id Hplain before after start
             closing open_start dt d); assumption.
  - apply first_partition_start; assumption.
  - pose proof (chronological_head_least closed open_start Hchron _ Hin) as Hle.
    cbn [fst] in Hle. clear - Hle Hfrom. dates.
  - left. rewrite last_partition_alias.
    cbn [selected_name join String.concat].
    apply compare_lt_neq. rewrite closed_alias_form by exact Hplain.
    apply partition_alias_lt; assumption.
  - exists st'. repeat split; assumption.
Qed.

End ClosedPartitionRouting.

(** An engine that holds a partition of collection ["c2"] and nothing of
    ["c1"]; the item of ["c1"] is dated 2024-03-05. *)
Lemma first_item_opens_first_partition_witness :
  exists st',
    get_target_index (H := SpecHelpers.helpers) Demo.inserter "c1"
      (Demo.item "a" "2024-03-05T10:00:00Z")
      (Demo.state [("items_c2_2024-01-01", ["items_c2"; "c2_2024-01-01"])])
    = (Ok "c1_2024-03-05", st').
Proof.
  destruct (first_item_opens_first_partition Demo.inserter "c1"
              [("items_c2_2024-01-01", ["items_c2"; "c2_2024-01-01"])]
              (conj eq_refl (fun x => eq_refl))
              (Demo.item "a" "2024-03-05T10:00:00Z") (mkdate 2024 3 5)
              (Demo.state
                 [("items_c2_2024-01-01", ["items_c2"; "c2_2024-01-01"])]))
    as (st' & Hrun & _).
  - reflexivity.
  - intros m Hm. discriminate Hm.
  - reflexivity.
  - exists st'. exact Hrun.
Defined.

(** Collection ["c1"] with one open partition from 2024-01-01, reported at
    30 GB; the item is dated 2024-01-01. *)
Lemma same_day_item_does_not_roll_over_witness :
  exists st',
    get_target_index (H := SpecHelpers.helpers) Demo.inserter "c1"
      (Demo.item "a" "2024-01-01T08:00:00Z")
      (Demo.state (Demo.one_partition "2024-01-01"))
    = (Ok "c1_2024-01-01", st').
Proof.
  destruct (same_day_item_does_not_roll_over Demo.inserter "c1" [])
    with (earlier := @nil (date * date)) (start := mkdate 2024 1 1)
         (product := Demo.item "a" "2024-01-01T08:00:00Z")
         (st := Demo.state (Demo.one_partition "2024-01-01"))
    as (st' & Hrun & _).
  - split; intros x; reflexivity.
  - split; [reflexivity | intros x; reflexivity].
  - exact I.
  - reflexivity.
  - reflexivity.
  - intros m Hm. discriminate Hm.
  - reflexivity.
  - reflexivity.
  - exists st'. exact Hrun.
Defined.

(** Collection ["c1"] with one open partition from 2024-01-01, reported at
    30 GB; the item is dated 9999-12-31. *)
Lemma rollover_on_the_last_day_witness :
  exists st',
    get_target_index (H := SpecHelpers.helpers) Demo.inserter "c1"
      (Demo.item "a" "9999-12-31T00:00:00Z")
      (Demo.state (Demo.one_partition "2024-01-01"))
    = (Raise OverflowError, st')
    /\ engine st'
       = [("items_c1_2024-01-01", ["items_c1"; "c1_2024-01-01-9999-12-31"])].
Proof.
  destruct (rollover_on_the_last_day Demo.inserter "c1" [])
    with (earlier := @nil (date * date)) (start := mkdate 2024 1 1)
         (product := Demo.item "a" "9999-12-31T00:00:00Z")
         (st := Demo.state (Demo.one_partition "2024-01-01"))
    as (st' & Hrun & Heng & _).
  - split; intros x; reflexivity.
  - split; [reflexivity | intros x; reflexivity].
  - exact I.
  - reflexivity.
  - reflexivity.
  - intros m Hm. discriminate Hm.
  - reflexivity.
  - reflexivity.
  - reflexivity.
  - exists st'. split; [exact Hrun | exact Heng].
Defined.

(** Collection ["c1"] with a partition closed over December 2023 and an open
    partition from 2024-01-01, every name reported at 30 GB; the item is
    dated 2023-12-15. *)
Lemma item_of_closed_partition_witness :
  exists st',
    get_target_index (H := SpecHelpers.helpers) Demo.inserter "c1"
      (Demo.item "a" "2023-12-15T00:00:00Z")
      (Demo.state
         [("items_c1_2023-12-01", ["items_c1"; "c1_2023-12-01-2023-12-31"]);
          ("items_c1_2024-01-01", ["items_c1"; "c1_2024-01-01"])])
    = (Ok "c1_2023-12-01-2023-12-31", st').
Proof.
  destruct (item_of_closed_partition Demo.inserter "c1" [] [] []
              (mkdate 2023 12 1) (mkdate 2023 12 31) (mkdate 2024 1 1))
    with (product := Demo.item "a" "2023-12-15T00:00:00Z")
         (d := mkdate 2023 12 15)
         (st := Demo.state
                  [("items_c1_2023-12-01",
                    ["items_c1"; "c1_2023-12-01-2023-12-31"]);
                   ("items_c1_2024-01-01", ["items_c1"; "c1_2024-01-01"])])
    as (st' & Hrun & _).
  - split; intros x; reflexivity.
  - split; [reflexivity | intros x; reflexivity].
  - repeat split.
  - reflexivity.
  - reflexivity.
  - intros m Hm. discriminate Hm.
  - reflexivity.
  - reflexivity.
  - reflexivity.
  - exists st'. exact Hrun.
Defined.

(** ** Batches that stay in the open partition *)

Section SortedCache.

Context {H : Helpers}.

(** Sorting a list that is sorted already leaves the cache as it is. *)
Lemma sort_collection_indexes_fixed (collection_id : string) (st : State) :
  let all_indexes :=
    collection_indexes_in (aliases_on_engine (engine st)) collection_id in
  _cache (cache_manager st) = Some (aliases_on_engine (engine st)) ->
  all_indexes <> [] ->
  sort all_indexes = all_indexes ->
  sort_collection_indexes collection_id all_indexes st = (Ok all_indexes, st).
Proof.
  cbv zeta. intros Hcache Hne Hsorted.
  set (m := aliases_on_engine (engine st)) in *.
  assert (Hentry : dict_get m (index_alias_by_collection_id collection_id)
                   = Some (collection_indexes_in m collection_id)).
  { unfold collection_indexes_in in *.
    destruct (dict_get m _); [reflexivity | contradiction]. }
  unfold sort_collection_indexes. rewrite Hcache, Hentry, Hsorted.
  rewrite (dict_set_get_same _ _ _ Hentry).
  rewrite <- Hcache. destruct st as [e s [c t l] k n cs]. reflexivity.
Qed.

End SortedCache.

Section OpenPartitionBatch.

#[local] Existing Instance SpecHelpers.helpers.

Variable self : SyncDatetimeIndexInserter.
Variable collection_id : string.
Variable others : dict (list string).
Variable earlier : list (date * date).
Variable start : date.

Hypothesis Hplain : plain_collection collection_id.
Hypothesis Hforeign : foreign collection_id others.
Hypothesis Hchron : chronological earlier start.
Hypothesis Hstart : SpecHelpers.valid_date start = true.

Let open_alias := partition_alias collection_id (date_str start).
Let table := partition_table collection_id others earlier start.
Let first_start := hd start (map fst earlier).

Lemma indexes_of_table (st : State) :
  engine st = table ->
  collection_indexes_in (aliases_on_engine (engine st)) collection_id
  = partition_aliases collection_id earlier start.
Proof. intros ->. apply indexes_of_partition_table; assumption. Qed.

(** Without size check, an item dated from the start of the open partition
    on resolves to the open partition. *)
Lemma resolve_to_open_partition (item : Item) (st : State) :
  engine st = table ->
  coherent st ->
  dated_from start item ->
  exists st',
    _get_target_index_internal self collection_id item false st
    = (Ok open_alias, st')
    /\ engine st' = table
    /\ size_in_bytes st' = size_in_bytes st
    /\ coherent st'.
Proof.
  intros Heng Hco (d & Hitem & Hfrom).
  destruct (item_date_of_validate item d Hitem) as (dt & Hval & Hdt).
  pose proof (indexes_of_table st Heng) as Hall.
  destruct (resolve_without_rollover self collection_id item false st dt
              [open_alias] d first_start)
    as (st' & Hrun & Heng' & Hsize' & Hco'); try rewrite Hall; try assumption.
  - apply partition_aliases_not_empty.
  - apply sort_partition_aliases; assumption.
  - apply (filter_selects_open collection_id Hplain earlier start dt d);
      assumption.
  - apply first_partition_start; assumption.
  - pose proof (chronological_head_le earlier start Hchron) as Hle.
    fold first_start in Hle. clear - Hle Hfrom. dates.
  - right. left. reflexivity.
  - exists st'. repeat split; try assumption. congruence.
Qed.

Lemma bulk_loop_into_open_partition (items : list Item) :
  forall (actions : list BulkAction) (st : State),
    engine st = table ->
    coherent st ->
    Forall (dated_from start) items ->
    exists st',
      bulk_loop self collection_id items None actions st
      = (Ok (actions ++ map (action_to open_alias) items), st')
      /\ engine st' = table
      /\ coherent st'.
Proof.
  induction items as [| item rest IH]; intros actions st Heng Hco Hall.
  - exists st. cbn. rewrite app_nil_r. repeat split; assumption.
  - inversion Hall as [| x l Hitem Hrest]; subst.
    destruct (resolve_to_open_partition item st Heng Hco Hitem)
      as (st1 & Hrun & Heng1 & _ & Hco1).
    destruct (IH (actions ++ [action_to open_alias item]) st1 Heng1 Hco1 Hrest)
      as (st' & Hloop & Heng' & Hco').
    exists st'. cbn [bulk_loop bulk_target_index]. unfold bind.
    rewrite Hrun. unfold action_to in *. rewrite Hloop.
    cbn [map]. rewrite <- app_assoc. repeat split; assumption.
Qed.

(** The batch computes no split point when the open partition is within
    budget or the first item is dated on the day that partition starts. *)
Lemma handle_index_splitting_without_rollover (first : Item)
      (rest : list Item) (st : State) :
  engine st = table ->
  coherent st ->
  dated_from start first ->
  oversized self st open_alias = false \/ item_date_of first = Some start ->
  exists st',
    _handle_index_splitting self collection_id (first :: rest) st
    = (Ok None, st')
    /\ engine st' = table
    /\ coherent st'.
Proof.
  intros Heng Hco Hfirst Hstay.
  pose proof (indexes_of_table st Heng) as Hall.
  destruct (get_collection_indexes_coherent collection_id st Hco)
    as (st1 & Hget & Heng1 & Hsize1 & Hcache1).
  rewrite Hall in Hget.
  assert (Hsort :
            sort_collection_indexes collection_id
              (partition_aliases collection_id earlier start) st1
            = (Ok (partition_aliases collection_id earlier start), st1)).
  { rewrite <- Hall, <- Heng1.
    apply sort_collection_indexes_fixed.
    - rewrite Heng1. exact Hcache1.
    - rewrite Heng1, Hall. apply partition_aliases_not_empty.
    - rewrite Heng1, Hall. apply sort_partition_aliases; assumption. }
  assert (Hco1 : coherent st1).
  { apply loaded_coherent. rewrite Heng1. exact Hcache1. }
  destruct (resolve_to_open_partition first st1 (eq_trans Heng1 Heng) Hco1
              Hfirst) as (st2 & Hrun & Heng2 & Hsize2 & Hco2).
  unfold _handle_index_splitting, bind.
  rewrite Hget, Hsort.
  destruct (partition_aliases collection_id earlier start) as [| a l] eqn:Hpa.
  { exfalso. exact (partition_aliases_not_empty collection_id earlier start Hpa). }
  rewrite <- Hpa. cbn [or_raise ret hd_error].
  rewrite Hrun. rewrite last_partition_alias.
  fold open_alias. rewrite String.eqb_refl. cbn [negb].
  rewrite is_index_oversized_sync_run.
  destruct (oversized self st2 open_alias) eqn:Hover.
  - destruct Hstay as [Hbudget | Hsame].
    + unfold oversized in *. rewrite Hsize2, Hsize1 in Hover. congruence.
    + unfold _create_new_index_for_split, bind.
      unfold open_alias.
      rewrite (extract_first_date_of_open_alias collection_id Hplain start
                 Hstart).
      cbn [or_raise ret]. rewrite (item_date_run first _ start Hsame).
      rewrite date_eqb_refl. cbn [negb ret].
      eexists. split; [reflexivity |].
      cbn [engine with_calls]. split; [exact Heng2 |].
      intros m Hm. apply Hco2. exact Hm.
  - cbn [ret]. eexists. split; [reflexivity |].
    cbn [engine with_calls]. split; [exact Heng2 |].
    intros m Hm. apply Hco2. exact Hm.
Qed.


End OpenPartitionBatch.

Section FirstBatch.

#[local] Existing Instance SpecHelpers.helpers.

Variable self : SyncDatetimeIndexInserter.
Variable collection_id : string.
Variable others : dict (list string).

Hypothesis Hplain : plain_collection collection_id.
Hypothesis Hforeign : foreign collection_id others.

(** X20: the first batch of a collection opens one partition.  With the
    modelled helpers, for a plain collection (no alias [<id>_<x>] of it bears
    the items prefix, and the first date read in such an alias is the first
    date of [x]: the id holds no date of its own), on an engine whose indices
    are all foreign to the collection (none adds to its entry in the alias
    mapping, none bears the name of one of its partitions), with a cache that
    is empty or holds the mapping of that very table, and a batch whose first
    item has a date and whose other items are all dated on or after it:
    [prepare_bulk_actions] creates the partition that starts at the first
    item's date and sends every item to it, in the order given, whatever
    sizes the engine reports; nothing else is created or renamed, and the
    cache ends in step with the engine. *)
Theorem first_batch_opens_one_partition (first : Item) (rest : list Item)
        (d0 : date) (st : State) :
  engine st = others ->
  coherent st ->
  item_date_of first = Some d0 ->
  Forall (dated_from d0) rest ->
  exists st',
    prepare_bulk_actions self collection_id (first :: rest) st
    = (Ok (map (action_to (partition_alias collection_id (date_str d0)))
               (first :: rest)), st')
    /\ engine st' = partition_table collection_id others [] d0
    /\ coherent st'.
Proof.
  intros Heng Hco Hfirst Hrest.
  assert (Hd0 : SpecHelpers.valid_date d0 = true).
  { destruct (item_date_of_validate first d0 Hfirst) as (dt & _ & Hdt).
    exact (extract_date_valid dt d0 Hdt). }
  assert (Hfrom : dated_from d0 first).
  { exists d0. split; [exact Hfirst | apply date_ltb_irrefl]. }
  destruct (get_collection_indexes_coherent collection_id st Hco)
    as (st1 & Hget & Heng1 & Hsize1 & Hcache1).
  rewrite Heng, (no_indexes_among_others collection_id others Hforeign) in Hget.
  set (sa := snd (refresh_cache
                    (snd (create_datetime_index_sync (search_adapter self)
                            collection_id (date_str d0) st1)))).
  assert (Hensure : _ensure_indexes_exist self collection_id (first :: rest) st
                    = (Ok tt, sa)).
  { unfold _ensure_indexes_exist, bind. rewrite Hget.
    cbn [hd_error or_raise ret]. rewrite (item_date_run first st1 d0 Hfirst).
    unfold sa. rewrite create_datetime_index_sync_run.
    unfold refresh_cache, refresh_aliases. rewrite load_aliases_run.
    reflexivity. }
  assert (Heng_a : engine sa = partition_table collection_id others [] d0).
  { unfold sa. rewrite create_datetime_index_sync_run.
    unfold refresh_cache, refresh_aliases. rewrite load_aliases_run.
    cbn [snd engine]. rewrite Heng1, Heng.
    apply (first_partition_table collection_id others Hforeign). }
  assert (Hco_a : coherent sa).
  { apply loaded_coherent. unfold sa. rewrite create_datetime_index_sync_run.
    unfold refresh_cache, refresh_aliases. rewrite load_aliases_run.
    reflexivity. }
  destruct (handle_index_splitting_without_rollover self collection_id others
              [] d0 Hplain Hforeign I Hd0 first rest sa Heng_a Hco_a Hfrom
              (or_intror Hfirst))
    as (st2 & Hsplit & Heng2 & Hco2).
  destruct (bulk_loop_into_open_partition self collection_id others [] d0
              Hplain Hforeign I Hd0 (first :: rest) [] st2 Heng2 Hco2
              (Forall_cons _ Hfrom Hrest))
    as (st3 & Hloop & Heng3 & Hco3).
  exists st3. unfold prepare_bulk_actions, bind.
  rewrite Hensure, Hsplit. unfold _create_bulk_actions. rewrite Hloop.
  repeat split; assumption.
Qed.

End FirstBatch.


(** An engine without any index; the batch of ["c1"] holds an item of
    2024-03-05 and one of 2024-03-07. *)
Lemma first_batch_opens_one_partition_witness :
  exists st',
    prepare_bulk_actions (H := SpecHelpers.helpers) Demo.inserter "c1"
      [Demo.item "a" "2024-03-05T00:00:00Z";
       Demo.item "b" "2024-03-07T00:00:00Z"]
      (Demo.state [])
    = (Ok [mkAction "c1_2024-03-05" "a|c1"
                    (Demo.item "a" "2024-03-05T00:00:00Z");
           mkAction "c1_2024-03-05" "b|c1"
                    (Demo.item "b" "2024-03-07T00:00:00Z")], st')
    /\ engine st' = [("items_c1_2024-03-05", ["items_c1"; "c1_2024-03-05"])].
Proof.
  destruct (first_batch_opens_one_partition Demo.inserter "c1" [])
    with (first := Demo.item "a" "2024-03-05T00:00:00Z")
         (rest := [Demo.item "b" "2024-03-07T00:00:00Z"])
         (d0 := mkdate 2024 3 5)
         (st := Demo.state [])
    as (st' & Hrun & Heng & _).
  - split; intros x; reflexivity.
  - split; [reflexivity | intros x; reflexivity].
  - reflexivity.
  - intros m Hm. discriminate Hm.
  - reflexivity.
  - repeat constructor. exists (mkdate 2024 3 7). split; reflexivity.
  - exists st'. split; [exact Hrun | exact Heng].
Defined.

(** ** Selection over several collections *)

Section SeveralCollections.

Context {H : Helpers}.

Variable datetime_search : dict (option string).
Variable filtered_of : string -> list string.

Lemma select_loop_concatenates (collection_ids : list string) :
  forall (selected : list string) (st : State),
    coherent st ->
    (forall c, In c collection_ids ->
               filter_indexes_by_datetime
                 (collection_indexes_in (aliases_on_engine (engine st)) c)
                 (search_get datetime_search "gte")
                 (search_get datetime_search "lte")
               = Some (filtered_of c)) ->
    exists st',
      select_loop collection_ids datetime_search selected st
      = (Ok (selected ++ flat_map filtered_of collection_ids), st')
      /\ engine st' = engine st
      /\ coherent st'.
Proof.
  induction collection_ids as [| c rest IH]; intros selected st Hco Hall.
  - exists st. cbn. rewrite app_nil_r. repeat split. exact Hco.
  - destruct (get_collection_indexes_coherent c st Hco)
      as (st1 & Hget & Heng1 & _ & Hcache1).
    assert (Hco1 : coherent st1).
    { apply loaded_coherent. rewrite Heng1. exact Hcache1. }
    destruct (IH (selected ++ filtered_of c) st1 Hco1)
      as (st' & Hloop & Heng' & Hco').
    { intros c' Hc'. rewrite Heng1. apply Hall. right. exact Hc'. }
    exists st'. cbn [select_loop flat_map]. unfold bind.
    rewrite Hget, (Hall c (or_introl eq_refl)). cbn [or_raise ret].
    rewrite Hloop, <- app_assoc.
    repeat split; [congruence | exact Hco'].
Qed.

(** X21: over several collections [select_indexes] concatenates.  When the
    cache is in step with the engine and the filter accepts the partitions of
    every named collection, the result is the comma-joined list of the
    filtered partitions of each collection, in the order in which the
    collection ids are given (a collection named twice contributes twice),
    and the empty string when that list is empty. *)
Theorem select_indexes_concatenates (collection_ids : list string)
        (st : State) :
  collection_ids <> [] ->
  coherent st ->
  (forall c, In c collection_ids ->
             filter_indexes_by_datetime
               (collection_indexes_in (aliases_on_engine (engine st)) c)
               (search_get datetime_search "gte")
               (search_get datetime_search "lte")
             = Some (filtered_of c)) ->
  fst (select_indexes (Some collection_ids) datetime_search st)
  = Ok (selected_name (flat_map filtered_of collection_ids)).
Proof.
  intros Hne Hco Hall.
  destruct (select_loop_concatenates collection_ids [] st Hco Hall)
    as (st' & Hloop & _).
  unfold select_indexes. destruct collection_ids as [| c rest];
    [contradiction |].
  unfold bind. rewrite Hloop. reflexivity.
Qed.

End SeveralCollections.

(** Collections ["c2"] and ["c1"], one partition each, asked in that order
    for January 2024. *)
Lemma select_indexes_concatenates_witness :
  fst (select_indexes (H := SpecHelpers.helpers) (Some ["c2"; "c1"])
         [("gte", Some "2024-01-10T00:00:00Z");
          ("lte", Some "2024-01-20T00:00:00Z")]
         (Demo.state
            [("items_c1_2024-01-01", ["items_c1"; "c1_2024-01-01"]);
             ("items_c2_2024-01-05", ["items_c2"; "c2_2024-01-05"])]))
  = Ok "c2_2024-01-05,c1_2024-01-01".
Proof.
  apply (select_indexes_concatenates (H := SpecHelpers.helpers)
           [("gte", Some "2024-01-10T00:00:00Z");
            ("lte", Some "2024-01-20T00:00:00Z")]
           (fun c => if String.eqb c "c1" then ["c1_2024-01-01"]
                     else ["c2_2024-01-05"])
           ["c2"; "c1"]).
  - discriminate.
  - intros m Hm. discriminate Hm.
  - intros c [<- | [<- | []]]; vm_compute; reflexivity.
Defined.

(** ** The ordinary write *)

Section OpenPartitionItem.

#[local] Existing Instance SpecHelpers.helpers.

Variable self : SyncDatetimeIndexInserter.
Variable collection_id : string.
Variable others : dict (list string).
Variable earlier : list (date * date).
Variable start : date.

Hypothesis Hplain : plain_collection collection_id.
Hypothesis Hforeign : foreign collection_id others.
Hypothesis Hchron : chronological earlier start.
Hypothesis Hstart : SpecHelpers.valid_date start = true.

(** X22: the ordinary write.
    With the modelled helpers, for a plain collection (no alias
    [<id>_<x>] of it bears the items prefix, and the first date read in such
    an alias is the first date of [x]: the id holds no date of its own), on
    an engine that holds, after indices foreign to the collection (none adds
    to its entry in the alias mapping, none bears the name of one of its
    partitions), exactly its partitions in the order of their start dates,
    which are calendar dates and grow strictly: the closed ones under their
    closed aliases and then the open one, each index bearing the collection
    alias and its own; and with a cache that is empty or holds the mapping of
    that very table (not the stale mapping a batch split leaves behind):
    an item dated on or after the day the open partition starts, while that
    partition is within budget, is routed by [get_target_index] to the open
    partition; nothing is created or renamed, the engine's table is left as
    it was and the cache stays in step with it. *)
Theorem item_of_open_partition_within_budget (product : Item) (st : State) :
  engine st = partition_table collection_id others earlier start ->
  coherent st ->
  dated_from start product ->
  oversized self st (partition_alias collection_id (date_str start)) = false ->
  exists st',
    get_target_index self collection_id product st
    = (Ok (partition_alias collection_id (date_str start)), st')
    /\ engine st' = engine st
    /\ coherent st'.
Proof.
  intros Heng Hco (d & Hitem & Hfrom) Hbudget.
  destruct (item_date_of_validate product d Hitem) as (dt & Hval & Hdt).
  assert (Hall : collection_indexes_in (aliases_on_engine (engine st))
                                       collection_id
                 = partition_aliases collection_id earlier start).
  { rewrite Heng. apply indexes_of_partition_table; assumption. }
  unfold get_target_index.
  destruct (resolve_without_rollover self collection_id product true st dt
              [partition_alias collection_id (date_str start)] d
              (hd start (map fst earlier)))
    as (st' & Hrun & Heng' & _ & Hco'); try rewrite Hall; try assumption.
  - apply partition_aliases_not_empty.
  - apply sort_partition_aliases; assumption.
  - apply (filter_selects_open collection_id Hplain earlier start dt d);
      assumption.
  - apply first_partition_start; assumption.
  - pose proof (chronological_head_le earlier start Hchron) as Hle.
    clear - Hle Hfrom. dates.
  - right. right. exact Hbudget.
  - exists st'. repeat split; assumption.
Qed.

End OpenPartitionItem.

(** Collection ["c1"] with one open partition from 2024-01-01, reported at
    1 GB; the item is dated 2024-02-10. *)
Lemma item_of_open_partition_within_budget_witness :
  exists st',
    get_target_index (H := SpecHelpers.helpers) Demo.inserter "c1"
      (Demo.item "a" "2024-02-10T00:00:00Z")
      (mkState (Demo.one_partition "2024-01-01") (fun _ => 1000000000%Z)
               (IndexCacheManager_init 3600) Demo.clock 0 [])
    = (Ok "c1_2024-01-01", st').
Proof.
  destruct (item_of_open_partition_within_budget Demo.inserter "c1" [])
    with (earlier := @nil (date * date)) (start := mkdate 2024 1 1)
         (product := Demo.item "a" "2024-02-10T00:00:00Z")
         (st := mkState (Demo.one_partition "2024-01-01")
                        (fun _ => 1000000000%Z)
                        (IndexCacheManager_init 3600) Demo.clock 0 [])
    as (st' & Hrun & _).
  - split; intros x; reflexivity.
  - split; [reflexivity | intros x; reflexivity].
  - exact I.
  - reflexivity.
  - reflexivity.
  - intros m Hm. discriminate Hm.
  - exists (mkdate 2024 2 10). split; reflexivity.
  - reflexivity.
  - exists st'. exact Hrun.
Defined.

(** ** The split of a batch and the cache *)

Lemma keeps_cache_bind {A B} (m : M A) (k : A -> M B) :
  keeps_cache m -> (forall a, keeps_cache (k a)) -> keeps_cache (bind m k).
Proof.
  intros Hm Hk st. unfold bind.
  destruct (Hm st) as [Hc Ht]. destruct (m st) as [[a | e] st1]; cbn [snd] in *.
  - destruct (Hk a st1) as [Hc' Ht']. split; congruence.
  - split; assumption.
Qed.

Lemma keeps_cache_ret {A} (a : A) : keeps_cache (ret a).
Proof. intros st. split; reflexivity. Qed.

Lemma keeps_cache_or_raise {A} (o : option A) (e : exn) :
  keeps_cache (or_raise o e).
Proof. intros st. destruct o; split; reflexivity. Qed.

Lemma keeps_cache_indices_create (index : string) (aliases : list string)
      (b : bool) : keeps_cache (indices_create index aliases b).
Proof.
  intros st. unfold indices_create, bind, log_call. cbn [engine with_calls].
  destruct (dict_get (engine st) index); split; reflexivity.
Qed.

Lemma keeps_cache_indices_update_aliases (actions : list AliasAction) :
  keeps_cache (indices_update_aliases actions).
Proof.
  intros st. unfold indices_update_aliases, bind, log_call.
  cbn [engine with_calls].
  destruct (apply_actions (engine st) actions); split; reflexivity.
Qed.

Section SplitAndCache.

Context {H : Helpers}.
Variable self : SyncDatetimeIndexInserter.

Lemma keeps_cache_item_date (item : Item) : keeps_cache (item_date item).
Proof.
  unfold item_date.
  destruct (dict_get (properties item) "datetime") as [[s |] |];
    try apply keeps_cache_or_raise; intros st; split; reflexivity.
Qed.

(** X23: the split of a batch does not reload the cache.  Whatever
    [_create_new_index_for_split] does to the engine, renaming the alias of
    the latest partition and creating the next one, and whatever its
    outcome, it leaves the selector's cache exactly as it was and does not
    read the clock: the cached mapping is the one from before the split. *)
Theorem create_new_index_for_split_keeps_cache (collection_id latest : string)
        (first_item : Item) :
  keeps_cache
    (_create_new_index_for_split self collection_id latest first_item).
Proof.
  unfold _create_new_index_for_split.
  apply keeps_cache_bind; [apply keeps_cache_or_raise | intros start].
  apply keeps_cache_bind; [apply keeps_cache_item_date | intros d].
  destruct (negb _); [| apply keeps_cache_ret].
  apply keeps_cache_bind.
  { unfold update_index_alias_sync.
    apply keeps_cache_bind;
      [apply keeps_cache_indices_update_aliases | intros; apply keeps_cache_ret]. }
  intros _. apply keeps_cache_bind; [apply keeps_cache_or_raise | intros next].
  apply keeps_cache_bind; [| intros; apply keeps_cache_ret].
  unfold create_datetime_index_sync.
  apply keeps_cache_bind;
    [apply keeps_cache_indices_create | intros; apply keeps_cache_ret].
Qed.

End SplitAndCache.
